(** * Shift fanout and claim coordinator

    A shallow embedding of [app/models.py], [app/state.py] and the two
    request handlers of [app/api.py] ([trigger_fanout] and
    [receive_message]), followed by the properties of the coordinator:
    the claim pointer and first-writer-wins claims, also when handlers
    interleave at their await; the escalation boundary; idempotent triggers;
    role-based exclusion; inbound messages that change nothing; and what a
    failing send does to a trigger. *)

From Stdlib Require Import String List ZArith Bool Lia.
Import ListNotations.

Local Open Scope string_scope.
Local Open Scope Z_scope.
Local Open Scope list_scope.

(** ** Time

    [datetime] values are instants counted in microseconds (the resolution of
    Python's [datetime] and [timedelta]); subtraction of two instants is the
    [timedelta] between them. *)

Definition datetime := Z.
Definition timedelta := Z.

Definition timedelta_minutes (m : Z) : timedelta := m * 60 * 1000000.

(** ** app/models.py *)

Module Caregiver.
Record t := mk {
  id : string;
  name : string;
  role : string;
  phone : string
}.
End Caregiver.

Module Shift.
Record t := mk {
  id : string;
  organization_id : string;
  role_required : string;
  start_time : datetime;
  end_time : datetime;
  claimed_by_caregiver_id : option string
}.

(** [shift.claimed_by_caregiver_id = v] *)
Definition set_claimed_by_caregiver_id (shift : t) (v : option string) : t :=
  mk (id shift) (organization_id shift) (role_required shift)
     (start_time shift) (end_time shift) v.
End Shift.

Module ShiftFanoutState.
Record t := mk {
  shift_id : string;
  started_at : datetime;
  sms_notified_caregiver_ids : list string;
  call_notified_caregiver_ids : list string;
  claimed_caregiver_id : option string;
  escalated_to_call : bool
}.

(** [ShiftFanoutState(shift_id=..., started_at=...)]: the other fields take
    their defaults. *)
Definition create (shift_id : string) (started_at : datetime) : t :=
  mk shift_id started_at [] [] None false.

Definition set_sms_notified_caregiver_ids (s : t) (v : list string) : t :=
  mk (shift_id s) (started_at s) v (call_notified_caregiver_ids s)
     (claimed_caregiver_id s) (escalated_to_call s).

Definition set_call_notified_caregiver_ids (s : t) (v : list string) : t :=
  mk (shift_id s) (started_at s) (sms_notified_caregiver_ids s) v
     (claimed_caregiver_id s) (escalated_to_call s).

Definition set_claimed_caregiver_id (s : t) (v : option string) : t :=
  mk (shift_id s) (started_at s) (sms_notified_caregiver_ids s)
     (call_notified_caregiver_ids s) v (escalated_to_call s).

Definition set_escalated_to_call (s : t) (v : bool) : t :=
  mk (shift_id s) (started_at s) (sms_notified_caregiver_ids s)
     (call_notified_caregiver_ids s) (claimed_caregiver_id s) v.
End ShiftFanoutState.

(** ** app/api.py: the endpoint models *)

Module InboundMessage.
Record t := mk {
  from_phone : string;
  shift_id : string;
  body : string
}.
End InboundMessage.

Module ShiftClaimResponse.
Record t := mk {
  success : bool;
  message : string;
  shift_id : string;
  claimed_by : option string
}.
End ShiftClaimResponse.

(** [app.intent.ShiftRequestMessageIntent]: the three answers of the intent
    classifier. *)
Inductive ShiftRequestMessageIntent := ACCEPT | DECLINE | UNKNOWN.

(** ** The key-value store *)

Module InMemoryKeyValueDatabase.

(** Modelled from the spec: [app/database.py] (class
    [InMemoryKeyValueDatabase]) is not among the sources.  Section 4.1 of
    the specification gives its contract: [get] returns the value or
    nothing, [put] is an unconditional upsert, [all] lists the values in
    insertion order, [clear] empties the store.  An entry that is
    overwritten keeps its place, as in a Python [dict]. *)
Definition t (V : Type) := list (string * V).

Section Operations.
Context {V : Type}.

Definition empty : t V := [].

Fixpoint get (db : t V) (key : string) : option V :=
  match db with
  | [] => None
  | (k, v) :: rest => if String.eqb k key then Some v else get rest key
  end.

Fixpoint put (db : t V) (key : string) (value : V) : t V :=
  match db with
  | [] => [(key, value)]
  | (k, v) :: rest =>
      if String.eqb k key then (key, value) :: rest
      else (k, v) :: put rest key value
  end.

Definition all (db : t V) : list V := map snd db.

Definition clear (db : t V) : t V := [].

Definition keys (db : t V) : list string := map fst db.
End Operations.
End InMemoryKeyValueDatabase.

Module DB := InMemoryKeyValueDatabase.

(** ** app/state.py and the observable effects

    The three process-wide stores, together with the trace of what a request
    did to the outside: the sends handed to the notifier, the bodies handed
    to the intent classifier and the [put] calls on the stores.

    The stores hold Python object references.  A [Shift] or
    [ShiftFanoutState] object is only ever stored under one key, so a field
    assignment or an [append] on the object a handler got from [get] shows in
    the store at once, before (and whether or not) the handler calls [put]
    again: [fanout_write] and [shift_write] are these in-place mutations,
    [fanout_put] and [shift_put] the explicit [put] calls. *)

Inductive Store := CaregiverDb | ShiftDb | FanoutDb.

Inductive Event :=
| SendSms (phone message : string)
| PlacePhoneCall (phone message : string)
| ParseIntent (body : string)
| Put (db : Store) (key : string).

Record World := mkWorld {
  caregiver_db : DB.t Caregiver.t;
  shift_db : DB.t Shift.t;
  fanout_db : DB.t ShiftFanoutState.t;
  trace : list Event
}.

Definition fanout_write (key : string) (state : ShiftFanoutState.t)
    (w : World) : World :=
  mkWorld (caregiver_db w) (shift_db w) (DB.put (fanout_db w) key state)
          (trace w).

Definition shift_write (key : string) (shift : Shift.t) (w : World) : World :=
  mkWorld (caregiver_db w) (DB.put (shift_db w) key shift) (fanout_db w)
          (trace w).

Definition caregiver_write (key : string) (c : Caregiver.t) (w : World)
    : World :=
  mkWorld (DB.put (caregiver_db w) key c) (shift_db w) (fanout_db w)
          (trace w).

Definition record (events : list Event) (w : World) : World :=
  mkWorld (caregiver_db w) (shift_db w) (fanout_db w) (trace w ++ events).

(** ** The collaborators of one request

    What the clock, the notifier and the intent classifier answer while one
    request is handled.  [send_sms] and [place_phone_call] tell whether the
    send to a phone completes ([true]) or raises ([false]). *)

Record Env := mkEnv {
  (** [datetime.now(UTC)] where a fanout state is created *)
  now_at_creation : datetime;
  (** [datetime.now(UTC)] of the escalation check *)
  now_at_escalation_check : datetime;
  send_sms : string -> string -> bool;
  place_phone_call : string -> string -> bool;
  parse_shift_request_message_intent : string -> ShiftRequestMessageIntent
}.

(** ** Handlers as state transformers with failure *)

Inductive Result (A : Type) :=
| Return (a : A)
| HTTPException (status_code : Z) (detail : string)
| NotifierError.

Arguments Return {A} a.
Arguments HTTPException {A} status_code detail.
Arguments NotifierError {A}.

Definition Handler (A : Type) : Type := World -> World * Result A.

Definition ret {A} (a : A) : Handler A := fun w => (w, Return a).

Definition raise {A} (status_code : Z) (detail : string) : Handler A :=
  fun w => (w, HTTPException status_code detail).

Definition bind {A B} (m : Handler A) (f : A -> Handler B) : Handler B :=
  fun w =>
    match m w with
    | (w', Return a) => f a w'
    | (w', HTTPException c d) => (w', HTTPException c d)
    | (w', NotifierError) => (w', NotifierError)
    end.

Definition read {A} (f : World -> A) : Handler A := fun w => (w, Return (f w)).

Definition update (f : World -> World) : Handler unit :=
  fun w => (f w, Return tt).

Notation "x <- m ;; k" := (bind m (fun x => k))
  (at level 61, m at next level, right associativity).
Notation "m ;; k" := (bind m (fun _ => k))
  (at level 61, right associativity).

(** [fanout_db.put(key, state)] and [shift_db.put(key, shift)] *)
Definition fanout_put (key : string) (state : ShiftFanoutState.t)
    : Handler unit :=
  update (fun w => record [Put FanoutDb key] (fanout_write key state w)).

Definition shift_put (key : string) (shift : Shift.t) : Handler unit :=
  update (fun w => record [Put ShiftDb key] (shift_write key shift w)).

(** [await asyncio.gather] on the list of tasks, without [return_exceptions]:
    every task is started, in the order of the list; if one of them raises,
    the exception reaches the awaiting handler, and the other sends are not
    cancelled. *)
Definition gather (send : string -> string -> Event)
    (outcome : string -> string -> bool) (tasks : list (string * string))
    : Handler unit :=
  fun w =>
    let w' := record (map (fun t => send (fst t) (snd t)) tasks) w in
    if forallb (fun t => outcome (fst t) (snd t)) tasks
    then (w', Return tt)
    else (w', NotifierError).

(** ** app/api.py: [trigger_fanout] *)

(** [x in l] on a list of strings *)
Definition mem (x : string) (l : list string) : bool :=
  existsb (String.eqb x) l.

(** Truth value of a [str | None]: [None] and the empty string are false. *)
Definition truthy (o : option string) : bool :=
  match o with
  | Some s => negb (String.eqb s "")
  | None => false
  end.

(** The two notification loops (lines 106-109 and 120-125): every caregiver
    whose id is not yet in [notified] is appended to it and gets a task
    [(phone, message)]. *)
Fixpoint notify_round (message : string) (caregivers : list Caregiver.t)
    (notified : list string) : list string * list (string * string) :=
  match caregivers with
  | [] => (notified, [])
  | c :: rest =>
      if mem (Caregiver.id c) notified
      then notify_round message rest notified
      else
        let '(notified', tasks) :=
          notify_round message rest (notified ++ [Caregiver.id c]) in
        (notified', (Caregiver.phone c, message) :: tasks)
  end.

(** The two message texts (lines 109 and 125). *)
Definition sms_message (shift : Shift.t) : string :=
  ("New shift available! ID: " ++ Shift.id shift)%string.

Definition call_message (shift : Shift.t) : string :=
  ("Urgent: Shift available! ID: " ++ Shift.id shift)%string.

Definition is_empty {A} (l : list A) : bool :=
  match l with [] => true | _ => false end.

Definition eligible (shift : Shift.t) (caregivers : list Caregiver.t)
    : list Caregiver.t :=
  filter (fun c => String.eqb (Caregiver.role c) (Shift.role_required shift))
         caregivers.

Definition trigger_fanout (shift_id : string) (env : Env)
    : Handler ShiftFanoutState.t :=
  o_shift <- read (fun w => DB.get (shift_db w) shift_id) ;;
  match o_shift with
  | None => raise 404 "Shift not found"
  | Some shift =>
    (* Get or create fanout state *)
    o_state <- read (fun w => DB.get (fanout_db w) shift_id) ;;
    state <- match o_state with
             | Some state => ret state
             | None =>
                 let state :=
                   ShiftFanoutState.create shift_id (now_at_creation env) in
                 fanout_put shift_id state ;;
                 ret state
             end ;;
    (* If already claimed, return state *)
    if truthy (ShiftFanoutState.claimed_caregiver_id state) then ret state
    else
      (* Identify eligible caregivers *)
      eligible_caregivers <-
        read (fun w => eligible shift (DB.all (caregiver_db w))) ;;
      (* 1. Immediate SMS round *)
      let '(sms_ids, sms_tasks) :=
        notify_round (sms_message shift)
          eligible_caregivers
          (ShiftFanoutState.sms_notified_caregiver_ids state) in
      let state := ShiftFanoutState.set_sms_notified_caregiver_ids state sms_ids in
      update (fanout_write shift_id state) ;;
      (if is_empty sms_tasks then ret tt
       else
         gather SendSms (send_sms env) sms_tasks ;;
         fanout_put shift_id state) ;;
      (* 2. Escalation check *)
      let now := now_at_escalation_check env in
      if (now - ShiftFanoutState.started_at state >=? timedelta_minutes 10)
         && negb (ShiftFanoutState.escalated_to_call state)
      then
        let state := ShiftFanoutState.set_escalated_to_call state true in
        let '(call_ids, call_tasks) :=
          notify_round (call_message shift)
            eligible_caregivers
            (ShiftFanoutState.call_notified_caregiver_ids state) in
        let state :=
          ShiftFanoutState.set_call_notified_caregiver_ids state call_ids in
        update (fanout_write shift_id state) ;;
        (if is_empty call_tasks then ret tt
         else gather PlacePhoneCall (place_phone_call env) call_tasks) ;;
        fanout_put shift_id state ;;
        ret state
      else ret state
  end.

(** ** app/api.py: [receive_message] *)

(** Lines 160-204, the part of the handler that follows the [await] on the
    classifier: the branches on the intent, which run without suspension. *)
Definition resolve_intent (intent : ShiftRequestMessageIntent)
    (msg : InboundMessage.t) (env : Env) (caregiver : Caregiver.t)
    (shift : Shift.t) : Handler ShiftClaimResponse.t :=
  match intent with
  | ACCEPT =>
    (* CRITICAL SECTION - No Await *)
    o_state <- read (fun w => DB.get (fanout_db w) (Shift.id shift)) ;;
    fanout_state <-
      match o_state with
      | Some state => ret state
      | None =>
          let state :=
            ShiftFanoutState.create (Shift.id shift) (now_at_creation env) in
          fanout_put (Shift.id shift) state ;;
          ret state
      end ;;
    match ShiftFanoutState.claimed_caregiver_id fanout_state with
    | Some claimant =>
        (* Already claimed *)
        ret (ShiftClaimResponse.mk false "Shift already claimed"
               (Shift.id shift) (Some claimant))
    | None =>
        (* WE WIN *)
        let fanout_state :=
          ShiftFanoutState.set_claimed_caregiver_id fanout_state
            (Some (Caregiver.id caregiver)) in
        update (fanout_write (Shift.id shift) fanout_state) ;;
        fanout_put (Shift.id shift) fanout_state ;;
        let shift :=
          Shift.set_claimed_by_caregiver_id shift
            (Some (Caregiver.id caregiver)) in
        update (shift_write (InboundMessage.shift_id msg) shift) ;;
        shift_put (Shift.id shift) shift ;;
        ret (ShiftClaimResponse.mk true "Shift successfully claimed!"
               (Shift.id shift) (Some (Caregiver.id caregiver)))
    end
  | DECLINE =>
      ret (ShiftClaimResponse.mk false "Shift declined"
             (Shift.id shift) (Shift.claimed_by_caregiver_id shift))
  | UNKNOWN =>
      ret (ShiftClaimResponse.mk false "Intent unknown"
             (Shift.id shift) (Shift.claimed_by_caregiver_id shift))
  end.

Definition receive_message (msg : InboundMessage.t) (env : Env)
    : Handler ShiftClaimResponse.t :=
  (* 1. Find caregiver *)
  o_caregiver <-
    read (fun w =>
            find (fun c => String.eqb (Caregiver.phone c)
                                      (InboundMessage.from_phone msg))
                 (DB.all (caregiver_db w))) ;;
  match o_caregiver with
  | None => raise 404 "Caregiver not found"
  | Some caregiver =>
    (* 2. Find shift *)
    o_shift <-
      read (fun w => DB.get (shift_db w) (InboundMessage.shift_id msg)) ;;
    match o_shift with
    | None => raise 404 "Shift not found"
    | Some shift =>
      (* 3. Check eligibility *)
      if negb (String.eqb (Shift.role_required shift) (Caregiver.role caregiver))
      then
        ret (ShiftClaimResponse.mk false "Not eligible for this shift role"
               (Shift.id shift) (Shift.claimed_by_caregiver_id shift))
      else
        (* 4. Parse intent *)
        update (record [ParseIntent (InboundMessage.body msg)]) ;;
        resolve_intent
          (parse_shift_request_message_intent env (InboundMessage.body msg))
          msg env caregiver shift
    end
  end.

(** ** Sequences of operations

    The state reached by serving requests one after the other, each with the
    answers its collaborators gave.  Between requests the caregiver pool may
    grow: [AddCaregiver] is [caregiver_db.put(caregiver.id, caregiver)], the
    way [load_sample_data] fills the store (line 36). *)

Inductive Step :=
| Fanout (shift_id : string) (env : Env)
| Inbound (msg : InboundMessage.t) (env : Env)
| AddCaregiver (caregiver : Caregiver.t).

Definition step (s : Step) (w : World) : World :=
  match s with
  | Fanout shift_id env => fst (trigger_fanout shift_id env w)
  | Inbound msg env => fst (receive_message msg env w)
  | AddCaregiver c => caregiver_write (Caregiver.id c) c w
  end.

Fixpoint run (steps : list Step) (w : World) : World :=
  match steps with
  | [] => w
  | s :: rest => run rest (step s w)
  end.

Definition is_request (s : Step) : bool :=
  match s with
  | AddCaregiver _ => false
  | _ => true
  end.

(** The answers to a list of inbound messages served one after the other. *)
Fixpoint serve (msgs : list (InboundMessage.t * Env)) (w : World)
    : list (Result ShiftClaimResponse.t) :=
  match msgs with
  | [] => []
  | (msg, env) :: rest =>
      snd (receive_message msg env w)
      :: serve rest (fst (receive_message msg env w))
  end.

(** ** Requests in flight

    [receive_message] suspends once, at its [await] on the intent classifier
    (line 158), and other handlers run meanwhile.
    [receive_message_before_await] is the handler up to that point: its
    answer, when it returns or raises before the classifier is called, or
    else the caregiver and the shift object it goes on with.
    [receive_message_after_await] is the rest, on the shift object as it is
    by then: the one the store holds under the shift id of the message. *)

Definition receive_message_before_await (msg : InboundMessage.t) (w : World)
    : Result ShiftClaimResponse.t + Caregiver.t * Shift.t :=
  match find (fun c => String.eqb (Caregiver.phone c)
                                  (InboundMessage.from_phone msg))
             (DB.all (caregiver_db w)) with
  | None => inl (HTTPException 404 "Caregiver not found")
  | Some caregiver =>
    match DB.get (shift_db w) (InboundMessage.shift_id msg) with
    | None => inl (HTTPException 404 "Shift not found")
    | Some shift =>
      if negb (String.eqb (Shift.role_required shift) (Caregiver.role caregiver))
      then
        inl (Return (ShiftClaimResponse.mk false
                       "Not eligible for this shift role"
                       (Shift.id shift) (Shift.claimed_by_caregiver_id shift)))
      else inr (caregiver, shift)
    end
  end.

Definition receive_message_after_await (msg : InboundMessage.t) (env : Env)
    (caregiver : Caregiver.t) (shift : Shift.t)
    : Handler ShiftClaimResponse.t :=
  o_shift <-
    read (fun w => DB.get (shift_db w) (InboundMessage.shift_id msg)) ;;
  resolve_intent
    (parse_shift_request_message_intent env (InboundMessage.body msg))
    msg env caregiver
    (match o_shift with Some current => current | None => shift end).

(** A request to [receive_message]: received, suspended at the await, or
    answered. *)
Inductive Task :=
| Arrived (msg : InboundMessage.t) (env : Env)
| Awaiting (msg : InboundMessage.t) (env : Env) (caregiver : Caregiver.t)
    (shift : Shift.t)
| Answered (r : Result ShiftClaimResponse.t).

(** The event loop runs a task up to its next suspension. *)
Definition resume (t : Task) (w : World) : World * Task :=
  match t with
  | Arrived msg env =>
      match receive_message_before_await msg w with
      | inl r => (w, Answered r)
      | inr (caregiver, shift) =>
          (record [ParseIntent (InboundMessage.body msg)] w,
           Awaiting msg env caregiver shift)
      end
  | Awaiting msg env caregiver shift =>
      let '(w', r) := receive_message_after_await msg env caregiver shift w in
      (w', Answered r)
  | Answered r => (w, Answered r)
  end.

Fixpoint resume_nth (i : nat) (tasks : list Task) (w : World)
    : World * list Task :=
  match tasks, i with
  | [], _ => (w, [])
  | t :: rest, O => let '(w', t') := resume t w in (w', t' :: rest)
  | t :: rest, S j => let '(w', rest') := resume_nth j rest w in (w', t :: rest')
  end.

(** An interleaving: the numbers of the tasks in the order in which the
    event loop resumes them. *)
Fixpoint event_loop (order : list nat) (tasks : list Task) (w : World)
    : World * list Task :=
  match order with
  | [] => (w, tasks)
  | i :: rest =>
      let '(w', tasks') := resume_nth i tasks w in event_loop rest tasks' w'
  end.

Definition stage (t : Task) : nat :=
  match t with
  | Arrived _ _ => 0
  | Awaiting _ _ _ _ => 1
  | Answered _ => 2
  end.

Definition is_won (t : Task) : bool :=
  match t with
  | Answered (Return response) => ShiftClaimResponse.success response
  | _ => false
  end.

Definition won (shift : Shift.t) (c : string) : Task :=
  Answered (Return (ShiftClaimResponse.mk true "Shift successfully claimed!"
                      (Shift.id shift) (Some c))).

Definition lost (shift : Shift.t) (c : string) : Task :=
  Answered (Return (ShiftClaimResponse.mk false "Shift already claimed"
                      (Shift.id shift) (Some c))).

(** [load_sample_data]: every caregiver and every shift of the sample data is
    stored under its own id (lines 34-40). *)
Definition load_sample_data (caregivers : list Caregiver.t)
    (shifts : list Shift.t) (w : World) : World :=
  let w :=
    fold_left (fun w c => caregiver_write (Caregiver.id c) c w) caregivers w in
  fold_left (fun w s => shift_write (Shift.id s) s w) shifts w.

Definition empty_world : World := mkWorld DB.empty DB.empty DB.empty [].

(** ** What one trigger does to the fanout state

    [advance] is the content of the shift's [ShiftFanoutState] object when
    [trigger_fanout] is left, by [return] or by an exception of a send;
    [trigger_fanout_state] below shows that the handler computes it. *)

Definition current_state (shift_id : string) (env : Env) (w : World)
    : ShiftFanoutState.t :=
  match DB.get (fanout_db w) shift_id with
  | Some state => state
  | None => ShiftFanoutState.create shift_id (now_at_creation env)
  end.

Definition sms_round (shift : Shift.t) (pool : list Caregiver.t)
    (state : ShiftFanoutState.t) : list string * list (string * string) :=
  notify_round (sms_message shift)
    (eligible shift pool) (ShiftFanoutState.sms_notified_caregiver_ids state).

Definition call_round (shift : Shift.t) (pool : list Caregiver.t)
    (state : ShiftFanoutState.t) : list string * list (string * string) :=
  notify_round (call_message shift)
    (eligible shift pool) (ShiftFanoutState.call_notified_caregiver_ids state).

Definition all_complete (outcome : string -> string -> bool)
    (tasks : list (string * string)) : bool :=
  forallb (fun t => outcome (fst t) (snd t)) tasks.

Definition escalation_due (env : Env) (state : ShiftFanoutState.t) : bool :=
  (now_at_escalation_check env - ShiftFanoutState.started_at state
     >=? timedelta_minutes 10)
  && negb (ShiftFanoutState.escalated_to_call state).

Definition advance (shift : Shift.t) (pool : list Caregiver.t) (env : Env)
    (state : ShiftFanoutState.t) : ShiftFanoutState.t :=
  if truthy (ShiftFanoutState.claimed_caregiver_id state) then state
  else
    let state1 :=
      ShiftFanoutState.set_sms_notified_caregiver_ids state
        (fst (sms_round shift pool state)) in
    if all_complete (send_sms env) (snd (sms_round shift pool state)) then
      if escalation_due env state1 then
        ShiftFanoutState.set_call_notified_caregiver_ids
          (ShiftFanoutState.set_escalated_to_call state1 true)
          (fst (call_round shift pool state1))
      else state1
    else state1.

(** What the same call shows to the outside: its trace and its outcome. *)
Definition round_events (send : string -> string -> Event)
    (tasks : list (string * string)) : list Event :=
  map (fun t => send (fst t) (snd t)) tasks.

Definition fanout_events (shift_id : string) (shift : Shift.t)
    (pool : list Caregiver.t) (env : Env) (created : bool)
    (state : ShiftFanoutState.t) : list Event :=
  (if created then [Put FanoutDb shift_id] else [])
  ++
  if truthy (ShiftFanoutState.claimed_caregiver_id state) then []
  else
    let sms_tasks := snd (sms_round shift pool state) in
    let state1 :=
      ShiftFanoutState.set_sms_notified_caregiver_ids state
        (fst (sms_round shift pool state)) in
    let call_tasks := snd (call_round shift pool state1) in
    (if is_empty sms_tasks then []
     else round_events SendSms sms_tasks
          ++ if all_complete (send_sms env) sms_tasks
             then [Put FanoutDb shift_id] else [])
    ++
    if all_complete (send_sms env) sms_tasks && escalation_due env state1
    then round_events PlacePhoneCall call_tasks
         ++ if all_complete (place_phone_call env) call_tasks
            then [Put FanoutDb shift_id] else []
    else [].

Definition fanout_result (shift : Shift.t) (pool : list Caregiver.t)
    (env : Env) (state : ShiftFanoutState.t) : Result ShiftFanoutState.t :=
  if truthy (ShiftFanoutState.claimed_caregiver_id state) then Return state
  else
    let sms_tasks := snd (sms_round shift pool state) in
    let state1 :=
      ShiftFanoutState.set_sms_notified_caregiver_ids state
        (fst (sms_round shift pool state)) in
    let call_tasks := snd (call_round shift pool state1) in
    if all_complete (send_sms env) sms_tasks then
      if escalation_due env state1 then
        if all_complete (place_phone_call env) call_tasks
        then Return (advance shift pool env state)
        else NotifierError
      else Return (advance shift pool env state)
    else NotifierError.

Definition is_created (shift_id : string) (w : World) : bool :=
  match DB.get (fanout_db w) shift_id with
  | Some _ => false
  | None => true
  end.

(** ** How a fanout state may change

    [evolves state state'] collects what no operation undoes on the fanout
    state of a shift: the clock anchor and the shift id are fixed, the
    notified lists only grow, a claim and an escalation stay, and once
    escalated the list of called caregivers is frozen. *)

Record evolves (state state' : ShiftFanoutState.t) : Prop := {
  same_shift_id :
    ShiftFanoutState.shift_id state' = ShiftFanoutState.shift_id state;
  same_started_at :
    ShiftFanoutState.started_at state' = ShiftFanoutState.started_at state;
  sms_grow :
    exists added,
      ShiftFanoutState.sms_notified_caregiver_ids state'
      = ShiftFanoutState.sms_notified_caregiver_ids state ++ added;
  call_grow :
    exists added,
      ShiftFanoutState.call_notified_caregiver_ids state'
      = ShiftFanoutState.call_notified_caregiver_ids state ++ added;
  claim_stays :
    forall c,
      ShiftFanoutState.claimed_caregiver_id state = Some c ->
      ShiftFanoutState.claimed_caregiver_id state' = Some c;
  escalation_stays :
    ShiftFanoutState.escalated_to_call state = true ->
    ShiftFanoutState.escalated_to_call state' = true
    /\ ShiftFanoutState.call_notified_caregiver_ids state'
       = ShiftFanoutState.call_notified_caregiver_ids state
}.

(** ** Well-formed stores *)

(** Every shift is stored under its own id, as [load_sample_data] and
    [receive_message] store it. *)
Definition shifts_keyed_by_id (w : World) : Prop :=
  forall key shift,
    DB.get (shift_db w) key = Some shift -> Shift.id shift = key.

(** No two caregivers of the pool share an id. *)
Definition distinct_caregiver_ids (w : World) : Prop :=
  NoDup (map Caregiver.id (DB.all (caregiver_db w))).

(** The caregiver an inbound message comes from (line 138). *)
Definition sender (w : World) (msg : InboundMessage.t) : option Caregiver.t :=
  find (fun c => String.eqb (Caregiver.phone c) (InboundMessage.from_phone msg))
       (DB.all (caregiver_db w)).

(** The claim pointer of the shift stored under [key] names [c], on the
    [Shift] and on its [ShiftFanoutState]. *)
Definition claimed_by (key c : string) (w : World) : Prop :=
  exists state shift,
    DB.get (fanout_db w) key = Some state
    /\ ShiftFanoutState.claimed_caregiver_id state = Some c
    /\ DB.get (shift_db w) key = Some shift
    /\ Shift.claimed_by_caregiver_id shift = Some c.

(** No caregiver holds the shift stored under [key]: it has no fanout
    state yet, or one without claimant. *)
Definition unclaimed (key : string) (w : World) : Prop :=
  match DB.get (fanout_db w) key with
  | Some state => ShiftFanoutState.claimed_caregiver_id state = None
  | None => True
  end.

(** An ACCEPT attempt on [shift]: a message for it, from the known caregiver
    [caregiver] of the required role, which the classifier reads as ACCEPT. *)
Definition accept_attempt (w : World) (shift : Shift.t)
    (attempt : InboundMessage.t * Env) (caregiver : Caregiver.t) : Prop :=
  InboundMessage.shift_id (fst attempt) = Shift.id shift
  /\ sender w (fst attempt) = Some caregiver
  /\ Shift.role_required shift = Caregiver.role caregiver
  /\ parse_shift_request_message_intent (snd attempt)
       (InboundMessage.body (fst attempt)) = ACCEPT.

Definition is_success (r : Result ShiftClaimResponse.t) : bool :=
  match r with
  | Return response => ShiftClaimResponse.success response
  | _ => false
  end.

(** The shift stored under [key] has not escalated: it has no fanout state
    yet, or one whose flag is down. *)
Definition unescalated (key : string) (w : World) : Prop :=
  match DB.get (fanout_db w) key with
  | Some state => ShiftFanoutState.escalated_to_call state = false
  | None => True
  end.

(** The step, if it is a trigger on [key], reads the clock of its escalation
    check less than ten minutes after [started_at]. *)
Definition before_boundary (key : string) (started_at : datetime) (s : Step)
    : Prop :=
  match s with
  | Fanout k env =>
      k = key ->
      now_at_escalation_check env - started_at < timedelta_minutes 10
  | _ => True
  end.

(** Whoever is marked notified for a shift, by SMS or by call, is a caregiver
    of the pool with the role the shift requires. *)
Definition notified_are_eligible (w : World) : Prop :=
  forall key state shift x,
    DB.get (fanout_db w) key = Some state ->
    DB.get (shift_db w) key = Some shift ->
    In x (ShiftFanoutState.sms_notified_caregiver_ids state)
    \/ In x (ShiftFanoutState.call_notified_caregiver_ids state) ->
    exists c,
      In c (DB.all (caregiver_db w))
      /\ Caregiver.id c = x
      /\ Caregiver.role c = Shift.role_required shift.

(** A race of ACCEPT [attempts] on [shift] that started in the world [w0],
    while no attempt has reached the test-and-set: the stores are as they
    were, and the task of each attempt is suspended at its await if it has
    been resumed (its number is in [seen]), not started otherwise. *)
Definition racing (w0 : World) (shift : Shift.t)
    (attempts : list (InboundMessage.t * Env)) (seen : list nat)
    (w : World) (tasks : list Task) : Prop :=
  caregiver_db w = caregiver_db w0
  /\ shift_db w = shift_db w0
  /\ fanout_db w = fanout_db w0
  /\ length tasks = length attempts
  /\ forall j a,
       nth_error attempts j = Some a ->
       exists t,
         nth_error tasks j = Some t
         /\ if in_dec Nat.eq_dec j seen
            then exists caregiver,
                   accept_attempt w0 shift a caregiver
                   /\ t = Awaiting (fst a) (snd a) caregiver shift
            else t = Arrived (fst a) (snd a).

(** The race once task number [k] has claimed the shift for [winner]: the
    claim is in the store, and whatever task has answered got the success if
    it is task [k], the failure naming [winner] otherwise. *)
Definition decided (w0 : World) (shift : Shift.t)
    (attempts : list (InboundMessage.t * Env)) (k : nat)
    (winner : Caregiver.t) (w : World) (tasks : list Task) : Prop :=
  caregiver_db w = caregiver_db w0
  /\ (exists current,
        DB.get (shift_db w) (Shift.id shift) = Some current
        /\ Shift.id current = Shift.id shift
        /\ Shift.role_required current = Shift.role_required shift)
  /\ (exists state,
        DB.get (fanout_db w) (Shift.id shift) = Some state
        /\ ShiftFanoutState.claimed_caregiver_id state
           = Some (Caregiver.id winner))
  /\ length tasks = length attempts
  /\ nth_error tasks k = Some (won shift (Caregiver.id winner))
  /\ forall j a,
       nth_error attempts j = Some a ->
       exists t,
         nth_error tasks j = Some t
         /\ match t with
            | Arrived msg env => a = (msg, env)
            | Awaiting msg env caregiver _ =>
                a = (msg, env) /\ accept_attempt w0 shift a caregiver
            | Answered _ =>
                t = if Nat.eqb j k then won shift (Caregiver.id winner)
                    else lost shift (Caregiver.id winner)
            end.

Definition is_call (e : Event) : bool :=
  match e with PlacePhoneCall _ _ => true | _ => false end.

(** ** The effect of an inbound message on the stores *)

(** The three things an inbound message can do to the stores: nothing
    (unknown sender or shift, ineligible sender, DECLINE, UNKNOWN, or an
    ACCEPT on a claimed shift), or the claim. *)
Inductive inbound_effect (msg : InboundMessage.t) (env : Env) (w w' : World)
    : Prop :=
| inbound_inert :
    caregiver_db w' = caregiver_db w ->
    shift_db w' = shift_db w ->
    fanout_db w' = fanout_db w ->
    (forall r, snd (receive_message msg env w) = Return r ->
               ShiftClaimResponse.success r = false) ->
    inbound_effect msg env w w'
| inbound_claim caregiver shift :
    sender w msg = Some caregiver ->
    DB.get (shift_db w) (InboundMessage.shift_id msg) = Some shift ->
    Shift.role_required shift = Caregiver.role caregiver ->
    ShiftFanoutState.claimed_caregiver_id
      (current_state (Shift.id shift) env w) = None ->
    caregiver_db w' = caregiver_db w ->
    shift_db w'
    = DB.put
        (DB.put (shift_db w) (InboundMessage.shift_id msg)
           (Shift.set_claimed_by_caregiver_id shift
              (Some (Caregiver.id caregiver))))
        (Shift.id shift)
        (Shift.set_claimed_by_caregiver_id shift
           (Some (Caregiver.id caregiver))) ->
    fanout_db w'
    = DB.put (fanout_db w) (Shift.id shift)
        (ShiftFanoutState.set_claimed_caregiver_id
           (current_state (Shift.id shift) env w)
           (Some (Caregiver.id caregiver))) ->
    inbound_effect msg env w w'.

(** ** The fixture of tests/test_fanout.py *)

Module Fixture.

Definition c1 := Caregiver.mk "c1" "Alice" "RN" "+15551111".
Definition c2 := Caregiver.mk "c2" "Bob" "LPN" "+15552222".
Definition c3 := Caregiver.mk "c3" "Carol" "RN" "+15553333".
Definition s1 := Shift.mk "s1" "org1" "RN" 0 (timedelta_minutes 480) None.

(** the [clean_db] fixture *)
Definition clean_db : World := load_sample_data [c1; c2; c3] [s1] empty_world.

(** A classifier standing for the mocked one, on the bodies the tests
    send. *)
Definition classify (body : string) : ShiftRequestMessageIntent :=
  if String.eqb body "No thank you" then DECLINE
  else if String.eqb body "Yes I can do it" then ACCEPT
  else if String.eqb body "Yes" then ACCEPT
  else if String.eqb body "Accept please" then ACCEPT
  else UNKNOWN.

(** a frozen clock at [now] and mocks that never raise *)
Definition at_time (now : datetime) : Env :=
  mkEnv now now (fun _ _ => true) (fun _ _ => true) classify.

(** a frozen clock at [now], and every send to [phone] raises *)
Definition unreachable (phone : string) (now : datetime) : Env :=
  mkEnv now now
    (fun p _ => negb (String.eqb p phone))
    (fun p _ => negb (String.eqb p phone)) classify.

(** 2025-01-01 12:00:00 UTC *)
Definition t0 : datetime := 1735732800 * 1000000.

Definition yes (phone : string) : InboundMessage.t :=
  InboundMessage.mk phone "s1" "Yes".

End Fixture.

(** ** What the properties of the handlers speak about *)

Definition is_notification (e : Event) : bool :=
  match e with
  | SendSms _ _ | PlacePhoneCall _ _ => true
  | _ => false
  end.

Definition is_parse (e : Event) : bool :=
  match e with
  | ParseIntent _ => true
  | _ => false
  end.

(** The claimant the fanout store has for the shift stored under [key]. *)
Definition fanout_claim (w : World) (key : string) : option string :=
  match DB.get (fanout_db w) key with
  | Some state => ShiftFanoutState.claimed_caregiver_id state
  | None => None
  end.

(** The claim pointer of every shift is the one of its fanout state. *)
Definition pointers_agree (w : World) : Prop :=
  forall key shift,
    DB.get (shift_db w) key = Some shift ->
    Shift.claimed_by_caregiver_id shift = fanout_claim w key.

(** Every fanout state is stored under the shift id it carries, and neither
    of its notified lists has an id twice. *)
Definition fanout_store_ok (w : World) : Prop :=
  forall key state,
    DB.get (fanout_db w) key = Some state ->
    ShiftFanoutState.shift_id state = key
    /\ NoDup (ShiftFanoutState.sms_notified_caregiver_ids state)
    /\ NoDup (ShiftFanoutState.call_notified_caregiver_ids state).

(** No two caregivers of the pool share a phone. *)
Definition distinct_phones (w : World) : Prop :=
  NoDup (map Caregiver.phone (DB.all (caregiver_db w))).

(** What one trigger on [shift], whose fanout state is [state] when the
    rounds start, may add to the trace: an SMS or a call to an eligible
    caregiver of the pool who was not yet marked in the list of that channel,
    with the text of the shift, or a put on the fanout store under [key]. *)
Definition dispatched_by (key : string) (shift : Shift.t)
    (pool : list Caregiver.t) (state : ShiftFanoutState.t) (e : Event)
    : Prop :=
  match e with
  | SendSms phone message =>
      exists c,
        In c (eligible shift pool)
        /\ ~ In (Caregiver.id c)
                (ShiftFanoutState.sms_notified_caregiver_ids state)
        /\ phone = Caregiver.phone c
        /\ message = sms_message shift
  | PlacePhoneCall phone message =>
      exists c,
        In c (eligible shift pool)
        /\ ~ In (Caregiver.id c)
                (ShiftFanoutState.call_notified_caregiver_ids state)
        /\ phone = Caregiver.phone c
        /\ message = call_message shift
  | ParseIntent _ => False
  | Put db k => db = FanoutDb /\ k = key
  end.

(** A notification of the trace is accounted for: it went to a caregiver of
    the pool who is marked, in the list of its channel, on the fanout state
    of the shift whose text it carries. *)
Definition accounted (w : World) (e : Event) : Prop :=
  match e with
  | SendSms phone message =>
      exists key shift state c,
        DB.get (shift_db w) key = Some shift
        /\ DB.get (fanout_db w) key = Some state
        /\ In c (DB.all (caregiver_db w))
        /\ phone = Caregiver.phone c
        /\ message = sms_message shift
        /\ In (Caregiver.id c)
              (ShiftFanoutState.sms_notified_caregiver_ids state)
  | PlacePhoneCall phone message =>
      exists key shift state c,
        DB.get (shift_db w) key = Some shift
        /\ DB.get (fanout_db w) key = Some state
        /\ In c (DB.all (caregiver_db w))
        /\ phone = Caregiver.phone c
        /\ message = call_message shift
        /\ In (Caregiver.id c)
              (ShiftFanoutState.call_notified_caregiver_ids state)
  | _ => True
  end.

(** Every notification of the trace is accounted for, and none is there
    twice. *)
Definition notified_once (w : World) : Prop :=
  Forall (accounted w) (trace w)
  /\ NoDup (filter is_notification (trace w)).

(** The shift a request is about. *)
Definition addressed_to (s : Step) : option string :=
  match s with
  | Fanout shift_id _ => Some shift_id
  | Inbound msg _ => Some (InboundMessage.shift_id msg)
  | AddCaregiver _ => None
  end.

(** ** Triggers in flight

    [trigger_fanout] suspends at its two [await asyncio.gather] (lines 112
    and 128), and other handlers run meanwhile.  When it goes on, its local
    [state] is the object the store holds under [shift_id], as it is by
    then: the handler does not look at the claimant again.  [shift] and
    [eligible_caregivers] are what lines 80 and 97 bound them to.  The sends
    of a round are handed to the notifier when the handler suspends on the
    [gather]; whether one of them raised shows when it is resumed. *)

Inductive FanoutTask :=
| Triggered (shift_id : string) (env : Env)
| AwaitingSms (shift_id : string) (env : Env) (shift : Shift.t)
    (eligible_caregivers : list Caregiver.t) (state : ShiftFanoutState.t)
    (sms_tasks : list (string * string))
| AwaitingCalls (shift_id : string) (env : Env) (state : ShiftFanoutState.t)
    (call_tasks : list (string * string))
| Responded (r : Result ShiftFanoutState.t).

(** The object a suspended trigger holds in [state], as it is now. *)
Definition state_object (shift_id : string) (state : ShiftFanoutState.t)
    (w : World) : ShiftFanoutState.t :=
  match DB.get (fanout_db w) shift_id with
  | Some current => current
  | None => state
  end.

(** Lines 115-132, up to the [await] of line 128. *)
Definition escalation_check (shift_id : string) (env : Env) (shift : Shift.t)
    (eligible_caregivers : list Caregiver.t) (state : ShiftFanoutState.t)
    (w : World) : World * FanoutTask :=
  let now := now_at_escalation_check env in
  if (now - ShiftFanoutState.started_at state >=? timedelta_minutes 10)
     && negb (ShiftFanoutState.escalated_to_call state)
  then
    let state := ShiftFanoutState.set_escalated_to_call state true in
    let '(call_ids, call_tasks) :=
      notify_round (call_message shift)
        eligible_caregivers
        (ShiftFanoutState.call_notified_caregiver_ids state) in
    let state :=
      ShiftFanoutState.set_call_notified_caregiver_ids state call_ids in
    let w := fanout_write shift_id state w in
    if is_empty call_tasks
    then (record [Put FanoutDb shift_id] w, Responded (Return state))
    else (record (map (fun t => PlacePhoneCall (fst t) (snd t)) call_tasks) w,
          AwaitingCalls shift_id env state call_tasks)
  else (w, Responded (Return state)).

(** Lines 79-112, up to the [await] of line 112; when no SMS is due the
    handler goes on to the escalation check without suspending. *)
Definition trigger_fanout_before_await (shift_id : string) (env : Env)
    (w : World) : World * FanoutTask :=
  match DB.get (shift_db w) shift_id with
  | None => (w, Responded (HTTPException 404 "Shift not found"))
  | Some shift =>
    let '(w, state) :=
      match DB.get (fanout_db w) shift_id with
      | Some state => (w, state)
      | None =>
          let state :=
            ShiftFanoutState.create shift_id (now_at_creation env) in
          (record [Put FanoutDb shift_id] (fanout_write shift_id state w),
           state)
      end in
    if truthy (ShiftFanoutState.claimed_caregiver_id state)
    then (w, Responded (Return state))
    else
      let eligible_caregivers := eligible shift (DB.all (caregiver_db w)) in
      let '(sms_ids, sms_tasks) :=
        notify_round (sms_message shift)
          eligible_caregivers
          (ShiftFanoutState.sms_notified_caregiver_ids state) in
      let state :=
        ShiftFanoutState.set_sms_notified_caregiver_ids state sms_ids in
      let w := fanout_write shift_id state w in
      if is_empty sms_tasks
      then escalation_check shift_id env shift eligible_caregivers state w
      else (record (map (fun t => SendSms (fst t) (snd t)) sms_tasks) w,
            AwaitingSms shift_id env shift eligible_caregivers state sms_tasks)
  end.

(** Lines 112-132: the SMS [gather] is over.  If a send raised, so does the
    handler; otherwise it puts the state and goes on to the escalation
    check. *)
Definition trigger_fanout_after_sms (shift_id : string) (env : Env)
    (shift : Shift.t) (eligible_caregivers : list Caregiver.t)
    (state : ShiftFanoutState.t) (sms_tasks : list (string * string))
    (w : World) : World * FanoutTask :=
  if forallb (fun t => send_sms env (fst t) (snd t)) sms_tasks
  then
    let state := state_object shift_id state w in
    escalation_check shift_id env shift eligible_caregivers state
      (record [Put FanoutDb shift_id] (fanout_write shift_id state w))
  else (w, Responded NotifierError).

(** Lines 128-132: the [gather] of the calls is over. *)
Definition trigger_fanout_after_calls (shift_id : string) (env : Env)
    (state : ShiftFanoutState.t) (call_tasks : list (string * string))
    (w : World) : World * FanoutTask :=
  if forallb (fun t => place_phone_call env (fst t) (snd t)) call_tasks
  then
    let state := state_object shift_id state w in
    (record [Put FanoutDb shift_id] (fanout_write shift_id state w),
     Responded (Return state))
  else (w, Responded NotifierError).

(** The event loop runs a trigger up to its next suspension. *)
Definition resume_trigger (t : FanoutTask) (w : World) : World * FanoutTask :=
  match t with
  | Triggered shift_id env => trigger_fanout_before_await shift_id env w
  | AwaitingSms shift_id env shift eligible_caregivers state sms_tasks =>
      trigger_fanout_after_sms shift_id env shift eligible_caregivers state
        sms_tasks w
  | AwaitingCalls shift_id env state call_tasks =>
      trigger_fanout_after_calls shift_id env state call_tasks w
  | Responded r => (w, Responded r)
  end.

(** The requests the server is handling: inbound messages and triggers. *)
Inductive Job :=
| InboundJob (t : Task)
| FanoutJob (t : FanoutTask).

Definition resume_job (j : Job) (w : World) : World * Job :=
  match j with
  | InboundJob t => let '(w', t') := resume t w in (w', InboundJob t')
  | FanoutJob t => let '(w', t') := resume_trigger t w in (w', FanoutJob t')
  end.

Fixpoint resume_job_nth (i : nat) (jobs : list Job) (w : World)
    : World * list Job :=
  match jobs, i with
  | [], _ => (w, [])
  | j :: rest, O => let '(w', j') := resume_job j w in (w', j' :: rest)
  | j :: rest, S n =>
      let '(w', rest') := resume_job_nth n rest w in (w', j :: rest')
  end.

(** An interleaving of the jobs: their numbers in the order in which the
    event loop resumes them. *)
Fixpoint scheduler (order : list nat) (jobs : list Job) (w : World)
    : World * list Job :=
  match order with
  | [] => (w, jobs)
  | i :: rest =>
      let '(w', jobs') := resume_job_nth i jobs w in scheduler rest jobs' w'
  end.

(** A trigger on the shift [key] that is suspended at its SMS [gather]: it
    is past the claim check of line 93. *)
Definition in_sms_round (key : string) (j : Job) : bool :=
  match j with
  | FanoutJob (AwaitingSms shift_id _ _ _ _ _) => String.eqb shift_id key
  | _ => false
  end.

(** * Properties *)

(** ** The tests of tests/test_fanout.py, replayed on the model *)

Example test_fanout_sms_flow :
  let '(w1, r1) := trigger_fanout "s1" (Fixture.at_time Fixture.t0) Fixture.clean_db in
  let '(w2, r2) := trigger_fanout "s1" (Fixture.at_time Fixture.t0) w1 in
  r1 = Return (ShiftFanoutState.mk "s1" Fixture.t0 ["c1"; "c3"] [] None false)
  /\ trace w1 = [Put FanoutDb "s1";
                 SendSms "+15551111" "New shift available! ID: s1";
                 SendSms "+15553333" "New shift available! ID: s1";
                 Put FanoutDb "s1"]
  /\ r2 = r1 /\ w2 = w1.
Proof. vm_compute. repeat split. Qed.

Example test_fanout_escalation :
  let w1 := step (Fanout "s1" (Fixture.at_time Fixture.t0)) Fixture.clean_db in
  let '(w2, r2) :=
    trigger_fanout "s1"
      (Fixture.at_time (Fixture.t0 + timedelta_minutes 9)) w1 in
  let '(w3, r3) :=
    trigger_fanout "s1"
      (Fixture.at_time (Fixture.t0 + timedelta_minutes 10)) w2 in
  r2 = Return (ShiftFanoutState.mk "s1" Fixture.t0 ["c1"; "c3"] [] None false)
  /\ w2 = w1
  /\ r3 = Return (ShiftFanoutState.mk "s1" Fixture.t0 ["c1"; "c3"]
                    ["c1"; "c3"] None true)
  /\ filter is_call (trace w3)
     = [PlacePhoneCall "+15551111" "Urgent: Shift available! ID: s1";
        PlacePhoneCall "+15553333" "Urgent: Shift available! ID: s1"].
Proof. vm_compute. repeat split. Qed.

Example test_race_condition_second_accept_fails :
  let w1 := step (Fanout "s1" (Fixture.at_time Fixture.t0)) Fixture.clean_db in
  let '(w2, r2) :=
    receive_message (Fixture.yes "+15551111") (Fixture.at_time Fixture.t0) w1 in
  let '(w3, r3) :=
    receive_message (InboundMessage.mk "+15553333" "s1" "Accept please")
      (Fixture.at_time Fixture.t0) w2 in
  r2 = Return (ShiftClaimResponse.mk true "Shift successfully claimed!" "s1"
                 (Some "c1"))
  /\ r3 = Return (ShiftClaimResponse.mk false "Shift already claimed" "s1"
                    (Some "c1"))
  /\ option_map Shift.claimed_by_caregiver_id (DB.get (shift_db w3) "s1")
     = Some (Some "c1")
  /\ option_map ShiftFanoutState.claimed_caregiver_id
       (DB.get (fanout_db w3) "s1") = Some (Some "c1").
Proof. vm_compute. repeat split. Qed.

Example test_inbound_decline :
  let '(w1, r1) :=
    receive_message (InboundMessage.mk "+15551111" "s1" "No thank you")
      (Fixture.at_time Fixture.t0) Fixture.clean_db in
  r1 = Return (ShiftClaimResponse.mk false "Shift declined" "s1" None)
  /\ option_map Shift.claimed_by_caregiver_id (DB.get (shift_db w1) "s1")
     = Some None.
Proof. vm_compute. repeat split. Qed.

Example test_inbound_unknown_number :
  snd (receive_message (Fixture.yes "+19999999") (Fixture.at_time Fixture.t0)
         Fixture.clean_db)
  = HTTPException 404 "Caregiver not found".
Proof. reflexivity. Qed.

Example test_inbound_ineligible_role :
  receive_message (Fixture.yes "+15552222") (Fixture.at_time Fixture.t0)
    Fixture.clean_db
  = (Fixture.clean_db,
     Return (ShiftClaimResponse.mk false "Not eligible for this shift role"
               "s1" None)).
Proof. reflexivity. Qed.

(** ** The store *)

Section StoreFacts.
Context {V : Type}.
Implicit Types (db : DB.t V) (k : string) (v : V).

Lemma get_put_same db k v : DB.get (DB.put db k v) k = Some v.
Proof.
  induction db as [|[k0 v0] db IH]; simpl.
  - now rewrite String.eqb_refl.
  - destruct (String.eqb k0 k) eqn:E; simpl.
    + now rewrite String.eqb_refl.
    + now rewrite E.
Qed.

Lemma get_put_other db k k' v :
  k <> k' -> DB.get (DB.put db k v) k' = DB.get db k'.
Proof.
  intros Hne. induction db as [|[k0 v0] db IH]; simpl.
  - destruct (String.eqb_spec k k'); congruence.
  - destruct (String.eqb_spec k0 k) as [->|Hk]; simpl.
    + destruct (String.eqb_spec k k'); congruence.
    + destruct (String.eqb_spec k0 k'); congruence.
Qed.

Lemma put_unchanged db k v : DB.get db k = Some v -> DB.put db k v = db.
Proof.
  induction db as [|[k0 v0] db IH]; simpl; [discriminate|].
  destruct (String.eqb_spec k0 k) as [->|Hk]; intros H.
  - congruence.
  - now rewrite IH.
Qed.

Lemma put_put db k v v' : DB.put (DB.put db k v) k v' = DB.put db k v'.
Proof.
  induction db as [|[k0 v0] db IH]; simpl.
  - now rewrite String.eqb_refl.
  - destruct (String.eqb k0 k) eqn:E; simpl.
    + now rewrite String.eqb_refl.
    + now rewrite E, IH.
Qed.

End StoreFacts.

(** ** The notification loop *)

Lemma mem_In x l : mem x l = true <-> In x l.
Proof.
  unfold mem. rewrite existsb_exists. split.
  - intros (y & Hy & E). apply String.eqb_eq in E. now subst.
  - intros H. exists x. split; [assumption|apply String.eqb_refl].
Qed.

Lemma mem_false x l : mem x l = false <-> ~ In x l.
Proof.
  rewrite <- mem_In. destruct (mem x l); split; intros; congruence.
Qed.

(** The loop only appends: what was notified stays, in its place. *)
Lemma notify_round_extends message cs :
  forall notified,
    exists added,
      fst (notify_round message cs notified) = notified ++ added.
Proof.
  induction cs as [|c cs IH]; intros notified; simpl.
  - exists []. now rewrite app_nil_r.
  - destruct (mem (Caregiver.id c) notified).
    + apply IH.
    + destruct (IH (notified ++ [Caregiver.id c])) as [added E].
      destruct (notify_round message cs (notified ++ [Caregiver.id c])).
      simpl in *. exists (Caregiver.id c :: added).
      now rewrite E, <- app_assoc.
Qed.

Lemma notify_round_keeps message cs notified x :
  In x notified -> In x (fst (notify_round message cs notified)).
Proof.
  intros H. destruct (notify_round_extends message cs notified) as [a ->].
  apply in_or_app. now left.
Qed.

(** Every caregiver of the round is marked when the loop is left. *)
Lemma notify_round_marks message cs :
  forall notified c,
    In c cs -> In (Caregiver.id c) (fst (notify_round message cs notified)).
Proof.
  induction cs as [|c0 cs IH]; intros notified c; simpl; [tauto|].
  intros [->|Hin].
  - destruct (mem (Caregiver.id c) notified) eqn:E.
    + apply notify_round_keeps. now apply mem_In.
    + pose proof (notify_round_keeps message cs
                    (notified ++ [Caregiver.id c]) (Caregiver.id c)) as K.
      destruct (notify_round message cs (notified ++ [Caregiver.id c])).
      simpl in *. apply K. apply in_or_app. right. now left.
  - destruct (mem (Caregiver.id c0) notified).
    + now apply IH.
    + pose proof (IH (notified ++ [Caregiver.id c0]) c Hin) as K.
      destruct (notify_round message cs (notified ++ [Caregiver.id c0])).
      exact K.
Qed.

(** Whoever is marked after the loop was marked before or is in the round. *)
Lemma notify_round_origin message cs :
  forall notified x,
    In x (fst (notify_round message cs notified)) ->
    In x notified \/ exists c, In c cs /\ Caregiver.id c = x.
Proof.
  induction cs as [|c0 cs IH]; intros notified x; simpl; [tauto|].
  destruct (mem (Caregiver.id c0) notified).
  - intros H. destruct (IH _ _ H) as [?|(c & ? & ?)]; eauto.
  - pose proof (IH (notified ++ [Caregiver.id c0]) x) as K.
    destruct (notify_round message cs (notified ++ [Caregiver.id c0])).
    simpl in *. intros H. destruct (K H) as [Hx|(c & ? & ?)]; eauto.
    apply in_app_or in Hx. destruct Hx as [?|[<-|[]]]; eauto.
Qed.

(** A task is issued for exactly the caregivers the loop marks: none when
    all of them are already marked. *)
Lemma notify_round_all_marked message cs :
  forall notified,
    (forall c, In c cs -> In (Caregiver.id c) notified) ->
    notify_round message cs notified = (notified, []).
Proof.
  induction cs as [|c0 cs IH]; intros notified H; simpl; [reflexivity|].
  assert (E : mem (Caregiver.id c0) notified = true)
    by (apply mem_In, H; now left).
  rewrite E. apply IH. intros c Hc. apply H. now right.
Qed.

Lemma notify_round_idempotent message cs notified :
  notify_round message cs (fst (notify_round message cs notified))
  = (fst (notify_round message cs notified), []).
Proof.
  apply notify_round_all_marked. intros c Hc. now apply notify_round_marks.
Qed.

(** With distinct ids, every caregiver of the round that was not marked
    gets its own task. *)
Lemma notify_round_tasks message cs :
  forall notified c,
    NoDup (map Caregiver.id cs) ->
    In c cs -> ~ In (Caregiver.id c) notified ->
    In (Caregiver.phone c, message) (snd (notify_round message cs notified)).
Proof.
  induction cs as [|c0 cs IH]; intros notified c ND; simpl; [tauto|].
  inversion ND as [|? ? Hnotin ND']; subst.
  intros [->|Hin] Hn.
  - apply mem_false in Hn. rewrite Hn.
    destruct (notify_round message cs (notified ++ [Caregiver.id c])).
    now left.
  - destruct (mem (Caregiver.id c0) notified).
    + now apply IH.
    + assert (Hn' : ~ In (Caregiver.id c) (notified ++ [Caregiver.id c0])).
      { intros H. apply in_app_or in H. destruct H as [?|[E|[]]]; [tauto|].
        apply Hnotin. rewrite E. now apply in_map. }
      pose proof (IH (notified ++ [Caregiver.id c0]) c ND' Hin Hn') as K.
      destruct (notify_round message cs (notified ++ [Caregiver.id c0])).
      now right.
Qed.

(** Tasks only go to caregivers of the round. *)
Lemma notify_round_tasks_origin message cs :
  forall notified t,
    In t (snd (notify_round message cs notified)) ->
    exists c, In c cs /\ ~ In (Caregiver.id c) notified
              /\ t = (Caregiver.phone c, message).
Proof.
  induction cs as [|c0 cs IH]; intros notified t; simpl; [tauto|].
  destruct (mem (Caregiver.id c0) notified) eqn:E.
  - intros H. destruct (IH _ _ H) as (c & ? & ? & ?). eauto.
  - pose proof (IH (notified ++ [Caregiver.id c0]) t) as K.
    destruct (notify_round message cs (notified ++ [Caregiver.id c0])).
    simpl in *. intros [<-|H].
    + exists c0. apply mem_false in E. auto.
    + destruct (K H) as (c & ? & Hn & ?). exists c. repeat split; auto.
      intros Hc. apply Hn. apply in_or_app. now left.
Qed.

Lemma eligible_In shift pool c :
  In c (eligible shift pool) <->
  In c pool /\ Caregiver.role c = Shift.role_required shift.
Proof.
  unfold eligible. rewrite filter_In, String.eqb_eq. tauto.
Qed.

(** ** What [trigger_fanout] computes *)

Ltac run_handler :=
  unfold resolve_intent, bind, read, ret, raise, update, fanout_put, shift_put,
    gather;
  cbn [fst snd].

Lemma trigger_fanout_not_found shift_id env w :
  DB.get (shift_db w) shift_id = None ->
  trigger_fanout shift_id env w = (w, HTTPException 404 "Shift not found").
Proof.
  intros H. unfold trigger_fanout. run_handler. now rewrite H.
Qed.

Lemma is_empty_nil {A} (l : list A) : is_empty l = true -> l = [].
Proof. destruct l; [reflexivity|discriminate]. Qed.

Arguments sms_message : simpl never.
Arguments call_message : simpl never.
Arguments timedelta_minutes : simpl never.
Arguments eligible : simpl never.
Arguments InMemoryKeyValueDatabase.all : simpl never.

Ltac split_handler :=
  repeat
    (cbn;
     match goal with
     | |- context [notify_round ?m ?cs ?n] =>
         let ids := fresh "ids" in
         let tasks := fresh "tasks" in
         destruct (notify_round m cs n) as [ids tasks]
     | |- context [is_empty ?l] =>
         let E := fresh "E" in
         destruct (is_empty l) eqn:E;
         [apply is_empty_nil in E; subst l|]
     | |- context [forallb ?f ?l] => destruct (forallb f l)
     | |- context [(?a >=? ?b) && ?c] => destruct ((a >=? b) && c)
     end).

Ltac same_world :=
  unfold record, fanout_write, shift_write; cbn;
  rewrite ?put_put, ?app_nil_r, <- ?app_assoc; cbn;
  try reflexivity.

Lemma trigger_fanout_denotation shift_id env w shift :
  DB.get (shift_db w) shift_id = Some shift ->
  let pool := DB.all (caregiver_db w) in
  let state := current_state shift_id env w in
  trigger_fanout shift_id env w
  = (mkWorld (caregiver_db w) (shift_db w)
       (if is_created shift_id w
           || negb (truthy (ShiftFanoutState.claimed_caregiver_id state))
        then DB.put (fanout_db w) shift_id (advance shift pool env state)
        else fanout_db w)
       (trace w
        ++ fanout_events shift_id shift pool env (is_created shift_id w) state),
     fanout_result shift pool env state).
Proof.
  intros Hs pool state. subst pool state.
  unfold trigger_fanout, current_state, is_created, fanout_events,
    fanout_result, advance, escalation_due, sms_round, call_round,
    all_complete, round_events.
  run_handler. rewrite Hs.
  destruct (DB.get (fanout_db w) shift_id) as [st|] eqn:Hf; cbn.
  - destruct (truthy (ShiftFanoutState.claimed_caregiver_id st)); cbn.
    + destruct w; cbn. now rewrite app_nil_r.
    + split_handler; same_world.
  - unfold record, fanout_write. split_handler; same_world.
Qed.


(** ** What [receive_message] computes *)

Section ReceiveMessage.
Variables (msg : InboundMessage.t) (env : Env) (w : World).

Lemma receive_message_unknown_caregiver :
  sender w msg = None ->
  receive_message msg env w = (w, HTTPException 404 "Caregiver not found").
Proof.
  unfold sender, receive_message. run_handler. now intros ->.
Qed.

Variable caregiver : Caregiver.t.
Hypothesis known : sender w msg = Some caregiver.

Lemma receive_message_shift_not_found :
  DB.get (shift_db w) (InboundMessage.shift_id msg) = None ->
  receive_message msg env w = (w, HTTPException 404 "Shift not found").
Proof.
  unfold sender in known. unfold receive_message. run_handler.
  rewrite known. now intros ->.
Qed.

Variable shift : Shift.t.
Hypothesis found :
  DB.get (shift_db w) (InboundMessage.shift_id msg) = Some shift.

Lemma receive_message_ineligible :
  Shift.role_required shift <> Caregiver.role caregiver ->
  receive_message msg env w
  = (w, Return (ShiftClaimResponse.mk false "Not eligible for this shift role"
                  (Shift.id shift) (Shift.claimed_by_caregiver_id shift))).
Proof.
  intros Hne. unfold sender in known. unfold receive_message. run_handler.
  rewrite known, found.
  destruct (String.eqb_spec (Shift.role_required shift)
              (Caregiver.role caregiver)); [contradiction|reflexivity].
Qed.

Hypothesis is_eligible :
  Shift.role_required shift = Caregiver.role caregiver.

Lemma receive_message_decline :
  parse_shift_request_message_intent env (InboundMessage.body msg) = DECLINE ->
  receive_message msg env w
  = (record [ParseIntent (InboundMessage.body msg)] w,
     Return (ShiftClaimResponse.mk false "Shift declined"
               (Shift.id shift) (Shift.claimed_by_caregiver_id shift))).
Proof.
  intros Hi. unfold sender in known. unfold receive_message. run_handler.
  rewrite known, found, is_eligible, String.eqb_refl, Hi. reflexivity.
Qed.

Lemma receive_message_unknown :
  parse_shift_request_message_intent env (InboundMessage.body msg) = UNKNOWN ->
  receive_message msg env w
  = (record [ParseIntent (InboundMessage.body msg)] w,
     Return (ShiftClaimResponse.mk false "Intent unknown"
               (Shift.id shift) (Shift.claimed_by_caregiver_id shift))).
Proof.
  intros Hi. unfold sender in known. unfold receive_message. run_handler.
  rewrite known, found, is_eligible, String.eqb_refl, Hi. reflexivity.
Qed.

Hypothesis accepts :
  parse_shift_request_message_intent env (InboundMessage.body msg) = ACCEPT.

Lemma receive_message_already_claimed state claimant :
  DB.get (fanout_db w) (Shift.id shift) = Some state ->
  ShiftFanoutState.claimed_caregiver_id state = Some claimant ->
  receive_message msg env w
  = (record [ParseIntent (InboundMessage.body msg)] w,
     Return (ShiftClaimResponse.mk false "Shift already claimed"
               (Shift.id shift) (Some claimant))).
Proof.
  intros Hf Hc. unfold sender in known. unfold receive_message. run_handler.
  rewrite known, found, is_eligible, String.eqb_refl, accepts. cbn.
  rewrite Hf. cbn. rewrite Hc. reflexivity.
Qed.

Lemma receive_message_wins :
  ShiftFanoutState.claimed_caregiver_id
    (current_state (Shift.id shift) env w) = None ->
  receive_message msg env w
  = (mkWorld (caregiver_db w)
       (DB.put
          (DB.put (shift_db w) (InboundMessage.shift_id msg)
             (Shift.set_claimed_by_caregiver_id shift
                (Some (Caregiver.id caregiver))))
          (Shift.id shift)
          (Shift.set_claimed_by_caregiver_id shift
             (Some (Caregiver.id caregiver))))
       (DB.put (fanout_db w) (Shift.id shift)
          (ShiftFanoutState.set_claimed_caregiver_id
             (current_state (Shift.id shift) env w)
             (Some (Caregiver.id caregiver))))
       (trace w
        ++ [ParseIntent (InboundMessage.body msg)]
        ++ (if is_created (Shift.id shift) w
            then [Put FanoutDb (Shift.id shift)] else [])
        ++ [Put FanoutDb (Shift.id shift); Put ShiftDb (Shift.id shift)]),
     Return (ShiftClaimResponse.mk true "Shift successfully claimed!"
               (Shift.id shift) (Some (Caregiver.id caregiver)))).
Proof.
  unfold current_state, is_created. intros Hc.
  unfold sender in known. unfold receive_message. run_handler.
  rewrite known, found, is_eligible, String.eqb_refl, accepts. cbn.
  destruct (DB.get (fanout_db w) (Shift.id shift)) as [st|]; cbn;
    cbn in Hc; rewrite ?Hc; same_world.
Qed.
End ReceiveMessage.

(** ** One trigger on the fanout state *)

Lemma evolves_refl state : evolves state state.
Proof.
  constructor; auto; exists []; now rewrite app_nil_r.
Qed.

Lemma evolves_trans s1 s2 s3 : evolves s1 s2 -> evolves s2 s3 -> evolves s1 s3.
Proof.
  intros [A1 B1 [a1 C1] [b1 D1] E1 F1] [A2 B2 [a2 C2] [b2 D2] E2 F2].
  constructor.
  - congruence.
  - congruence.
  - exists (a1 ++ a2). now rewrite C2, C1, app_assoc.
  - exists (b1 ++ b2). now rewrite D2, D1, app_assoc.
  - auto.
  - intros H. destruct (F1 H) as [H1 H1']. destruct (F2 H1) as [H2 H2'].
    split; congruence.
Qed.

Lemma advance_claimed shift pool env state :
  ShiftFanoutState.claimed_caregiver_id (advance shift pool env state)
  = ShiftFanoutState.claimed_caregiver_id state.
Proof.
  unfold advance, escalation_due.
  repeat match goal with |- context [if ?b then _ else _] => destruct b end;
    reflexivity.
Qed.

Lemma advance_evolves shift pool env state :
  evolves state (advance shift pool env state).
Proof.
  unfold advance, escalation_due, sms_round, call_round.
  destruct (truthy _); [apply evolves_refl|].
  destruct (notify_round_extends (sms_message shift) (eligible shift pool)
              (ShiftFanoutState.sms_notified_caregiver_ids state)) as [a Ha].
  destruct (notify_round_extends (call_message shift) (eligible shift pool)
              (ShiftFanoutState.call_notified_caregiver_ids state)) as [b Hb].
  destruct (all_complete _ _); cbn;
    [destruct (ShiftFanoutState.escalated_to_call state) eqn:Esc;
     rewrite ?andb_false_r, ?andb_true_r;
     [|destruct (_ >=? _)]|];
    constructor; cbn; try rewrite Esc; eauto;
    try (exists []; now rewrite app_nil_r); try discriminate.
Qed.

Lemma set_claimed_evolves state c :
  ShiftFanoutState.claimed_caregiver_id state = None ->
  evolves state (ShiftFanoutState.set_claimed_caregiver_id state (Some c)).
Proof.
  intros H. constructor; cbn; auto; try (exists []; now rewrite app_nil_r).
  intros c'. congruence.
Qed.

(** ** The effect of a request on the stores *)

Lemma trigger_fanout_stores shift_id env w :
  let w' := fst (trigger_fanout shift_id env w) in
  caregiver_db w' = caregiver_db w /\ shift_db w' = shift_db w.
Proof.
  destruct (DB.get (shift_db w) shift_id) as [shift|] eqn:Hs.
  - rewrite (trigger_fanout_denotation _ _ _ _ Hs). cbn. auto.
  - rewrite trigger_fanout_not_found by assumption. cbn. auto.
Qed.

Lemma trigger_fanout_state shift_id env w shift :
  DB.get (shift_db w) shift_id = Some shift ->
  DB.get (fanout_db (fst (trigger_fanout shift_id env w))) shift_id
  = Some (advance shift (DB.all (caregiver_db w)) env
            (current_state shift_id env w)).
Proof.
  intros Hs. rewrite (trigger_fanout_denotation _ _ _ _ Hs). cbn.
  unfold is_created, current_state.
  destruct (DB.get (fanout_db w) shift_id) as [st|] eqn:Hf; cbn.
  - destruct (truthy (ShiftFanoutState.claimed_caregiver_id st)) eqn:T; cbn.
    + unfold advance. now rewrite T.
    + apply get_put_same.
  - apply get_put_same.
Qed.

Lemma trigger_fanout_other_states shift_id env w key :
  key <> shift_id ->
  DB.get (fanout_db (fst (trigger_fanout shift_id env w))) key
  = DB.get (fanout_db w) key.
Proof.
  intros Hne.
  destruct (DB.get (shift_db w) shift_id) as [shift|] eqn:Hs.
  - rewrite (trigger_fanout_denotation _ _ _ _ Hs). cbn.
    destruct (_ || _); [|reflexivity].
    apply get_put_other. congruence.
  - now rewrite trigger_fanout_not_found.
Qed.

Lemma receive_message_effect msg env w :
  inbound_effect msg env w (fst (receive_message msg env w)).
Proof.
  assert (inert : forall w' r,
             receive_message msg env w = (w', r) ->
             caregiver_db w' = caregiver_db w ->
             shift_db w' = shift_db w ->
             fanout_db w' = fanout_db w ->
             (forall r', r = Return r' -> ShiftClaimResponse.success r' = false) ->
             inbound_effect msg env w (fst (receive_message msg env w))).
  { intros w' r E ? ? ? ?. constructor 1; rewrite E; cbn; auto. }
  destruct (sender w msg) as [cg|] eqn:Hc.
  2:{ eapply inert;
        [apply receive_message_unknown_caregiver; assumption|auto..].
      discriminate. }
  destruct (DB.get (shift_db w) (InboundMessage.shift_id msg)) as [sh|] eqn:Hs.
  2:{ eapply inert;
        [apply (receive_message_shift_not_found _ _ _ _ Hc Hs)|auto..].
      discriminate. }
  destruct (String.eqb_spec (Shift.role_required sh) (Caregiver.role cg))
    as [He|He].
  2:{ eapply inert;
        [apply (receive_message_ineligible _ _ _ _ Hc _ Hs He)|auto..].
      now intros r [= <-]. }
  destruct (parse_shift_request_message_intent env (InboundMessage.body msg))
    eqn:Hi.
  - destruct (ShiftFanoutState.claimed_caregiver_id
                (current_state (Shift.id sh) env w)) as [c|] eqn:Hcl.
    + unfold current_state in Hcl.
      destruct (DB.get (fanout_db w) (Shift.id sh)) as [st|] eqn:Hf;
        [|discriminate].
      eapply inert;
        [apply (receive_message_already_claimed _ _ _ _ Hc _ Hs He Hi _ _ Hf Hcl)
        |auto..].
      now intros r [= <-].
    + rewrite (receive_message_wins _ _ _ _ Hc _ Hs He Hi Hcl).
      econstructor 2; eauto.
  - eapply inert;
      [apply (receive_message_decline _ _ _ _ Hc _ Hs He Hi)|auto..].
    now intros r [= <-].
  - eapply inert;
      [apply (receive_message_unknown _ _ _ _ Hc _ Hs He Hi)|auto..].
    now intros r [= <-].
Qed.

(** ** Well-formed stores are kept *)

Lemma shifts_keyed_by_id_put w key shift :
  shifts_keyed_by_id w -> Shift.id shift = key ->
  forall k s, DB.get (DB.put (shift_db w) key shift) k = Some s ->
              Shift.id s = k.
Proof.
  intros Hw Hid k s. destruct (String.eqb_spec key k) as [<-|Hne].
  - rewrite get_put_same. congruence.
  - rewrite get_put_other by assumption. apply Hw.
Qed.

Lemma load_sample_data_keyed caregivers shifts :
  shifts_keyed_by_id (load_sample_data caregivers shifts empty_world).
Proof.
  unfold load_sample_data.
  assert (H : shifts_keyed_by_id
                (fold_left (fun w c => caregiver_write (Caregiver.id c) c w)
                   caregivers empty_world)).
  { assert (G : forall w, shift_db w = [] ->
                  shift_db (fold_left
                    (fun w c => caregiver_write (Caregiver.id c) c w)
                    caregivers w) = []).
    { induction caregivers as [|c cs IH]; intros w Hw; cbn; auto. }
    intros k s. rewrite G by reflexivity. discriminate. }
  revert H.
  generalize (fold_left (fun w c => caregiver_write (Caregiver.id c) c w)
                caregivers empty_world).
  induction shifts as [|s ss IH]; intros w Hw; cbn; auto.
  apply IH. intros k s'. unfold shift_write; cbn.
  now apply shifts_keyed_by_id_put.
Qed.

Lemma step_shifts_keyed s w :
  shifts_keyed_by_id w -> shifts_keyed_by_id (step s w).
Proof.
  intros Hw. destruct s as [k env|msg env|c]; cbn [step].
  - intros key sh. destruct (trigger_fanout_stores k env w) as [_ ->].
    apply Hw.
  - destruct (receive_message_effect msg env w)
      as [_ E _ _|cg sh _ Hs _ _ _ E _]; intros key s; rewrite E.
    + apply Hw.
    + pose proof (Hw _ _ Hs) as Hid. rewrite Hid, put_put.
      apply shifts_keyed_by_id_put; [assumption|exact Hid].
  - exact Hw.
Qed.

Lemma run_shifts_keyed steps :
  forall w, shifts_keyed_by_id w -> shifts_keyed_by_id (run steps w).
Proof.
  induction steps as [|s steps IH]; intros w Hw; cbn; auto.
  apply IH, step_shifts_keyed, Hw.
Qed.

(** ** The fanout state of a shift along a run *)

Lemma step_fanout_evolves s w key state :
  DB.get (fanout_db w) key = Some state ->
  exists state',
    DB.get (fanout_db (step s w)) key = Some state' /\ evolves state state'.
Proof.
  intros Hf. destruct s as [k env|msg env|c]; cbn [step].
  - destruct (String.eqb_spec key k) as [->|Hne].
    + destruct (DB.get (shift_db w) k) as [sh|] eqn:Hs.
      * rewrite (trigger_fanout_state _ _ _ _ Hs). eexists. split; eauto.
        unfold current_state. rewrite Hf. apply advance_evolves.
      * rewrite trigger_fanout_not_found by assumption. cbn.
        eauto using evolves_refl.
    + rewrite trigger_fanout_other_states by assumption.
      eauto using evolves_refl.
  - destruct (receive_message_effect msg env w)
      as [_ _ E _|cg sh _ Hs _ Hcl _ _ E]; rewrite E.
    + eauto using evolves_refl.
    + destruct (String.eqb_spec (Shift.id sh) key) as [Hk|Hne].
      * rewrite Hk in *. rewrite get_put_same. eexists. split; eauto.
        unfold current_state in *. rewrite Hf in *.
        now apply set_claimed_evolves.
      * rewrite get_put_other by assumption. eauto using evolves_refl.
  - eauto using evolves_refl.
Qed.

Lemma run_fanout_evolves steps :
  forall w key state,
    DB.get (fanout_db w) key = Some state ->
    exists state',
      DB.get (fanout_db (run steps w)) key = Some state'
      /\ evolves state state'.
Proof.
  induction steps as [|s steps IH]; intros w key state Hf; cbn.
  - eauto using evolves_refl.
  - destruct (step_fanout_evolves s w key state Hf) as (st1 & H1 & E1).
    destruct (IH _ _ _ H1) as (st2 & H2 & E2).
    eauto using evolves_trans.
Qed.

(** ** The claim pointer along a run *)

Lemma step_claimed_by s w key c :
  shifts_keyed_by_id w -> claimed_by key c w -> claimed_by key c (step s w).
Proof.
  intros Hw (st & sh & Hf & Hc & Hs & Hsc).
  destruct (step_fanout_evolves s w key st Hf) as (st' & Hf' & Ev).
  exists st'. 
  assert (Hs' : exists sh', DB.get (shift_db (step s w)) key = Some sh'
                            /\ Shift.claimed_by_caregiver_id sh' = Some c).
  { destruct s as [k env|msg env|cg]; cbn [step].
    - destruct (trigger_fanout_stores k env w) as [_ ->]. eauto.
    - destruct (receive_message_effect msg env w)
        as [_ E _ _|cg sh0 _ Hs0 _ Hcl _ E _]; rewrite E; eauto.
      pose proof (Hw _ _ Hs0) as Hid. rewrite Hid in *. rewrite put_put.
      destruct (String.eqb_spec (InboundMessage.shift_id msg) key) as [Hk|Hne].
      + rewrite Hk in *. unfold current_state in Hcl. rewrite Hf in Hcl.
        congruence.
      + rewrite get_put_other by assumption. eauto.
    - eauto. }
  destruct Hs' as (sh' & Hs' & Hsc').
  exists sh'. repeat split; auto. now apply (claim_stays _ _ Ev).
Qed.

Lemma run_claimed_by steps :
  forall w key c,
    shifts_keyed_by_id w -> claimed_by key c w -> claimed_by key c (run steps w).
Proof.
  induction steps as [|s steps IH]; intros w key c Hw Hc; cbn; auto.
  apply IH; [now apply step_shifts_keyed|now apply step_claimed_by].
Qed.

(** C1.  With shifts stored under their ids: once the claim pointer of a
    shift names a caregiver, on the [Shift] and mirrored on its
    [ShiftFanoutState], no later operation (trigger,
    inbound message of any intent and sender, growth of the pool) changes or
    clears it; and an ACCEPT that arrives afterwards, from any eligible
    caregiver, the claimant included, is answered with the failure
    "Shift already claimed" naming that claimant, and leaves the stores as
    they are. *)
Theorem claim_pointer_never_changes :
  forall (w : World) (key c : string) (steps : list Step),
    shifts_keyed_by_id w ->
    claimed_by key c w ->
    let w' := run steps w in
    claimed_by key c w'
    /\ forall msg env caregiver shift,
         InboundMessage.shift_id msg = key ->
         sender w' msg = Some caregiver ->
         DB.get (shift_db w') key = Some shift ->
         Shift.role_required shift = Caregiver.role caregiver ->
         parse_shift_request_message_intent env (InboundMessage.body msg)
         = ACCEPT ->
         receive_message msg env w'
         = (record [ParseIntent (InboundMessage.body msg)] w',
            Return (ShiftClaimResponse.mk false "Shift already claimed"
                      key (Some c))).
Proof.
  intros w key c steps Hw Hc w'.
  assert (Hc' : claimed_by key c w') by now apply run_claimed_by.
  assert (Hw' : shifts_keyed_by_id w') by now apply run_shifts_keyed.
  split; [exact Hc'|].
  intros msg env cg sh Hk Hsender Hs Hrole Hi.
  destruct Hc' as (st & sh0 & Hf & Hcl & _ & _). subst key.
  pose proof (Hw' _ _ Hs) as Hid.
  rewrite <- Hid in Hf |- *.
  now apply (receive_message_already_claimed _ _ _ _ Hsender _ Hs Hrole Hi st).
Qed.

Lemma claim_pointer_never_changes_witness :
  let w :=
    run [Fanout "s1" (Fixture.at_time Fixture.t0);
         Inbound (Fixture.yes "+15551111") (Fixture.at_time Fixture.t0)]
      Fixture.clean_db in
  let w' :=
    run [Inbound (Fixture.yes "+15553333") (Fixture.at_time Fixture.t0);
         Fanout "s1" (Fixture.at_time (Fixture.t0 + timedelta_minutes 10));
         AddCaregiver (Caregiver.mk "c4" "Dan" "RN" "+15554444")] w in
  claimed_by "s1" "c1" w'
  /\ receive_message (Fixture.yes "+15551111") (Fixture.at_time Fixture.t0) w'
     = (record [ParseIntent "Yes"] w',
        Return (ShiftClaimResponse.mk false "Shift already claimed" "s1"
                  (Some "c1"))).
Proof.
  intros w w'.
  assert (Hw : shifts_keyed_by_id w)
    by apply run_shifts_keyed, load_sample_data_keyed.
  assert (Hc : claimed_by "s1" "c1" w)
    by (do 2 eexists; repeat split; reflexivity).
  destruct (claim_pointer_never_changes w "s1" "c1"
              [Inbound (Fixture.yes "+15553333") (Fixture.at_time Fixture.t0);
               Fanout "s1" (Fixture.at_time (Fixture.t0 + timedelta_minutes 10));
               AddCaregiver (Caregiver.mk "c4" "Dan" "RN" "+15554444")]
              Hw Hc) as [H1 H2].
  split; [exact H1|].
  apply (H2 (Fixture.yes "+15551111") (Fixture.at_time Fixture.t0) Fixture.c1
            (Shift.set_claimed_by_caregiver_id Fixture.s1 (Some "c1")));
    reflexivity.
Defined.

(** ** First writer wins *)

Lemma serve_after_claim attempts :
  forall w shift state c,
    DB.get (shift_db w) (Shift.id shift) = Some shift ->
    DB.get (fanout_db w) (Shift.id shift) = Some state ->
    ShiftFanoutState.claimed_caregiver_id state = Some c ->
    Forall (fun a => exists caregiver, accept_attempt w shift a caregiver)
           attempts ->
    serve attempts w
    = map (fun _ => Return (ShiftClaimResponse.mk false "Shift already claimed"
                              (Shift.id shift) (Some c))) attempts.
Proof.
  induction attempts as [|[msg env] rest IH]; intros w shift state c Hs Hf Hc Ha;
    cbn [serve map]; [reflexivity|].
  inversion Ha as [|? ? (cg & Hk & Hsender & Hrole & Hi) Hrest]; subst.
  cbn [fst snd] in *. rewrite <- Hk in Hs.
  rewrite (receive_message_already_claimed _ _ _ _ Hsender _ Hs Hrole Hi _ _ Hf Hc).
  cbn [fst snd]. f_equal.
  rewrite Hk in Hs. now apply (IH _ shift state c).
Qed.

(** Served one after the other, in any order: of any number of ACCEPT
    attempts from eligible caregivers on one unclaimed shift, the first is
    answered with success and every other one with the failure
    "Shift already claimed" naming the caregiver of the first. *)
Lemma first_writer_wins_in_sequence :
  forall (w : World) (shift : Shift.t) (first : InboundMessage.t * Env)
         (rest : list (InboundMessage.t * Env)) (winner : Caregiver.t),
    DB.get (shift_db w) (Shift.id shift) = Some shift ->
    unclaimed (Shift.id shift) w ->
    accept_attempt w shift first winner ->
    Forall (fun a => exists caregiver, accept_attempt w shift a caregiver) rest ->
    serve (first :: rest) w
    = Return (ShiftClaimResponse.mk true "Shift successfully claimed!"
                (Shift.id shift) (Some (Caregiver.id winner)))
      :: map (fun _ =>
                Return (ShiftClaimResponse.mk false "Shift already claimed"
                          (Shift.id shift) (Some (Caregiver.id winner)))) rest
    /\ length (filter is_success (serve (first :: rest) w)) = 1%nat.
Proof.
  intros w shift [msg env] rest winner Hs Hu (Hk & Hsender & Hrole & Hi) Hrest.
  cbn [fst snd] in *.
  assert (E : serve ((msg, env) :: rest) w
              = Return (ShiftClaimResponse.mk true "Shift successfully claimed!"
                          (Shift.id shift) (Some (Caregiver.id winner)))
                :: map (fun _ =>
                          Return (ShiftClaimResponse.mk false
                                    "Shift already claimed" (Shift.id shift)
                                    (Some (Caregiver.id winner)))) rest).
  { cbn [serve]. rewrite <- Hk in Hs.
    assert (Hcl : ShiftFanoutState.claimed_caregiver_id
                    (current_state (Shift.id shift) env w) = None).
    { unfold current_state, unclaimed in *.
      destruct (DB.get (fanout_db w) (Shift.id shift)); auto. }
    rewrite (receive_message_wins _ _ _ _ Hsender _ Hs Hrole Hi Hcl).
    cbn [fst snd]. f_equal.
    set (shift' := Shift.set_claimed_by_caregiver_id shift
                     (Some (Caregiver.id winner))).
    change (Shift.id shift) with (Shift.id shift').
    eapply serve_after_claim; cbn [shift_db fanout_db].
    - rewrite Hk, put_put. apply get_put_same.
    - apply get_put_same.
    - reflexivity.
    - eapply Forall_impl; [|exact Hrest].
      intros a (cg & H1 & H2 & H3 & H4). exists cg. repeat split; auto. }
  split; [exact E|].
  rewrite E. cbn [filter is_success ShiftClaimResponse.success length].
  f_equal. clear. induction rest as [|a rest IH]; cbn; auto.
Qed.

Example first_writer_wins_in_sequence_on_fixture :
  serve [(Fixture.yes "+15553333", Fixture.at_time Fixture.t0);
         (Fixture.yes "+15551111", Fixture.at_time Fixture.t0);
         (InboundMessage.mk "+15553333" "s1" "Accept please",
          Fixture.at_time Fixture.t0)]
    Fixture.clean_db
  = [Return (ShiftClaimResponse.mk true "Shift successfully claimed!" "s1"
               (Some "c3"));
     Return (ShiftClaimResponse.mk false "Shift already claimed" "s1"
               (Some "c3"));
     Return (ShiftClaimResponse.mk false "Shift already claimed" "s1"
               (Some "c3"))].
Proof.
  refine (proj1 (first_writer_wins_in_sequence Fixture.clean_db Fixture.s1
                   (Fixture.yes "+15553333", Fixture.at_time Fixture.t0)
                   [(Fixture.yes "+15551111", Fixture.at_time Fixture.t0);
                    (InboundMessage.mk "+15553333" "s1" "Accept please",
                     Fixture.at_time Fixture.t0)]
                   Fixture.c3 _ _ _ _)).
  - reflexivity.
  - exact I.
  - repeat split.
  - repeat constructor.
    + exists Fixture.c1. repeat split.
    + exists Fixture.c3. repeat split.
Qed.

(** ** A send that fails *)

Lemma eligible_distinct shift pool :
  NoDup (map Caregiver.id pool) ->
  NoDup (map Caregiver.id (eligible shift pool)).
Proof.
  unfold eligible. induction pool as [|c pool IH]; cbn; intros ND; auto.
  inversion ND as [|? ? Hn ND']; subst.
  destruct (String.eqb _ _); cbn; auto.
  constructor; auto. intros Hin. apply Hn.
  apply in_map_iff in Hin. destruct Hin as (c' & E & Hc').
  apply filter_In in Hc'. apply in_map_iff. exists c'. tauto.
Qed.

Lemma in_round_events send tasks phone message :
  In (phone, message) tasks -> In (send phone message) (round_events send tasks).
Proof.
  intros H. unfold round_events. apply in_map_iff.
  exists (phone, message). auto.
Qed.

(** C3, as the code has it.  On a trigger that runs its rounds (the shift is
    not claimed), over caregivers with distinct ids: a send that raises does
    not keep the other sends of its round from being issued, and the
    caregivers of the round,
    the one whose send failed included, are marked in the notified list of
    the stored state; but the failure reaches the caller: [trigger_fanout]
    fails with the error of the send instead of returning the fanout state,
    and after a failed SMS the escalation step of that call is not run. *)
Theorem send_failure_reaches_the_caller :
  forall (w : World) (key : string) (env : Env) (shift : Shift.t),
    DB.get (shift_db w) key = Some shift ->
    distinct_caregiver_ids w ->
    let pool := DB.all (caregiver_db w) in
    let state := current_state key env w in
    let state1 :=
      ShiftFanoutState.set_sms_notified_caregiver_ids state
        (fst (sms_round shift pool state)) in
    truthy (ShiftFanoutState.claimed_caregiver_id state) = false ->
    let w' := fst (trigger_fanout key env w) in
    (all_complete (send_sms env) (snd (sms_round shift pool state)) = false ->
       snd (trigger_fanout key env w) = NotifierError
       /\ (forall c, In c (eligible shift pool) ->
             ~ In (Caregiver.id c)
                  (ShiftFanoutState.sms_notified_caregiver_ids state) ->
             In (SendSms (Caregiver.phone c) (sms_message shift)) (trace w'))
       /\ DB.get (fanout_db w') key = Some state1
       /\ (forall c, In c (eligible shift pool) ->
             In (Caregiver.id c)
                (ShiftFanoutState.sms_notified_caregiver_ids state1))
       /\ filter is_call (trace w') = filter is_call (trace w))
    /\
    (all_complete (send_sms env) (snd (sms_round shift pool state)) = true ->
     escalation_due env state1 = true ->
     all_complete (place_phone_call env) (snd (call_round shift pool state1))
     = false ->
       snd (trigger_fanout key env w) = NotifierError
       /\ (forall c, In c (eligible shift pool) ->
             ~ In (Caregiver.id c)
                  (ShiftFanoutState.call_notified_caregiver_ids state) ->
             In (PlacePhoneCall (Caregiver.phone c) (call_message shift))
                (trace w'))
       /\ exists state',
            DB.get (fanout_db w') key = Some state'
            /\ ShiftFanoutState.escalated_to_call state' = true
            /\ forall c, In c (eligible shift pool) ->
                 In (Caregiver.id c)
                    (ShiftFanoutState.call_notified_caregiver_ids state')).
Proof.
  intros w key env shift Hs Hd pool state state1 Ht w'.
  assert (ND : NoDup (map Caregiver.id (eligible shift pool)))
    by now apply eligible_distinct.
  subst w'. rewrite (trigger_fanout_state _ _ _ _ Hs).
  rewrite (trigger_fanout_denotation _ _ _ _ Hs). cbn [fst snd trace].
  fold pool state. unfold fanout_result, fanout_events, advance.
  rewrite Ht. cbn zeta. fold state1. split.
  - intros Hfail. rewrite Hfail. cbn [andb].
    destruct (is_empty (snd (sms_round shift pool state))) eqn:E.
    { apply is_empty_nil in E. rewrite E in Hfail. discriminate. }
    repeat split.
    + intros c Hc Hn. apply in_or_app. right. apply in_or_app. right.
      apply in_or_app. left. apply in_or_app. left.
      apply in_round_events. now apply notify_round_tasks.
    + intros c Hc. now apply notify_round_marks.
    + rewrite !filter_app. unfold round_events.
      assert (F : forall tasks,
                 filter is_call
                   (map (fun t : string * string => SendSms (fst t) (snd t))
                      tasks) = []).
      { induction tasks; cbn; auto. }
      rewrite F. destruct (is_created key w); cbn; now rewrite app_nil_r.
  - intros Hok Hdue Hfail. rewrite Hok, Hdue, Hfail. cbn [andb].
    repeat split.
    + intros c Hc Hn. apply in_or_app. right. apply in_or_app. right.
      apply in_or_app. right. apply in_or_app. left.
      apply in_round_events. now apply notify_round_tasks.
    + eexists. split; [reflexivity|]. split; [reflexivity|].
      intros c Hc. cbn. now apply notify_round_marks.
Qed.

Lemma distinct_caregiver_ids_clean_db : distinct_caregiver_ids Fixture.clean_db.
Proof.
  unfold distinct_caregiver_ids. cbn.
  repeat constructor; cbn; intuition discriminate.
Qed.

(** The claim as the specification words it fails on the fixture: Alice's SMS
    raises, and the trigger fails instead of returning the state. *)
Lemma failed_sms_fails_trigger_fanout :
  let env := Fixture.unreachable "+15551111" Fixture.t0 in
  snd (trigger_fanout "s1" env Fixture.clean_db) = NotifierError
  /\ forall state,
       snd (trigger_fanout "s1" env Fixture.clean_db) <> Return state.
Proof.
  split; [reflexivity|]. intros state. vm_compute. discriminate.
Qed.

Lemma send_failure_reaches_the_caller_witness :
  let sms_down := Fixture.unreachable "+15551111" Fixture.t0 in
  let w1 := step (Fanout "s1" (Fixture.at_time Fixture.t0)) Fixture.clean_db in
  let call_down :=
    Fixture.unreachable "+15551111" (Fixture.t0 + timedelta_minutes 10) in
  (snd (trigger_fanout "s1" sms_down Fixture.clean_db) = NotifierError
   /\ DB.get (fanout_db (fst (trigger_fanout "s1" sms_down Fixture.clean_db)))
        "s1"
      = Some (ShiftFanoutState.mk "s1" Fixture.t0 ["c1"; "c3"] [] None false)
   /\ In (SendSms "+15553333" "New shift available! ID: s1")
        (trace (fst (trigger_fanout "s1" sms_down Fixture.clean_db))))
  /\ snd (trigger_fanout "s1" call_down w1) = NotifierError
  /\ In (PlacePhoneCall "+15553333" "Urgent: Shift available! ID: s1")
       (trace (fst (trigger_fanout "s1" call_down w1))).
Proof.
  intros sms_down w1 call_down. split.
  - destruct (send_failure_reaches_the_caller Fixture.clean_db "s1" sms_down
                Fixture.s1 eq_refl distinct_caregiver_ids_clean_db eq_refl)
      as [H _].
    destruct (H eq_refl) as (A & B & C & _).
    split; [exact A|]. split; [exact C|].
    apply (B Fixture.c3).
    + vm_compute. tauto.
    + vm_compute. tauto.
  - destruct (send_failure_reaches_the_caller w1 "s1" call_down
                Fixture.s1 eq_refl distinct_caregiver_ids_clean_db eq_refl)
      as [_ H].
    destruct (H eq_refl eq_refl eq_refl) as (A & B & _).
    split; [exact A|].
    apply (B Fixture.c3).
    + vm_compute. tauto.
    + vm_compute. tauto.
Defined.

(** ** The escalation boundary *)

Lemma advance_not_due shift pool env state :
  ShiftFanoutState.escalated_to_call state = false ->
  now_at_escalation_check env - ShiftFanoutState.started_at state
  < timedelta_minutes 10 ->
  ShiftFanoutState.escalated_to_call (advance shift pool env state) = false.
Proof.
  intros He Hlt. unfold advance, escalation_due. cbn.
  assert (E : (now_at_escalation_check env - ShiftFanoutState.started_at state
               >=? timedelta_minutes 10) = false).
  { rewrite Z.geb_leb. apply Z.leb_gt. exact Hlt. }
  rewrite E. cbn.
  repeat match goal with |- context [if ?b then _ else _] => destruct b end;
    exact He.
Qed.

Lemma advance_due shift pool env state :
  truthy (ShiftFanoutState.claimed_caregiver_id state) = false ->
  ShiftFanoutState.escalated_to_call state = false ->
  now_at_escalation_check env - ShiftFanoutState.started_at state
  >= timedelta_minutes 10 ->
  all_complete (send_sms env) (snd (sms_round shift pool state)) = true ->
  ShiftFanoutState.escalated_to_call (advance shift pool env state) = true.
Proof.
  intros Ht He Hge Hok. unfold advance, escalation_due. cbn.
  rewrite Ht, Hok, He.
  assert (E : (now_at_escalation_check env - ShiftFanoutState.started_at state
               >=? timedelta_minutes 10) = true).
  { rewrite Z.geb_leb. apply Z.leb_le. lia. }
  rewrite E. reflexivity.
Qed.

Lemma step_unescalated s w key state1 :
  unescalated key w ->
  DB.get (fanout_db (step s w)) key = Some state1 ->
  before_boundary key (ShiftFanoutState.started_at state1) s ->
  ShiftFanoutState.escalated_to_call state1 = false.
Proof.
  unfold unescalated. intros Hu.
  assert (Hcur : forall env,
             ShiftFanoutState.escalated_to_call (current_state key env w)
             = false).
  { intros env. unfold current_state.
    destruct (DB.get (fanout_db w) key); auto. }
  assert (Hsame : DB.get (fanout_db w) key = Some state1 ->
                  ShiftFanoutState.escalated_to_call state1 = false).
  { intros E. now rewrite E in Hu. }
  destruct s as [k env|msg env|c]; cbn [step before_boundary].
  - destruct (String.eqb_spec key k) as [<-|Hne].
    + destruct (DB.get (shift_db w) key) as [sh|] eqn:Hs.
      * rewrite (trigger_fanout_state _ _ _ _ Hs). intros [= <-] Hb.
        apply advance_not_due; [apply Hcur|].
        rewrite <- (same_started_at _ _ (advance_evolves sh
                      (DB.all (caregiver_db w)) env (current_state key env w))).
        now apply Hb.
      * rewrite trigger_fanout_not_found by assumption. cbn. auto.
    + rewrite trigger_fanout_other_states by assumption. auto.
  - destruct (receive_message_effect msg env w)
      as [_ _ E _|cg sh _ Hs _ Hcl _ _ E]; rewrite E; auto.
    destruct (String.eqb_spec (Shift.id sh) key) as [Hk|Hne].
    + rewrite Hk. rewrite get_put_same. intros [= <-] _. cbn. apply Hcur.
    + rewrite get_put_other by assumption. auto.
  - auto.
Qed.

Lemma run_unescalated steps :
  forall w key state',
    unescalated key w ->
    DB.get (fanout_db (run steps w)) key = Some state' ->
    Forall (before_boundary key (ShiftFanoutState.started_at state')) steps ->
    ShiftFanoutState.escalated_to_call state' = false.
Proof.
  induction steps as [|s steps IH]; intros w key state' Hu Hf Hb; cbn in Hf.
  - unfold unescalated in Hu. now rewrite Hf in Hu.
  - inversion Hb as [|? ? Hs Hrest]; subst.
    apply (IH (step s w) key); auto.
    unfold unescalated.
    destruct (DB.get (fanout_db (step s w)) key) as [st1|] eqn:H1; auto.
    destruct (run_fanout_evolves steps _ _ _ H1) as (st2 & H2 & Ev).
    rewrite Hf in H2. injection H2 as <-.
    apply (step_unescalated s w key); auto.
    now rewrite <- (same_started_at _ _ Ev).
Qed.

(** C4, as the code has it.  The flag of a shift is down as long as every
    trigger on the shift checked the clock less than ten minutes after
    [started_at]; a trigger that finds the state without claimant and not yet
    escalated, ten minutes or more after [started_at], and whose SMS round
    does not fail, raises it; a trigger that finds the state claimed by a
    caregiver whose id is not empty returns it as it is, flag included,
    whatever the clock says; and once up the flag stays up, whatever follows:
    it goes from down to up once. *)
Theorem escalation_boundary :
  forall (w : World) (key : string),
    (forall steps state',
       unescalated key w ->
       DB.get (fanout_db (run steps w)) key = Some state' ->
       Forall (before_boundary key (ShiftFanoutState.started_at state')) steps ->
       ShiftFanoutState.escalated_to_call state' = false)
    /\ (forall env state shift,
          DB.get (fanout_db w) key = Some state ->
          DB.get (shift_db w) key = Some shift ->
          ShiftFanoutState.claimed_caregiver_id state = None ->
          ShiftFanoutState.escalated_to_call state = false ->
          now_at_escalation_check env - ShiftFanoutState.started_at state
          >= timedelta_minutes 10 ->
          all_complete (send_sms env)
            (snd (sms_round shift (DB.all (caregiver_db w)) state)) = true ->
          exists state',
            DB.get (fanout_db (fst (trigger_fanout key env w))) key
            = Some state'
            /\ ShiftFanoutState.escalated_to_call state' = true)
    /\ (forall env state shift c,
          DB.get (fanout_db w) key = Some state ->
          DB.get (shift_db w) key = Some shift ->
          ShiftFanoutState.claimed_caregiver_id state = Some c ->
          c <> "" ->
          trigger_fanout key env w = (w, Return state))
    /\ (forall steps state,
          DB.get (fanout_db w) key = Some state ->
          ShiftFanoutState.escalated_to_call state = true ->
          exists state',
            DB.get (fanout_db (run steps w)) key = Some state'
            /\ ShiftFanoutState.escalated_to_call state' = true).
Proof.
  intros w key. split; [|split; [|split]].
  - intros steps state'. apply run_unescalated.
  - intros env state shift Hf Hs Hc He Hge Hok.
    rewrite (trigger_fanout_state _ _ _ _ Hs). eexists. split; [reflexivity|].
    unfold current_state. rewrite Hf.
    apply advance_due; auto. now rewrite Hc.
  - intros env state shift c Hf Hs Hc Hne.
    rewrite (trigger_fanout_denotation _ _ _ _ Hs).
    unfold is_created, current_state, fanout_events, fanout_result.
    rewrite Hf, Hc. cbn.
    destruct (String.eqb_spec c ""); [contradiction|]. cbn.
    rewrite app_nil_r. now destruct w.
  - intros steps state Hf He.
    destruct (run_fanout_evolves steps _ _ _ Hf) as (state' & Hf' & Ev).
    exists state'. split; [exact Hf'|].
    now apply (escalation_stays _ _ Ev).
Qed.

(** The claim as the specification words it fails on a claimed shift: the
    first trigger at the boundary returns the state as it was, flag down.
    It also fails when an SMS of that trigger raises (here the one to Dan,
    who joined the pool after the first round): the handler is left before
    the escalation check. *)
Lemma claimed_shift_does_not_escalate :
  let w :=
    run [Fanout "s1" (Fixture.at_time Fixture.t0);
         Inbound (Fixture.yes "+15551111") (Fixture.at_time Fixture.t0)]
      Fixture.clean_db in
  let env := Fixture.at_time (Fixture.t0 + timedelta_minutes 10) in
  let w' :=
    run [Fanout "s1" (Fixture.at_time Fixture.t0);
         AddCaregiver (Caregiver.mk "c4" "Dan" "RN" "+15554444")]
      Fixture.clean_db in
  let env' :=
    Fixture.unreachable "+15554444" (Fixture.t0 + timedelta_minutes 10) in
  (trigger_fanout "s1" env w
   = (w, Return (ShiftFanoutState.mk "s1" Fixture.t0 ["c1"; "c3"] []
                   (Some "c1") false))
   /\ now_at_escalation_check env - Fixture.t0 >= timedelta_minutes 10)
  /\ snd (trigger_fanout "s1" env' w') = NotifierError
  /\ DB.get (fanout_db (fst (trigger_fanout "s1" env' w'))) "s1"
     = Some (ShiftFanoutState.mk "s1" Fixture.t0 ["c1"; "c3"; "c4"] []
               None false)
  /\ now_at_escalation_check env' - Fixture.t0 >= timedelta_minutes 10.
Proof.
  repeat split; try reflexivity; vm_compute; discriminate.
Qed.

Lemma escalation_boundary_witness :
  let w1 :=
    run [Fanout "s1" (Fixture.at_time Fixture.t0);
         Fanout "s1" (Fixture.at_time (Fixture.t0 + timedelta_minutes 9))]
      Fixture.clean_db in
  let at_boundary := Fixture.at_time (Fixture.t0 + timedelta_minutes 10) in
  let w2 := fst (trigger_fanout "s1" at_boundary w1) in
  let w3 :=
    run [Fanout "s1" (Fixture.at_time (Fixture.t0 + timedelta_minutes 20));
         Inbound (Fixture.yes "+15551111") at_boundary;
         Fanout "s1" (Fixture.at_time (Fixture.t0 + timedelta_minutes 30))]
      w2 in
  let w4 :=
    fst (receive_message (Fixture.yes "+15553333") at_boundary w1) in
  (exists state1,
     DB.get (fanout_db w1) "s1" = Some state1
     /\ ShiftFanoutState.escalated_to_call state1 = false)
  /\ (exists state2,
        DB.get (fanout_db w2) "s1" = Some state2
        /\ ShiftFanoutState.escalated_to_call state2 = true)
  /\ (exists state3,
        DB.get (fanout_db w3) "s1" = Some state3
        /\ ShiftFanoutState.escalated_to_call state3 = true)
  /\ trigger_fanout "s1" at_boundary w4
     = (w4, Return (ShiftFanoutState.mk "s1" Fixture.t0 ["c1"; "c3"] []
                      (Some "c3") false)).
Proof.
  intros w1 at_boundary w2 w3 w4.
  set (st1 := ShiftFanoutState.mk "s1" Fixture.t0 ["c1"; "c3"] [] None false).
  assert (H1 : DB.get (fanout_db w1) "s1" = Some st1) by reflexivity.
  split; [|split; [|split]].
  - destruct (escalation_boundary Fixture.clean_db "s1") as (A & _ & _ & _).
    exists st1. split; [exact H1|].
    apply (A [Fanout "s1" (Fixture.at_time Fixture.t0);
              Fanout "s1" (Fixture.at_time (Fixture.t0 + timedelta_minutes 9))]
             st1 I H1).
    repeat constructor; intros _; reflexivity.
  - destruct (escalation_boundary w1 "s1") as (_ & B & _ & _).
    assert (Hge : now_at_escalation_check at_boundary
                  - ShiftFanoutState.started_at st1 >= timedelta_minutes 10)
      by (vm_compute; discriminate).
    exact (B at_boundary st1
             (Shift.mk "s1" "org1" "RN" 0 (timedelta_minutes 480) None)
             H1 eq_refl eq_refl eq_refl Hge eq_refl).
  - destruct (escalation_boundary w2 "s1") as (_ & _ & _ & C).
    exact (C [Fanout "s1"
                (Fixture.at_time (Fixture.t0 + timedelta_minutes 20));
              Inbound (Fixture.yes "+15551111") at_boundary;
              Fanout "s1"
                (Fixture.at_time (Fixture.t0 + timedelta_minutes 30))]
             (ShiftFanoutState.mk "s1" Fixture.t0 ["c1"; "c3"]
                ["c1"; "c3"] None true)
             eq_refl eq_refl).
  - destruct (escalation_boundary w4 "s1") as (_ & _ & D & _).
    refine (D at_boundary
              (ShiftFanoutState.mk "s1" Fixture.t0 ["c1"; "c3"] []
                 (Some "c3") false)
              (Shift.set_claimed_by_caregiver_id Fixture.s1 (Some "c3")) "c3"
              eq_refl eq_refl eq_refl _).
    discriminate.
Defined.

(** ** Idempotent trigger *)

Lemma fanout_result_return shift pool env state state' :
  fanout_result shift pool env state = Return state' ->
  state' = advance shift pool env state
  /\ (truthy (ShiftFanoutState.claimed_caregiver_id state) = false ->
      all_complete (send_sms env) (snd (sms_round shift pool state)) = true).
Proof.
  unfold fanout_result, advance.
  destruct (truthy _).
  - intros [= <-]. split; [reflexivity|discriminate].
  - destruct (all_complete (send_sms env) _); [|discriminate].
    destruct (escalation_due env _).
    + destruct (all_complete (place_phone_call env) _); [|discriminate].
      intros [= <-]. auto.
    + intros [= <-]. auto.
Qed.

(** A state that a trigger has just returned is a fixed point of the next
    trigger that checks the clock at the same instant: nobody is left to
    notify and the escalation is not due (again). *)
Lemma advance_twice key shift pool env1 env2 state :
  now_at_escalation_check env2 = now_at_escalation_check env1 ->
  (truthy (ShiftFanoutState.claimed_caregiver_id state) = false ->
   all_complete (send_sms env1) (snd (sms_round shift pool state)) = true) ->
  advance shift pool env2 (advance shift pool env1 state)
  = advance shift pool env1 state
  /\ fanout_events key shift pool env2 false (advance shift pool env1 state)
     = []
  /\ fanout_result shift pool env2 (advance shift pool env1 state)
     = Return (advance shift pool env1 state).
Proof.
  intros Hnow Hok.
  destruct (truthy (ShiftFanoutState.claimed_caregiver_id state)) eqn:Ht.
  { unfold fanout_events, fanout_result, advance. rewrite !Ht. auto. }
  specialize (Hok eq_refl).
  assert (E : advance shift pool env1 state
              = let state1 :=
                  ShiftFanoutState.set_sms_notified_caregiver_ids state
                    (fst (sms_round shift pool state)) in
                if escalation_due env1 state1 then
                  ShiftFanoutState.set_call_notified_caregiver_ids
                    (ShiftFanoutState.set_escalated_to_call state1 true)
                    (fst (call_round shift pool state1))
                else state1)
    by (unfold advance; now rewrite Ht, Hok).
  rewrite E. clear E. cbv zeta.
  pose proof (notify_round_idempotent (sms_message shift)
                (eligible shift pool)
                (ShiftFanoutState.sms_notified_caregiver_ids state)) as Hsms.
  unfold fanout_events, fanout_result, advance, sms_round.
  destruct (escalation_due env1 _) eqn:D; cbn; rewrite Ht, Hsms; cbn.
  - unfold escalation_due. cbn. rewrite andb_false_r. cbn. auto.
  - unfold escalation_due in D |- *. cbn in D |- *. rewrite Hnow, D.
    cbn. auto.
Qed.

(** C5.  A trigger that follows at once on a trigger that returned, with no
    time elapsed on the clock of the escalation check, returns the same
    fanout state and leaves the whole world as it is: not one SMS, not one
    call, not one store write is added to the trace. *)
Theorem trigger_fanout_idempotent :
  forall (w w1 : World) (key : string) (env1 env2 : Env)
         (state1 : ShiftFanoutState.t),
    trigger_fanout key env1 w = (w1, Return state1) ->
    now_at_escalation_check env2 = now_at_escalation_check env1 ->
    trigger_fanout key env2 w1 = (w1, Return state1).
Proof.
  intros w w1 key env1 env2 state1 H1 Hnow.
  destruct (DB.get (shift_db w) key) as [shift|] eqn:Hs.
  2:{ rewrite trigger_fanout_not_found in H1 by assumption. discriminate. }
  pose proof (trigger_fanout_state key env1 w shift Hs) as Hf1.
  pose proof (trigger_fanout_stores key env1 w) as [Hc1 Hs1].
  rewrite H1 in Hf1, Hc1, Hs1. cbn [fst] in Hf1, Hc1, Hs1.
  rewrite (trigger_fanout_denotation _ _ _ _ Hs) in H1.
  injection H1 as _ Hr.
  apply fanout_result_return in Hr. destruct Hr as [-> Hok].
  rewrite <- Hs1 in Hs.
  rewrite (trigger_fanout_denotation _ _ _ _ Hs).
  assert (Hcur : current_state key env2 w1
                 = advance shift (DB.all (caregiver_db w)) env1
                     (current_state key env1 w))
    by (unfold current_state at 1; now rewrite Hf1).
  assert (Hcr : is_created key w1 = false)
    by (unfold is_created; now rewrite Hf1).
  rewrite Hcur, Hcr, Hc1.
  destruct (advance_twice key shift (DB.all (caregiver_db w)) env1 env2
              (current_state key env1 w) Hnow Hok) as (A & B & C).
  rewrite A, B, C, app_nil_r. f_equal.
  rewrite (put_unchanged _ _ _ Hf1).
  destruct (_ || _); destruct w1; cbn in Hc1 |- *; now rewrite Hc1.
Qed.

Lemma trigger_fanout_idempotent_witness :
  let env := Fixture.at_time (Fixture.t0 + timedelta_minutes 10) in
  let w := step (Fanout "s1" (Fixture.at_time Fixture.t0)) Fixture.clean_db in
  let w1 := fst (trigger_fanout "s1" env w) in
  trigger_fanout "s1" env w1
  = (w1, Return (ShiftFanoutState.mk "s1" Fixture.t0 ["c1"; "c3"]
                   ["c1"; "c3"] None true)).
Proof.
  intros env w w1.
  exact (trigger_fanout_idempotent w w1 "s1" env env _ eq_refl eq_refl).
Defined.

(** ** A claim by the caregiver whose id is the empty string *)

Lemma trigger_fanout_claimed key env w shift state :
  DB.get (shift_db w) key = Some shift ->
  DB.get (fanout_db w) key = Some state ->
  truthy (ShiftFanoutState.claimed_caregiver_id state) = true ->
  trigger_fanout key env w = (w, Return state).
Proof.
  intros Hs Hf Ht. rewrite (trigger_fanout_denotation _ _ _ _ Hs).
  unfold is_created, current_state, fanout_events, fanout_result.
  rewrite Hf, Ht. cbn. rewrite app_nil_r. now destruct w.
Qed.

(** The early return of line 93 is taken for every claimant but the one
    whose id is empty. *)
Lemma trigger_fanout_claimed_by key env w shift state c :
  DB.get (shift_db w) key = Some shift ->
  DB.get (fanout_db w) key = Some state ->
  ShiftFanoutState.claimed_caregiver_id state = Some c ->
  c <> "" ->
  trigger_fanout key env w = (w, Return state).
Proof.
  intros Hs Hf Hc Hne. apply (trigger_fanout_claimed _ _ _ _ _ Hs Hf).
  rewrite Hc. cbn. destruct (String.eqb_spec c ""); [contradiction|reflexivity].
Qed.

(** C6 fails on the code.  [receive_message] tests the claim with
    [is not None], [trigger_fanout] with the truth value of the id: a shift
    claimed by the caregiver whose id is the empty string is claimed for the
    first and unclaimed for the second, which goes on notifying. *)
Theorem trigger_fanout_after_claim_by_empty_id :
  let nobody := Caregiver.mk "" "Eve" "RN" "+15550000" in
  let w0 := load_sample_data [nobody; Fixture.c3] [Fixture.s1] empty_world in
  let w := step (Inbound (Fixture.yes "+15550000") (Fixture.at_time Fixture.t0))
             w0 in
  let w' := fst (trigger_fanout "s1" (Fixture.at_time Fixture.t0) w) in
  DB.get (fanout_db w) "s1"
  = Some (ShiftFanoutState.mk "s1" Fixture.t0 [] [] (Some "") false)
  /\ DB.get (fanout_db w') "s1"
     = Some (ShiftFanoutState.mk "s1" Fixture.t0 [""; "c3"] [] (Some "") false)
  /\ trace w'
     = trace w ++ [SendSms "+15550000" "New shift available! ID: s1";
                   SendSms "+15553333" "New shift available! ID: s1";
                   Put FanoutDb "s1"].
Proof. vm_compute. repeat split. Qed.

(** ** Role-based exclusion *)

Lemma advance_notified_origin shift pool env state x :
  In x (ShiftFanoutState.sms_notified_caregiver_ids
          (advance shift pool env state))
  \/ In x (ShiftFanoutState.call_notified_caregiver_ids
             (advance shift pool env state)) ->
  (In x (ShiftFanoutState.sms_notified_caregiver_ids state)
   \/ In x (ShiftFanoutState.call_notified_caregiver_ids state))
  \/ exists c, In c (eligible shift pool) /\ Caregiver.id c = x.
Proof.
  unfold advance, sms_round, call_round.
  destruct (truthy _); [tauto|].
  destruct (all_complete _ _); [destruct (escalation_due _ _)|]; cbn;
    intros [H|H]; try tauto;
    apply notify_round_origin in H; tauto.
Qed.

Lemma step_notified_are_eligible s w :
  is_request s = true ->
  shifts_keyed_by_id w ->
  notified_are_eligible w -> notified_are_eligible (step s w).
Proof.
  intros Hr Hw Inv.
  assert (Hcur : forall key env shift x,
             DB.get (shift_db w) key = Some shift ->
             In x (ShiftFanoutState.sms_notified_caregiver_ids
                     (current_state key env w))
             \/ In x (ShiftFanoutState.call_notified_caregiver_ids
                        (current_state key env w)) ->
             exists c, In c (DB.all (caregiver_db w)) /\ Caregiver.id c = x
                       /\ Caregiver.role c = Shift.role_required shift).
  { intros key env shift x Hs. unfold current_state.
    destruct (DB.get (fanout_db w) key) as [st|] eqn:Hf.
    - now apply (Inv key).
    - cbn. tauto. }
  destruct s as [k env|msg env|c]; [| |discriminate]; cbn [step];
    intros key state shift x.
  - destruct (trigger_fanout_stores k env w) as [-> ->].
    destruct (String.eqb_spec key k) as [->|Hne].
    + intros Hf Hs. rewrite (trigger_fanout_state _ _ _ _ Hs) in Hf.
      injection Hf as <-. intros H.
      apply advance_notified_origin in H. destruct H as [H|(c & Hc & <-)].
      * now apply (Hcur k env).
      * apply eligible_In in Hc. exists c. tauto.
    + rewrite trigger_fanout_other_states by assumption. apply Inv.
  - destruct (receive_message_effect msg env w)
      as [-> -> -> _|cg sh _ Hs _ Hcl -> -> ->]; [apply Inv|].
    pose proof (Hw _ _ Hs) as Hid. rewrite Hid, put_put.
    destruct (String.eqb_spec (InboundMessage.shift_id msg) key) as [<-|Hne].
    + rewrite !get_put_same. intros [= <-] [= <-]. cbn.
      apply (Hcur _ env sh x Hs).
    + rewrite !get_put_other by assumption. apply Inv.
Qed.

Lemma step_request_pool s w :
  is_request s = true -> caregiver_db (step s w) = caregiver_db w.
Proof.
  destruct s as [k env|msg env|c]; [| |discriminate]; intros _; cbn [step].
  - apply trigger_fanout_stores.
  - now destruct (receive_message_effect msg env w).
Qed.

Lemma run_notified_are_eligible steps :
  forall w,
    forallb is_request steps = true ->
    shifts_keyed_by_id w ->
    notified_are_eligible w ->
    notified_are_eligible (run steps w)
    /\ caregiver_db (run steps w) = caregiver_db w.
Proof.
  induction steps as [|s steps IH]; intros w Hr Hw Inv; cbn [run]; auto.
  cbn in Hr. apply andb_prop in Hr. destruct Hr as [Hs Hr].
  destruct (IH (step s w) Hr) as [A B].
  - now apply step_shifts_keyed.
  - now apply step_notified_are_eligible.
  - split; [exact A|]. rewrite B. now apply step_request_pool.
Qed.

Lemma distinct_ids_same pool c c' :
  NoDup (map Caregiver.id pool) ->
  In c pool -> In c' pool -> Caregiver.id c = Caregiver.id c' -> c = c'.
Proof.
  induction pool as [|c0 pool IH]; cbn; [tauto|].
  intros ND. inversion ND as [|? ? Hn ND']; subst.
  intros [->|Hc] [->|Hc'] E; auto.
  - exfalso. apply Hn. rewrite E. now apply in_map.
  - exfalso. apply Hn. rewrite <- E. now apply in_map.
Qed.

(** C7.  Starting with no fanout state, shifts stored under their ids and
    caregivers with distinct ids, after any sequence of triggers and inbound
    messages a caregiver of the pool whose role differs from the role a
    shift requires is in neither notified list of that shift. *)
Theorem role_based_exclusion :
  forall (w : World) (steps : list Step),
    fanout_db w = DB.empty ->
    shifts_keyed_by_id w ->
    distinct_caregiver_ids w ->
    forallb is_request steps = true ->
    forall key state shift c,
      DB.get (fanout_db (run steps w)) key = Some state ->
      DB.get (shift_db (run steps w)) key = Some shift ->
      In c (DB.all (caregiver_db (run steps w))) ->
      Caregiver.role c <> Shift.role_required shift ->
      ~ In (Caregiver.id c) (ShiftFanoutState.sms_notified_caregiver_ids state)
      /\ ~ In (Caregiver.id c)
             (ShiftFanoutState.call_notified_caregiver_ids state).
Proof.
  intros w steps He Hw Hd Hr key state shift c Hf Hs Hc Hrole.
  assert (Inv0 : notified_are_eligible w).
  { intros k st sh x. rewrite He. discriminate. }
  destruct (run_notified_are_eligible steps w Hr Hw Inv0) as [Inv Hpool].
  assert (G : forall x,
             In x (ShiftFanoutState.sms_notified_caregiver_ids state)
             \/ In x (ShiftFanoutState.call_notified_caregiver_ids state) ->
             x <> Caregiver.id c).
  { intros x Hx E. destruct (Inv key state shift x Hf Hs Hx) as (c' & Hc' & Hid & Hr').
    rewrite Hpool in Hc, Hc'.
    assert (c' = c) by (apply (distinct_ids_same _ _ _ Hd Hc' Hc); congruence).
    subst c'. contradiction. }
  split; intros H; apply (G (Caregiver.id c)); auto.
Qed.

Lemma role_based_exclusion_witness :
  let w :=
    run [Fanout "s1" (Fixture.at_time Fixture.t0);
         Inbound (Fixture.yes "+15552222") (Fixture.at_time Fixture.t0);
         Fanout "s1" (Fixture.at_time (Fixture.t0 + timedelta_minutes 10));
         Inbound (Fixture.yes "+15553333") (Fixture.at_time Fixture.t0)]
      Fixture.clean_db in
  exists state,
    DB.get (fanout_db w) "s1" = Some state
    /\ ~ In (Caregiver.id Fixture.c2)
           (ShiftFanoutState.sms_notified_caregiver_ids state)
    /\ ~ In (Caregiver.id Fixture.c2)
           (ShiftFanoutState.call_notified_caregiver_ids state).
Proof.
  intros w. eexists. split; [reflexivity|].
  apply (role_based_exclusion Fixture.clean_db
           [Fanout "s1" (Fixture.at_time Fixture.t0);
            Inbound (Fixture.yes "+15552222") (Fixture.at_time Fixture.t0);
            Fanout "s1" (Fixture.at_time (Fixture.t0 + timedelta_minutes 10));
            Inbound (Fixture.yes "+15553333") (Fixture.at_time Fixture.t0)]
           eq_refl (load_sample_data_keyed _ _)
           distinct_caregiver_ids_clean_db eq_refl
           "s1"
           (ShiftFanoutState.mk "s1" Fixture.t0 ["c1"; "c3"] ["c1"; "c3"]
              (Some "c3") true)
           (Shift.set_claimed_by_caregiver_id Fixture.s1 (Some "c3"))
           Fixture.c2).
  - reflexivity.
  - reflexivity.
  - vm_compute. tauto.
  - vm_compute. discriminate.
Defined.

(** ** Inbound messages that change nothing *)

(** C8.  A message from a known caregiver whose role is not the one the shift
    requires is answered with the failure "Not eligible for this shift role"
    and the world is left as it is: no store is written, and the trace gets
    no entry, so the intent classifier was not called. *)
Theorem ineligible_sender_is_rejected :
  forall (w : World) (msg : InboundMessage.t) (env : Env)
         (caregiver : Caregiver.t) (shift : Shift.t),
    sender w msg = Some caregiver ->
    DB.get (shift_db w) (InboundMessage.shift_id msg) = Some shift ->
    Shift.role_required shift <> Caregiver.role caregiver ->
    receive_message msg env w
    = (w, Return (ShiftClaimResponse.mk false "Not eligible for this shift role"
                    (Shift.id shift) (Shift.claimed_by_caregiver_id shift)))
    /\ trace (fst (receive_message msg env w)) = trace w.
Proof.
  intros w msg env cg sh Hc Hs Hne.
  rewrite (receive_message_ineligible _ _ _ _ Hc _ Hs Hne). split; auto.
Qed.

Lemma ineligible_sender_is_rejected_witness :
  receive_message (Fixture.yes "+15552222") (Fixture.at_time Fixture.t0)
    Fixture.clean_db
  = (Fixture.clean_db,
     Return (ShiftClaimResponse.mk false "Not eligible for this shift role"
               "s1" None)).
Proof.
  refine (proj1 (ineligible_sender_is_rejected Fixture.clean_db
                   (Fixture.yes "+15552222") (Fixture.at_time Fixture.t0)
                   Fixture.c2 Fixture.s1 eq_refl eq_refl _)).
  vm_compute. discriminate.
Defined.

(** C9.  A message that the classifier reads as DECLINE or as UNKNOWN, from
    an eligible caregiver, leaves the three stores as they are (the trace
    only gets the call of the classifier) and is answered with a failure
    that reports the claimant the shift has, if any. *)
Theorem decline_and_unknown_are_inert :
  forall (w : World) (msg : InboundMessage.t) (env : Env)
         (caregiver : Caregiver.t) (shift : Shift.t),
    sender w msg = Some caregiver ->
    DB.get (shift_db w) (InboundMessage.shift_id msg) = Some shift ->
    Shift.role_required shift = Caregiver.role caregiver ->
    parse_shift_request_message_intent env (InboundMessage.body msg)
    <> ACCEPT ->
    let w' := fst (receive_message msg env w) in
    caregiver_db w' = caregiver_db w
    /\ shift_db w' = shift_db w
    /\ fanout_db w' = fanout_db w
    /\ trace w' = trace w ++ [ParseIntent (InboundMessage.body msg)]
    /\ snd (receive_message msg env w)
       = Return (ShiftClaimResponse.mk false
                   (match parse_shift_request_message_intent env
                            (InboundMessage.body msg) with
                    | DECLINE => "Shift declined"
                    | _ => "Intent unknown"
                    end)
                   (Shift.id shift) (Shift.claimed_by_caregiver_id shift)).
Proof.
  intros w msg env cg sh Hc Hs He Hi w'. subst w'.
  destruct (parse_shift_request_message_intent env (InboundMessage.body msg))
    eqn:E; [contradiction| |].
  - rewrite (receive_message_decline _ _ _ _ Hc _ Hs He E). cbn. auto.
  - rewrite (receive_message_unknown _ _ _ _ Hc _ Hs He E). cbn. auto.
Qed.

Lemma decline_and_unknown_are_inert_witness :
  let w :=
    run [Fanout "s1" (Fixture.at_time Fixture.t0);
         Inbound (Fixture.yes "+15551111") (Fixture.at_time Fixture.t0)]
      Fixture.clean_db in
  let no := InboundMessage.mk "+15553333" "s1" "No thank you" in
  let what := InboundMessage.mk "+15553333" "s1" "Maybe" in
  (shift_db (fst (receive_message no (Fixture.at_time Fixture.t0) w))
   = shift_db w
   /\ snd (receive_message no (Fixture.at_time Fixture.t0) w)
      = Return (ShiftClaimResponse.mk false "Shift declined" "s1" (Some "c1")))
  /\ fanout_db (fst (receive_message what (Fixture.at_time Fixture.t0) w))
     = fanout_db w
  /\ snd (receive_message what (Fixture.at_time Fixture.t0) w)
     = Return (ShiftClaimResponse.mk false "Intent unknown" "s1" (Some "c1")).
Proof.
  intros w no what.
  assert (D : parse_shift_request_message_intent (Fixture.at_time Fixture.t0)
                (InboundMessage.body no) <> ACCEPT)
    by (vm_compute; discriminate).
  assert (U : parse_shift_request_message_intent (Fixture.at_time Fixture.t0)
                (InboundMessage.body what) <> ACCEPT)
    by (vm_compute; discriminate).
  destruct (decline_and_unknown_are_inert w no (Fixture.at_time Fixture.t0)
              Fixture.c3
              (Shift.set_claimed_by_caregiver_id Fixture.s1 (Some "c1"))
              eq_refl eq_refl eq_refl D) as (_ & A & _ & _ & B).
  destruct (decline_and_unknown_are_inert w what (Fixture.at_time Fixture.t0)
              Fixture.c3
              (Shift.set_claimed_by_caregiver_id Fixture.s1 (Some "c1"))
              eq_refl eq_refl eq_refl U) as (_ & _ & A' & _ & B').
  repeat split; assumption.
Defined.

(** ** Calls go out in the escalating trigger only *)

Lemma no_call_among_sms tasks :
  filter is_call (round_events SendSms tasks) = [].
Proof.
  unfold round_events. induction tasks as [|t tasks IH]; cbn; auto.
Qed.

Lemma calls_among_calls tasks :
  filter is_call (round_events PlacePhoneCall tasks)
  = round_events PlacePhoneCall tasks.
Proof.
  unfold round_events. induction tasks as [|t tasks IH]; cbn; [reflexivity|].
  now rewrite IH.
Qed.

Lemma fanout_events_calls key shift pool env created state :
  filter is_call (fanout_events key shift pool env created state)
  = let state1 :=
      ShiftFanoutState.set_sms_notified_caregiver_ids state
        (fst (sms_round shift pool state)) in
    if negb (truthy (ShiftFanoutState.claimed_caregiver_id state))
       && all_complete (send_sms env) (snd (sms_round shift pool state))
       && escalation_due env state1
    then round_events PlacePhoneCall (snd (call_round shift pool state1))
    else [].
Proof.
  unfold fanout_events. cbv zeta. rewrite filter_app.
  replace (filter is_call (if created then [Put FanoutDb key] else []))
    with (@nil Event) by (destruct created; reflexivity).
  destruct (truthy _); cbn [negb andb app filter]; [reflexivity|].
  rewrite filter_app.
  replace (filter is_call _) with (@nil Event) at 1.
  2:{ destruct (is_empty _); [reflexivity|].
      rewrite filter_app, no_call_among_sms.
      now destruct (all_complete (send_sms env) _). }
  cbn [app]. destruct (_ && _); [|reflexivity].
  rewrite filter_app, calls_among_calls.
  destruct (all_complete (place_phone_call env) _); cbn;
    now rewrite ?app_nil_r.
Qed.

Lemma advance_marks_sms shift pool env state c :
  truthy (ShiftFanoutState.claimed_caregiver_id state) = false ->
  In c (eligible shift pool) ->
  In (Caregiver.id c)
     (ShiftFanoutState.sms_notified_caregiver_ids
        (advance shift pool env state)).
Proof.
  intros Ht Hc. unfold advance. rewrite Ht.
  destruct (all_complete _ _); [destruct (escalation_due _ _)|]; cbn;
    now apply notify_round_marks.
Qed.

Lemma trigger_fanout_calls key env w :
  filter is_call (trace (fst (trigger_fanout key env w)))
  <> filter is_call (trace w) ->
  unescalated key w
  /\ exists state',
       DB.get (fanout_db (fst (trigger_fanout key env w))) key = Some state'
       /\ ShiftFanoutState.escalated_to_call state' = true.
Proof.
  destruct (DB.get (shift_db w) key) as [shift|] eqn:Hs.
  2:{ rewrite trigger_fanout_not_found by assumption. cbn. congruence. }
  rewrite (trigger_fanout_state _ _ _ _ Hs).
  rewrite (trigger_fanout_denotation _ _ _ _ Hs). cbn [fst trace].
  rewrite filter_app, fanout_events_calls. cbv zeta.
  unfold advance.
  destruct (truthy _); cbn [negb andb];
    [rewrite app_nil_r; congruence|].
  destruct (all_complete (send_sms env) _); cbn [andb];
    [|rewrite app_nil_r; congruence].
  destruct (escalation_due env _) eqn:D; [|rewrite app_nil_r; congruence].
  intros _. split; [|eexists; split; reflexivity].
  unfold escalation_due in D. apply andb_prop in D. destruct D as [_ D].
  apply negb_true_iff in D. cbn in D.
  unfold unescalated, current_state in *.
  destruct (DB.get (fanout_db w) key); auto.
Qed.

(** C10, as the code has it.  A trigger records a phone call only if it
    finds the flag down and leaves it up.  Once the flag of a shift is up,
    whatever happens next (triggers, inbound messages, caregivers joining the
    pool), a trigger on the shift records no call and leaves the list of
    called caregivers as it was at the flip.  If it finds the state without
    claimant (or claimed by the empty id) it marks every eligible caregiver
    of the pool of that moment, newcomers included, in the SMS list; if it
    finds the state claimed by any other id it returns at once and changes
    nothing, so that a newcomer is marked in neither list. *)
Theorem calls_only_when_escalating :
  forall (w : World) (key : string),
    (forall env,
       filter is_call (trace (fst (trigger_fanout key env w)))
       <> filter is_call (trace w) ->
       unescalated key w
       /\ exists state',
            DB.get (fanout_db (fst (trigger_fanout key env w))) key
            = Some state'
            /\ ShiftFanoutState.escalated_to_call state' = true)
    /\ (forall state steps env,
          DB.get (fanout_db w) key = Some state ->
          ShiftFanoutState.escalated_to_call state = true ->
          let w1 := run steps w in
          let w2 := fst (trigger_fanout key env w1) in
          filter is_call (trace w2) = filter is_call (trace w1)
          /\ exists state2,
               DB.get (fanout_db w2) key = Some state2
               /\ ShiftFanoutState.call_notified_caregiver_ids state2
                  = ShiftFanoutState.call_notified_caregiver_ids state
               /\ (truthy (ShiftFanoutState.claimed_caregiver_id state2)
                   = false ->
                   forall shift c,
                     DB.get (shift_db w1) key = Some shift ->
                     In c (eligible shift (DB.all (caregiver_db w1))) ->
                     In (Caregiver.id c)
                        (ShiftFanoutState.sms_notified_caregiver_ids state2))
               /\ (truthy (ShiftFanoutState.claimed_caregiver_id state2)
                   = true ->
                   forall shift,
                     DB.get (shift_db w1) key = Some shift ->
                     trigger_fanout key env w1 = (w1, Return state2))).
Proof.
  intros w key. split; [intros env; apply trigger_fanout_calls|].
  intros state steps env Hf He w1 w2.
  destruct (run_fanout_evolves steps _ _ _ Hf) as (st1 & H1 & Ev1).
  fold w1 in H1. destruct (escalation_stays _ _ Ev1 He) as [He1 Hcall1].
  assert (U : ~ unescalated key w1)
    by (unfold unescalated; rewrite H1; congruence).
  split.
  - destruct (list_eq_dec
                (fun a b : Event =>
                   ltac:(decide equality; apply string_dec || decide equality))
                (filter is_call (trace w2)) (filter is_call (trace w1)))
      as [E|N]; [exact E|].
    exfalso. apply U. now apply (trigger_fanout_calls key env w1).
  - destruct (step_fanout_evolves (Fanout key env) w1 key st1 H1)
      as (st2 & H2 & Ev2).
    cbn [step] in H2. fold w2 in H2.
    exists st2. split; [exact H2|]. split.
    + destruct (escalation_stays _ _ Ev2 He1) as [_ ->]. exact Hcall1.
    + split.
      * intros Ht shift c Hs Hc.
        subst w2. rewrite (trigger_fanout_state _ _ _ _ Hs) in H2.
        injection H2 as <-.
        unfold current_state in *. rewrite H1 in *.
        apply advance_marks_sms; [|exact Hc].
        now rewrite advance_claimed in Ht.
      * intros Ht shift Hs.
        subst w2. rewrite (trigger_fanout_state _ _ _ _ Hs) in H2.
        injection H2 as <-.
        unfold current_state in *. rewrite H1 in *.
        rewrite advance_claimed in Ht.
        rewrite (trigger_fanout_claimed _ env _ _ _ Hs H1 Ht).
        unfold advance. now rewrite Ht.
Qed.

(** The claim as it is worded fails once the shift is claimed.  After the
    flip Alice claims the shift and Dan, of the required role, joins the
    pool: the triggers that follow return at line 94, Dan is marked in
    neither list and nothing is sent to him. *)
Lemma claimed_shift_ignores_newcomer :
  let dan := Caregiver.mk "c4" "Dan" "RN" "+15554444" in
  let w :=
    run [Fanout "s1" (Fixture.at_time Fixture.t0);
         Fanout "s1" (Fixture.at_time (Fixture.t0 + timedelta_minutes 10));
         Inbound (Fixture.yes "+15551111")
           (Fixture.at_time (Fixture.t0 + timedelta_minutes 11));
         AddCaregiver dan]
      Fixture.clean_db in
  let w' :=
    run [Fanout "s1" (Fixture.at_time (Fixture.t0 + timedelta_minutes 20));
         Fanout "s1" (Fixture.at_time (Fixture.t0 + timedelta_minutes 30))]
      w in
  In dan (eligible Fixture.s1 (DB.all (caregiver_db w)))
  /\ DB.get (fanout_db w) "s1"
     = Some (ShiftFanoutState.mk "s1" Fixture.t0 ["c1"; "c3"] ["c1"; "c3"]
               (Some "c1") true)
  /\ DB.get (fanout_db w') "s1"
     = Some (ShiftFanoutState.mk "s1" Fixture.t0 ["c1"; "c3"] ["c1"; "c3"]
               (Some "c1") true)
  /\ ~ In (Caregiver.id dan) ["c1"; "c3"]
  /\ trace w' = trace w.
Proof.
  repeat split; try reflexivity.
  - vm_compute. tauto.
  - cbn. intuition discriminate.
Qed.

Lemma calls_only_when_escalating_witness :
  let w0 := step (Fanout "s1" (Fixture.at_time Fixture.t0)) Fixture.clean_db in
  let flip := Fixture.at_time (Fixture.t0 + timedelta_minutes 10) in
  let w := fst (trigger_fanout "s1" flip w0) in
  let dan := Caregiver.mk "c4" "Dan" "RN" "+15554444" in
  let w1 := run [AddCaregiver dan] w in
  let later := Fixture.at_time (Fixture.t0 + timedelta_minutes 20) in
  let w2 := fst (trigger_fanout "s1" later w1) in
  (unescalated "s1" w0
   /\ exists state',
        DB.get (fanout_db w) "s1" = Some state'
        /\ ShiftFanoutState.escalated_to_call state' = true)
  /\ filter is_call (trace w2) = filter is_call (trace w1)
  /\ exists state2,
       DB.get (fanout_db w2) "s1" = Some state2
       /\ ShiftFanoutState.call_notified_caregiver_ids state2 = ["c1"; "c3"]
       /\ In "c4" (ShiftFanoutState.sms_notified_caregiver_ids state2).
Proof.
  intros w0 flip w dan w1 later w2. split.
  - destruct (calls_only_when_escalating w0 "s1") as [A _].
    apply (A flip). vm_compute. discriminate.
  - destruct (calls_only_when_escalating w "s1") as [_ B].
    destruct (B (ShiftFanoutState.mk "s1" Fixture.t0 ["c1"; "c3"]
                   ["c1"; "c3"] None true)
                [AddCaregiver dan] later eq_refl eq_refl)
      as (Hcalls & state2 & H2 & Hcall & Hsms & _).
    split; [exact Hcalls|].
    exists state2. split; [exact H2|]. split; [exact Hcall|].
    apply (Hsms
             ltac:(vm_compute in H2; injection H2 as <-; reflexivity)
             Fixture.s1 dan).
    + reflexivity.
    + vm_compute. tauto.
Defined.

(** ** First writer wins, under every interleaving *)

(** The handler is its part before the await followed by its part after. *)
Lemma receive_message_split msg env w :
  receive_message msg env w
  = match receive_message_before_await msg w with
    | inl r => (w, r)
    | inr (caregiver, shift) =>
        receive_message_after_await msg env caregiver shift
          (record [ParseIntent (InboundMessage.body msg)] w)
    end.
Proof.
  unfold receive_message, receive_message_before_await,
    receive_message_after_await, bind, read, ret, raise, update.
  destruct (find _ _) as [cg|]; [|reflexivity].
  destruct (DB.get (shift_db w) (InboundMessage.shift_id msg)) as [sh|] eqn:Hs;
    [|reflexivity].
  destruct (negb _); [reflexivity|].
  cbn [shift_db record]. now rewrite Hs.
Qed.

Lemma resolve_accept_claimed msg env caregiver shift w state c :
  DB.get (fanout_db w) (Shift.id shift) = Some state ->
  ShiftFanoutState.claimed_caregiver_id state = Some c ->
  resolve_intent ACCEPT msg env caregiver shift w
  = (w, Return (ShiftClaimResponse.mk false "Shift already claimed"
                  (Shift.id shift) (Some c))).
Proof.
  intros Hf Hc. run_handler. rewrite Hf. cbn. now rewrite Hc.
Qed.

Lemma resolve_accept_wins msg env caregiver shift w :
  ShiftFanoutState.claimed_caregiver_id
    (current_state (Shift.id shift) env w) = None ->
  let shift' :=
    Shift.set_claimed_by_caregiver_id shift (Some (Caregiver.id caregiver)) in
  let state' :=
    ShiftFanoutState.set_claimed_caregiver_id
      (current_state (Shift.id shift) env w) (Some (Caregiver.id caregiver)) in
  resolve_intent ACCEPT msg env caregiver shift w
  = (mkWorld (caregiver_db w)
       (DB.put (DB.put (shift_db w) (InboundMessage.shift_id msg) shift')
          (Shift.id shift) shift')
       (DB.put (fanout_db w) (Shift.id shift) state')
       (trace w
        ++ (if is_created (Shift.id shift) w
            then [Put FanoutDb (Shift.id shift)] else [])
        ++ [Put FanoutDb (Shift.id shift); Put ShiftDb (Shift.id shift)]),
     Return (ShiftClaimResponse.mk true "Shift successfully claimed!"
               (Shift.id shift) (Some (Caregiver.id caregiver)))).
Proof.
  unfold current_state, is_created. intros Hc. cbv zeta. run_handler.
  destruct (DB.get (fanout_db w) (Shift.id shift)) as [st|]; cbn in Hc |- *;
    rewrite ?Hc; same_world.
Qed.

Lemma resume_nth_nth i :
  forall tasks w,
    fst (resume_nth i tasks w)
    = match nth_error tasks i with
      | Some t => fst (resume t w)
      | None => w
      end
    /\ length (snd (resume_nth i tasks w)) = length tasks
    /\ forall j,
         nth_error (snd (resume_nth i tasks w)) j
         = if Nat.eqb j i
           then option_map (fun t => snd (resume t w)) (nth_error tasks i)
           else nth_error tasks j.
Proof.
  induction i as [|i IH]; intros [|t tasks] w; cbn [resume_nth nth_error].
  - repeat split. intros j. destruct (Nat.eqb j 0); now destruct j.
  - destruct (resume t w) as [w' t'] eqn:E. repeat split.
    intros [|j]; cbn; [now rewrite E|reflexivity].
  - repeat split. intros j. destruct (Nat.eqb j (S i)); now destruct j.
  - destruct (IH tasks w) as (Ew & El & En).
    destruct (resume_nth i tasks w) as [w' tasks']. cbn [fst snd] in *.
    split; [exact Ew|]. split; [cbn [length]; now rewrite El|].
    intros [|j]; [reflexivity|]. cbn [nth_error Nat.eqb]. apply En.
Qed.

Section Race.
Variables (w0 : World) (shift : Shift.t)
          (attempts : list (InboundMessage.t * Env)).
Hypothesis stored : DB.get (shift_db w0) (Shift.id shift) = Some shift.
Hypothesis free : unclaimed (Shift.id shift) w0.
Hypothesis eligible_attempts :
  Forall (fun a => exists caregiver, accept_attempt w0 shift a caregiver)
         attempts.

Lemma resume_arrived a caregiver current w :
  accept_attempt w0 shift a caregiver ->
  caregiver_db w = caregiver_db w0 ->
  DB.get (shift_db w) (Shift.id shift) = Some current ->
  Shift.role_required current = Shift.role_required shift ->
  resume (Arrived (fst a) (snd a)) w
  = (record [ParseIntent (InboundMessage.body (fst a))] w,
     Awaiting (fst a) (snd a) caregiver current).
Proof.
  intros (Hk & Hsender & Hr & Hi) Hpool Hcur Hrole.
  cbn [resume]. unfold receive_message_before_await.
  unfold sender in Hsender. rewrite Hpool, Hsender, Hk, Hcur, Hrole, Hr.
  now rewrite String.eqb_refl.
Qed.

Lemma resume_awaiting_loses a caregiver held current state c w :
  accept_attempt w0 shift a caregiver ->
  DB.get (shift_db w) (Shift.id shift) = Some current ->
  Shift.id current = Shift.id shift ->
  DB.get (fanout_db w) (Shift.id shift) = Some state ->
  ShiftFanoutState.claimed_caregiver_id state = Some c ->
  resume (Awaiting (fst a) (snd a) caregiver held) w = (w, lost shift c).
Proof.
  intros (Hk & Hsender & Hr & Hi) Hcur Hid Hf Hc.
  cbn [resume]. unfold receive_message_after_await, bind, read.
  rewrite Hk, Hcur, Hi. rewrite <- Hid in Hf.
  rewrite (resolve_accept_claimed _ _ _ _ _ _ _ Hf Hc).
  unfold lost. now rewrite Hid.
Qed.

Lemma resume_awaiting_wins a caregiver held current w :
  accept_attempt w0 shift a caregiver ->
  DB.get (shift_db w) (Shift.id shift) = Some current ->
  Shift.id current = Shift.id shift ->
  unclaimed (Shift.id shift) w ->
  snd (resume (Awaiting (fst a) (snd a) caregiver held) w)
  = won shift (Caregiver.id caregiver)
  /\ caregiver_db (fst (resume (Awaiting (fst a) (snd a) caregiver held) w))
     = caregiver_db w
  /\ DB.get
       (shift_db (fst (resume (Awaiting (fst a) (snd a) caregiver held) w)))
       (Shift.id shift)
     = Some (Shift.set_claimed_by_caregiver_id current
               (Some (Caregiver.id caregiver)))
  /\ exists state,
       DB.get
         (fanout_db (fst (resume (Awaiting (fst a) (snd a) caregiver held) w)))
         (Shift.id shift) = Some state
       /\ ShiftFanoutState.claimed_caregiver_id state
          = Some (Caregiver.id caregiver).
Proof.
  intros (Hk & Hsender & Hr & Hi) Hcur Hid Hu.
  cbn [resume]. unfold receive_message_after_await, bind, read.
  rewrite Hk, Hcur, Hi.
  assert (Hnone : ShiftFanoutState.claimed_caregiver_id
                    (current_state (Shift.id current) (snd a) w) = None).
  { rewrite Hid. unfold current_state, unclaimed in *.
    destruct (DB.get (fanout_db w) (Shift.id shift)); auto. }
  rewrite (resolve_accept_wins (fst a) (snd a) caregiver current w Hnone).
  cbn [fst snd caregiver_db shift_db fanout_db]. rewrite Hid.
  split; [reflexivity|]. split; [reflexivity|].
  split; [apply get_put_same|].
  eexists. split; [apply get_put_same|reflexivity].
Qed.

Lemma attempt_sender a c c' :
  accept_attempt w0 shift a c -> accept_attempt w0 shift a c' -> c = c'.
Proof.
  intros (_ & H & _) (_ & H' & _). congruence.
Qed.

Lemma racing_step seen i w tasks :
  racing w0 shift attempts seen w tasks ->
  ~ In i seen ->
  racing w0 shift attempts (i :: seen)
    (fst (resume_nth i tasks w)) (snd (resume_nth i tasks w)).
Proof.
  intros (Hc & Hs & Hf & Hl & Hn) Hnew.
  destruct (resume_nth_nth i tasks w) as (Ew & El & En).
  assert (Hw : caregiver_db (fst (resume_nth i tasks w)) = caregiver_db w0
               /\ shift_db (fst (resume_nth i tasks w)) = shift_db w0
               /\ fanout_db (fst (resume_nth i tasks w)) = fanout_db w0
               /\ forall a, nth_error attempts i = Some a ->
                    exists caregiver,
                      accept_attempt w0 shift a caregiver
                      /\ option_map (fun t => snd (resume t w))
                           (nth_error tasks i)
                         = Some (Awaiting (fst a) (snd a) caregiver shift)).
  { rewrite Ew. destruct (nth_error attempts i) as [a|] eqn:Ha.
    - destruct (Hn i a Ha) as (t & Ht & Hst).
      destruct (in_dec Nat.eq_dec i seen); [contradiction|]. subst t.
      pose proof (proj1 (Forall_forall _ _) eligible_attempts a
                    (nth_error_In _ _ Ha)) as (cg & Hcg).
      rewrite Ht. cbn [option_map].
      rewrite (resume_arrived a cg shift w Hcg Hc) by (rewrite ?Hs; auto).
      cbn. repeat split; auto. intros a' [= <-]. eauto.
    - apply nth_error_None in Ha. rewrite <- Hl in Ha.
      apply nth_error_None in Ha. rewrite Ha.
      repeat split; auto. discriminate. }
  destruct Hw as (Hc' & Hs' & Hf' & Hi).
  repeat split; auto; [congruence|].
  intros j a Ha. rewrite En.
  destruct (Nat.eqb_spec j i) as [->|Hne].
  - destruct (Hi a Ha) as (cg & Hcg & ->).
    eexists. split; [reflexivity|].
    destruct (in_dec Nat.eq_dec i (i :: seen)) as [_|N]; [eauto|].
    exfalso. apply N. now left.
  - destruct (Hn j a Ha) as (t & Ht & Hst). exists t. split; [exact Ht|].
    destruct (in_dec Nat.eq_dec j seen) as [Hin|Hout];
      destruct (in_dec Nat.eq_dec j (i :: seen)) as [Hin'|Hout']; auto.
    + exfalso. apply Hout'. now right.
    + destruct Hin' as [E|Hin']; [congruence|contradiction].
Qed.

Lemma racing_run before :
  forall seen w tasks,
    racing w0 shift attempts seen w tasks ->
    NoDup before ->
    (forall i, In i before -> ~ In i seen) ->
    racing w0 shift attempts (rev before ++ seen)
      (fst (event_loop before tasks w)) (snd (event_loop before tasks w)).
Proof.
  induction before as [|i before IH]; intros seen w tasks H ND Hd;
    cbn [event_loop rev app]; [exact H|].
  inversion ND as [|? ? Hni ND']; subst.
  pose proof (racing_step seen i w tasks H (Hd i (or_introl eq_refl))) as H1.
  destruct (resume_nth i tasks w) as [w1 tasks1]. cbn [fst snd] in *.
  rewrite <- app_assoc. cbn [app]. apply IH; auto.
  intros j Hj [<-|Hs]; [contradiction|].
  apply (Hd j); [now right|exact Hs].
Qed.
Lemma racing_decides seen k a winner w tasks :
  racing w0 shift attempts seen w tasks ->
  In k seen ->
  nth_error attempts k = Some a ->
  accept_attempt w0 shift a winner ->
  decided w0 shift attempts k winner
    (fst (resume_nth k tasks w)) (snd (resume_nth k tasks w)).
Proof.
  intros (Hc & Hs & Hf & Hl & Hn) Hk Ha Hwin.
  destruct (resume_nth_nth k tasks w) as (Ew & El & En).
  destruct (Hn k a Ha) as (t & Ht & Hst).
  destruct (in_dec Nat.eq_dec k seen) as [_|N]; [|contradiction].
  destruct Hst as (cg & Hcg & ->).
  assert (cg = winner) by (eapply attempt_sender; eauto). subst cg.
  rewrite Ht in Ew, En. cbn [option_map] in En.
  assert (Hcur : DB.get (shift_db w) (Shift.id shift) = Some shift)
    by (now rewrite Hs).
  assert (Hu : unclaimed (Shift.id shift) w)
    by (unfold unclaimed; rewrite Hf; exact free).
  destruct (resume_awaiting_wins a winner shift shift w Hwin Hcur eq_refl Hu)
    as (Rt & Rc & Rs & Rf).
  rewrite Rt in En. rewrite Ew.
  split; [now rewrite Rc|]. split; [eexists; split; [exact Rs|auto]|].
  split; [exact Rf|]. split; [congruence|].
  split; [now rewrite En, Nat.eqb_refl|].
  intros j a' Ha'. rewrite En.
  destruct (Nat.eqb_spec j k) as [->|Hne].
  - eexists. split; [reflexivity|]. reflexivity.
  - destruct (Hn j a' Ha') as (t & Htj & Hst). exists t. split; [exact Htj|].
    destruct (in_dec Nat.eq_dec j seen).
    + destruct Hst as (cg & Hcg' & ->). split; [now destruct a'|exact Hcg'].
    + subst t. now destruct a'.
Qed.

(** Once the shift is claimed, resuming a task changes no store: a task
    that starts goes to its await, a task at its await other than [k] gets
    the failure, an answered task stays. *)
Lemma resume_when_decided k winner i w tasks t a :
  decided w0 shift attempts k winner w tasks ->
  nth_error tasks i = Some t ->
  nth_error attempts i = Some a ->
  caregiver_db (fst (resume t w)) = caregiver_db w
  /\ shift_db (fst (resume t w)) = shift_db w
  /\ fanout_db (fst (resume t w)) = fanout_db w
  /\ stage (snd (resume t w)) = Nat.min 2 (S (stage t))
  /\ match snd (resume t w) with
     | Arrived msg env => a = (msg, env)
     | Awaiting msg env caregiver _ =>
         a = (msg, env) /\ accept_attempt w0 shift a caregiver
     | Answered _ =>
         snd (resume t w)
         = if Nat.eqb i k then won shift (Caregiver.id winner)
           else lost shift (Caregiver.id winner)
     end.
Proof.
  intros (Hc & (cur & Hcur & Hid & Hrole) & (st & Hst & Hcl) & Hl & Hk & Hn)
         Ht Ha.
  destruct (Hn i a Ha) as (t' & Ht' & Hm).
  rewrite Ht in Ht'. injection Ht' as <-.
  destruct t as [msg env|msg env cg held|r].
  - subst a.
    pose proof (proj1 (Forall_forall _ _) eligible_attempts _
                  (nth_error_In _ _ Ha)) as (cg & Hcg).
    pose proof (resume_arrived (msg, env) cg cur w Hcg Hc Hcur Hrole) as E.
    cbn [fst snd] in E. rewrite E. cbn. repeat split; apply Hcg.
  - destruct Hm as [-> Hcg].
    pose proof (resume_awaiting_loses (msg, env) cg held cur st _ w
                  Hcg Hcur Hid Hst Hcl) as E.
    cbn [fst snd] in E. rewrite E. cbn [fst snd stage].
    repeat split.
    destruct (Nat.eqb_spec i k) as [->|]; [|reflexivity].
    rewrite Hk in Ht. discriminate.
  - cbn [resume fst snd stage]. repeat split. exact Hm.
Qed.

Lemma decided_step k winner i w tasks :
  decided w0 shift attempts k winner w tasks ->
  decided w0 shift attempts k winner
    (fst (resume_nth i tasks w)) (snd (resume_nth i tasks w))
  /\ forall j t,
       nth_error tasks j = Some t ->
       exists t',
         nth_error (snd (resume_nth i tasks w)) j = Some t'
         /\ stage t' = if Nat.eqb j i then Nat.min 2 (S (stage t)) else stage t.
Proof.
  intros D.
  destruct (resume_nth_nth i tasks w) as (Ew & El & En).
  destruct (nth_error tasks i) as [t|] eqn:Ht.
  2:{ (* no such task: nothing runs *)
      pose proof D as (Hc & Hs & Hf & Hl & Hk & Hn).
      rewrite Ew. split.
      - repeat split; auto; [congruence| |].
        + rewrite En. destruct (Nat.eqb_spec k i); [congruence|exact Hk].
        + intros j a Ha. rewrite En.
          destruct (Nat.eqb_spec j i) as [->|]; [|now apply Hn].
          destruct (Hn i a Ha) as (t & Ht' & _). congruence.
      - intros j t Hj. rewrite En.
        destruct (Nat.eqb_spec j i) as [->|]; [congruence|eauto]. }
  assert (Ha : exists a, nth_error attempts i = Some a).
  { destruct D as (_ & _ & _ & Hl & _).
    destruct (nth_error attempts i) as [a|] eqn:Ha; [eauto|].
    apply nth_error_None in Ha. rewrite <- Hl in Ha.
    apply nth_error_None in Ha. congruence. }
  destruct Ha as (a & Ha).
  destruct (resume_when_decided k winner i w tasks t a D Ht Ha)
    as (Rc & Rs & Rf & Rstage & Rm).
  destruct D as (Hc & Hs & Hf & Hl & Hk & Hn).
  rewrite Ew. cbn [option_map] in En. split.
  - split; [congruence|]. split; [now rewrite Rs|]. split; [now rewrite Rf|].
    split; [congruence|]. split.
    + rewrite En. destruct (Nat.eqb_spec k i) as [<-|]; [|exact Hk].
      rewrite Hk in Ht. injection Ht as <-. reflexivity.
    + intros j a' Ha'. rewrite En.
      destruct (Nat.eqb_spec j i) as [->|Hne]; [|now apply Hn].
      eexists. split; [reflexivity|].
      rewrite Ha in Ha'. injection Ha' as <-. exact Rm.
  - intros j tj Hj. rewrite En.
    destruct (Nat.eqb_spec j i) as [->|Hne]; [|eauto].
    eexists. split; [reflexivity|]. congruence.
Qed.

Lemma decided_run k winner after :
  forall w tasks,
    decided w0 shift attempts k winner w tasks ->
    decided w0 shift attempts k winner
      (fst (event_loop after tasks w)) (snd (event_loop after tasks w))
    /\ forall j t,
         nth_error tasks j = Some t ->
         exists t',
           nth_error (snd (event_loop after tasks w)) j = Some t'
           /\ stage t' = Nat.min 2 (stage t + count_occ Nat.eq_dec after j).
Proof.
  induction after as [|i after IH]; intros w tasks H; cbn [event_loop].
  - split; [exact H|]. intros j t Hj. exists t. split; [exact Hj|].
    cbn. destruct t; cbn; lia.
  - destruct (decided_step k winner i w tasks H) as [H1 S1].
    destruct (resume_nth i tasks w) as [w1 tasks1]. cbn [fst snd] in *.
    destruct (IH w1 tasks1 H1) as [H2 S2].
    split; [exact H2|]. intros j t Hj.
    destruct (S1 j t Hj) as (t1 & Hj1 & E1).
    destruct (S2 j t1 Hj1) as (t2 & Hj2 & E2).
    exists t2. split; [exact Hj2|]. rewrite E2, E1. cbn [count_occ].
    destruct (Nat.eqb_spec j i) as [->|Hne].
    + destruct (Nat.eq_dec i i); [|congruence]. lia.
    + destruct (Nat.eq_dec i j); [congruence|]. lia.
Qed.
End Race.

Lemma event_loop_app before after :
  forall tasks w,
    event_loop (before ++ after) tasks w
    = event_loop after (snd (event_loop before tasks w))
        (fst (event_loop before tasks w)).
Proof.
  induction before as [|i before IH]; intros tasks w; cbn [event_loop app];
    [reflexivity|].
  destruct (resume_nth i tasks w) as [w1 tasks1]. apply IH.
Qed.

(** C2.  Any number of ACCEPT attempts from
    eligible caregivers on one unclaimed shift are in flight, and the event
    loop resumes their handlers in any order [before ++ k :: after] that runs
    each of them to its end; task [k] is the first to be resumed after its
    await, that is the first to reach the test-and-set.  Then the attempt of
    task [k] is answered with the success, and every other attempt with the
    failure "Shift already claimed" naming the sender of attempt [k]. *)
Theorem first_writer_wins :
  forall (w : World) (shift : Shift.t)
         (attempts : list (InboundMessage.t * Env))
         (before after : list nat) (k : nat)
         (a : InboundMessage.t * Env) (winner : Caregiver.t),
    DB.get (shift_db w) (Shift.id shift) = Some shift ->
    unclaimed (Shift.id shift) w ->
    Forall (fun a => exists caregiver, accept_attempt w shift a caregiver)
           attempts ->
    NoDup before -> In k before ->
    nth_error attempts k = Some a ->
    accept_attempt w shift a winner ->
    (forall i, (i < length attempts)%nat ->
               (2 <= count_occ Nat.eq_dec (before ++ k :: after) i)%nat) ->
    snd (event_loop (before ++ k :: after)
           (map (fun a => Arrived (fst a) (snd a)) attempts) w)
    = map (fun j => if Nat.eqb j k then won shift (Caregiver.id winner)
                    else lost shift (Caregiver.id winner))
          (seq 0 (length attempts)).
Proof.
  intros w shift attempts before after k a winner Hs Hu Hatt ND Hk Ha Hwin Hall.
  set (tasks0 := map (fun a => Arrived (fst a) (snd a)) attempts).
  assert (R0 : racing w shift attempts [] w tasks0).
  { repeat split; [apply length_map|].
    intros j a' Ha'. unfold tasks0. rewrite nth_error_map, Ha'.
    eexists. split; reflexivity. }
  pose proof (racing_run w shift attempts Hs Hatt before [] w tasks0 R0 ND
                (fun _ _ H => H)) as R1.
  rewrite app_nil_r in R1.
  rewrite event_loop_app. cbn [event_loop].
  destruct (event_loop before tasks0 w) as [w1 tasks1]. cbn [fst snd] in *.
  assert (Hk' : In k (rev before)) by now apply in_rev in Hk.
  pose proof (racing_decides w shift attempts Hs Hu (rev before) k a winner
                w1 tasks1 R1 Hk' Ha Hwin) as D2.
  pose proof (resume_nth_nth k tasks1 w1) as (_ & _ & E2).
  destruct (resume_nth k tasks1 w1) as [w2 tasks2]. cbn [fst snd] in *.
  destruct (decided_run w shift attempts Hatt k winner after w2 tasks2 D2)
    as [D3 S3].
  destruct (event_loop after tasks2 w2) as [w3 tasks3]. cbn [fst snd] in *.
  destruct D3 as (_ & _ & _ & Hl3 & _ & Hn3).
  apply nth_error_ext. intros j.
  rewrite nth_error_map, nth_error_seq. cbn [Nat.add].
  destruct (Nat.ltb_spec j (length attempts)) as [Hlt|Hge]; cbn [option_map].
  2:{ apply nth_error_None. lia. }
  destruct (nth_error attempts j) as [aj|] eqn:Haj;
    [|apply nth_error_None in Haj; lia].
  destruct (Hn3 j aj Haj) as (t3 & Ht3 & Hm3). rewrite Ht3. f_equal.
  (* task [j] has been run to its end *)
  assert (Hstage : stage t3 = 2%nat).
  { destruct R1 as (_ & _ & _ & _ & Hn1).
    destruct (Hn1 j aj Haj) as (t1 & Ht1 & Hst1).
    specialize (E2 j). specialize (Hall j Hlt).
    rewrite count_occ_app in Hall. cbn [count_occ] in Hall.
    destruct (Nat.eqb_spec j k) as [->|Hne].
    - destruct (Nat.eq_dec k k); [|congruence].
      destruct D2 as (_ & _ & _ & _ & Hk2 & _).
      destruct (S3 k _ Hk2) as (t' & Ht' & Hs').
      rewrite Ht3 in Ht'. injection Ht' as <-. rewrite Hs'. cbn. lia.
    - destruct (Nat.eq_dec k j); [congruence|].
      rewrite Ht1 in E2.
      destruct (S3 j t1 E2) as (t' & Ht' & Hs').
      rewrite Ht3 in Ht'. injection Ht' as <-. rewrite Hs'.
      destruct (in_dec Nat.eq_dec j (rev before)) as [Hin|Hout].
      + destruct Hst1 as (cg & _ & ->). cbn [stage].
        apply in_rev in Hin.
        rewrite (proj1 (NoDup_count_occ' Nat.eq_dec before) ND j Hin) in Hall.
        lia.
      + subst t1. cbn [stage].
        assert (Hnot : ~ In j before)
          by (intros H; apply Hout; apply in_rev in H; exact H).
        apply (count_occ_not_In Nat.eq_dec) in Hnot. lia. }
  destruct t3; try discriminate. exact Hm3.
Qed.

Lemma first_writer_wins_witness :
  snd (event_loop [1; 0; 2; 2; 0; 1]%nat
         [Arrived (Fixture.yes "+15553333") (Fixture.at_time Fixture.t0);
          Arrived (Fixture.yes "+15551111") (Fixture.at_time Fixture.t0);
          Arrived (InboundMessage.mk "+15553333" "s1" "Accept please")
            (Fixture.at_time Fixture.t0)]
         Fixture.clean_db)
  = [lost Fixture.s1 "c3"; lost Fixture.s1 "c3"; won Fixture.s1 "c3"].
Proof.
  refine (first_writer_wins Fixture.clean_db Fixture.s1
            [(Fixture.yes "+15553333", Fixture.at_time Fixture.t0);
             (Fixture.yes "+15551111", Fixture.at_time Fixture.t0);
             (InboundMessage.mk "+15553333" "s1" "Accept please",
              Fixture.at_time Fixture.t0)]
            [1; 0; 2]%nat [0; 1]%nat 2%nat _ Fixture.c3
            eq_refl I _ _ _ eq_refl _ _).
  - repeat constructor.
    + exists Fixture.c3. repeat split.
    + exists Fixture.c1. repeat split.
    + exists Fixture.c3. repeat split.
  - repeat constructor; cbn; intuition discriminate.
  - cbn. auto.
  - repeat split.
  - intros [|[|[|i]]] Hi; cbn in *; lia.
Defined.

(** * Further properties of the handlers *)

(** ** Requests about what is not there *)




(** X2.  [receive_message] looks for the caregiver first and for the shift
    second: an unknown phone is answered with 404 "Caregiver not found"
    whether or not the shift exists, a known phone on an unknown shift with
    404 "Shift not found"; in both cases the world is left as it is and the
    classifier is not called.  The handler raises no HTTP error otherwise. *)
Theorem receive_message_http_error :
  forall (msg : InboundMessage.t) (env : Env) (w : World),
    (sender w msg = None ->
     receive_message msg env w = (w, HTTPException 404 "Caregiver not found"))
    /\ (forall caregiver,
          sender w msg = Some caregiver ->
          DB.get (shift_db w) (InboundMessage.shift_id msg) = None ->
          receive_message msg env w
          = (w, HTTPException 404 "Shift not found"))
    /\ (forall status detail,
          snd (receive_message msg env w) = HTTPException status detail ->
          sender w msg = None
          \/ DB.get (shift_db w) (InboundMessage.shift_id msg) = None).
Proof.
  intros msg env w. split; [apply receive_message_unknown_caregiver|].
  split; [intros cg; apply receive_message_shift_not_found|].
  intros status detail H.
  destruct (sender w msg) as [cg|] eqn:Hc; [|now left].
  destruct (DB.get (shift_db w) (InboundMessage.shift_id msg)) as [sh|] eqn:Hs;
    [|now right].
  exfalso. revert H.
  destruct (String.eqb_spec (Shift.role_required sh) (Caregiver.role cg))
    as [He|He].
  2:{ now rewrite (receive_message_ineligible _ _ _ _ Hc _ Hs He). }
  destruct (parse_shift_request_message_intent env (InboundMessage.body msg))
    eqn:Hi.
  - destruct (ShiftFanoutState.claimed_caregiver_id
                (current_state (Shift.id sh) env w)) as [c|] eqn:Hcl.
    + unfold current_state in Hcl.
      destruct (DB.get (fanout_db w) (Shift.id sh)) as [st|] eqn:Hf;
        [|discriminate].
      now rewrite (receive_message_already_claimed _ _ _ _ Hc _ Hs He Hi
                     _ _ Hf Hcl).
    + now rewrite (receive_message_wins _ _ _ _ Hc _ Hs He Hi Hcl).
  - now rewrite (receive_message_decline _ _ _ _ Hc _ Hs He Hi).
  - now rewrite (receive_message_unknown _ _ _ _ Hc _ Hs He Hi).
Qed.

Lemma receive_message_http_error_witness :
  receive_message (InboundMessage.mk "+19999999" "s2" "Yes")
    (Fixture.at_time Fixture.t0) Fixture.clean_db
  = (Fixture.clean_db, HTTPException 404 "Caregiver not found")
  /\ receive_message (InboundMessage.mk "+15551111" "s2" "Yes")
       (Fixture.at_time Fixture.t0) Fixture.clean_db
     = (Fixture.clean_db, HTTPException 404 "Shift not found").
Proof.
  split.
  - exact (proj1 (receive_message_http_error
                    (InboundMessage.mk "+19999999" "s2" "Yes")
                    (Fixture.at_time Fixture.t0) Fixture.clean_db) eq_refl).
  - exact (proj1 (proj2 (receive_message_http_error
                           (InboundMessage.mk "+15551111" "s2" "Yes")
                           (Fixture.at_time Fixture.t0) Fixture.clean_db))
             Fixture.c1 eq_refl eq_refl).
Defined.

(** ** What a request leaves alone *)

Lemma advance_started_at shift pool env state :
  ShiftFanoutState.started_at (advance shift pool env state)
  = ShiftFanoutState.started_at state.
Proof. apply (same_started_at _ _ (advance_evolves shift pool env state)). Qed.

(** X3.  The state a trigger returns is the state the fanout store holds for
    the shift when the handler returns, and its clock anchor is the one of
    the state that was there when the call came, or the clock reading of the
    creation if there was none: a trigger never restarts the clock of a
    fanout. *)
Theorem trigger_fanout_returns_stored_state :
  forall (key : string) (env : Env) (w w' : World)
         (state' : ShiftFanoutState.t),
    trigger_fanout key env w = (w', Return state') ->
    DB.get (fanout_db w') key = Some state'
    /\ ShiftFanoutState.started_at state'
       = match DB.get (fanout_db w) key with
         | Some state => ShiftFanoutState.started_at state
         | None => now_at_creation env
         end.
Proof.
  intros key env w w' state' H.
  destruct (DB.get (shift_db w) key) as [shift|] eqn:Hs.
  2:{ rewrite trigger_fanout_not_found in H by assumption. discriminate. }
  pose proof (trigger_fanout_state key env w shift Hs) as Hf.
  rewrite H in Hf. cbn [fst] in Hf.
  rewrite (trigger_fanout_denotation _ _ _ _ Hs) in H.
  injection H as _ Hr. apply fanout_result_return in Hr.
  destruct Hr as [-> _]. split; [exact Hf|].
  rewrite advance_started_at. unfold current_state.
  destruct (DB.get (fanout_db w) key); auto.
Qed.

Lemma trigger_fanout_returns_stored_state_witness :
  let w := step (Fanout "s1" (Fixture.at_time Fixture.t0)) Fixture.clean_db in
  let env := Fixture.at_time (Fixture.t0 + timedelta_minutes 10) in
  exists state',
    DB.get (fanout_db (fst (trigger_fanout "s1" env w))) "s1" = Some state'
    /\ ShiftFanoutState.started_at state' = Fixture.t0.
Proof.
  intros w env. eexists.
  exact (trigger_fanout_returns_stored_state "s1" env w _ _ eq_refl).
Defined.

(** X4.  A trigger touches nothing but the fanout state of its shift: the
    caregivers, the shifts and the fanout states of the other shifts are as
    before, and so is the claimant of its own fanout state. *)
Theorem trigger_fanout_frame :
  forall (key : string) (env : Env) (w : World),
    let w' := fst (trigger_fanout key env w) in
    caregiver_db w' = caregiver_db w
    /\ shift_db w' = shift_db w
    /\ (forall other, other <> key ->
          DB.get (fanout_db w') other = DB.get (fanout_db w) other)
    /\ fanout_claim w' key = fanout_claim w key.
Proof.
  intros key env w w'. subst w'.
  destruct (trigger_fanout_stores key env w) as [Hc Hs].
  split; [exact Hc|]. split; [exact Hs|].
  split; [intros other Hne; now apply trigger_fanout_other_states|].
  unfold fanout_claim.
  destruct (DB.get (shift_db w) key) as [shift|] eqn:Hsh.
  - rewrite (trigger_fanout_state _ _ _ _ Hsh), advance_claimed.
    unfold current_state. destruct (DB.get (fanout_db w) key); reflexivity.
  - now rewrite trigger_fanout_not_found.
Qed.

Lemma receive_message_trace msg env w :
  exists new,
    trace (fst (receive_message msg env w)) = trace w ++ new
    /\ filter is_notification new = [].
Proof.
  assert (same : forall r,
             receive_message msg env w = (w, r) ->
             exists new,
               trace (fst (receive_message msg env w)) = trace w ++ new
               /\ filter is_notification new = []).
  { intros r E. exists []. rewrite E. cbn. now rewrite app_nil_r. }
  assert (parsed : forall r,
             receive_message msg env w
             = (record [ParseIntent (InboundMessage.body msg)] w, r) ->
             exists new,
               trace (fst (receive_message msg env w)) = trace w ++ new
               /\ filter is_notification new = []).
  { intros r E. eexists. rewrite E. cbn. split; reflexivity. }
  destruct (sender w msg) as [cg|] eqn:Hc.
  2:{ eapply same. now apply receive_message_unknown_caregiver. }
  destruct (DB.get (shift_db w) (InboundMessage.shift_id msg)) as [sh|] eqn:Hs.
  2:{ eapply same. exact (receive_message_shift_not_found _ _ _ _ Hc Hs). }
  destruct (String.eqb_spec (Shift.role_required sh) (Caregiver.role cg))
    as [He|He].
  2:{ eapply same. exact (receive_message_ineligible _ _ _ _ Hc _ Hs He). }
  destruct (parse_shift_request_message_intent env (InboundMessage.body msg))
    eqn:Hi.
  - destruct (ShiftFanoutState.claimed_caregiver_id
                (current_state (Shift.id sh) env w)) as [c|] eqn:Hcl.
    + unfold current_state in Hcl.
      destruct (DB.get (fanout_db w) (Shift.id sh)) as [st|] eqn:Hf;
        [|discriminate].
      eapply parsed.
      exact (receive_message_already_claimed _ _ _ _ Hc _ Hs He Hi _ _ Hf Hcl).
    + rewrite (receive_message_wins _ _ _ _ Hc _ Hs He Hi Hcl). cbn [fst trace].
      eexists. split; [reflexivity|].
      destruct (is_created (Shift.id sh) w); reflexivity.
  - eapply parsed. exact (receive_message_decline _ _ _ _ Hc _ Hs He Hi).
  - eapply parsed. exact (receive_message_unknown _ _ _ _ Hc _ Hs He Hi).
Qed.

Lemma set_claimed_same state :
  ShiftFanoutState.set_claimed_caregiver_id state
    (ShiftFanoutState.claimed_caregiver_id state) = state.
Proof. now destruct state. Qed.

(** X5.  An inbound message sends nothing and never touches the progress of
    a fanout: the pool is as before, the trace gains no SMS and no call, and
    of a fanout state that was there only the claimant may have changed (the
    clock anchor, both notified lists and the escalation flag are as
    before). *)
Theorem receive_message_frame :
  forall (msg : InboundMessage.t) (env : Env) (w : World),
    let w' := fst (receive_message msg env w) in
    caregiver_db w' = caregiver_db w
    /\ (exists new,
          trace w' = trace w ++ new /\ filter is_notification new = [])
    /\ forall key state,
         DB.get (fanout_db w) key = Some state ->
         exists claimant,
           DB.get (fanout_db w') key
           = Some (ShiftFanoutState.set_claimed_caregiver_id state claimant).
Proof.
  intros msg env w w'. subst w'.
  split; [now destruct (receive_message_effect msg env w)|].
  split; [apply receive_message_trace|].
  intros key state Hf.
  destruct (receive_message_effect msg env w)
    as [_ _ E _|cg sh _ Hs _ Hcl _ _ E]; rewrite E.
  - eexists. now rewrite set_claimed_same.
  - destruct (String.eqb_spec (Shift.id sh) key) as [Hk|Hne].
    + rewrite Hk in *. rewrite get_put_same.
      unfold current_state. rewrite Hf. eauto.
    + rewrite get_put_other by assumption.
      eexists. now rewrite set_claimed_same.
Qed.

(** ** The fanout state along a run *)

(** X6.  Whatever happens after a fanout state exists (triggers, inbound
    messages, caregivers joining the pool), the state stays in the store
    under its key, with the shift id and the clock anchor it had, and each of
    its notified lists is the list it was with ids appended: no id is ever
    removed or moved. *)
Theorem fanout_state_only_grows :
  forall (steps : list Step) (w : World) (key : string)
         (state : ShiftFanoutState.t),
    DB.get (fanout_db w) key = Some state ->
    exists state' sms_added call_added,
      DB.get (fanout_db (run steps w)) key = Some state'
      /\ ShiftFanoutState.shift_id state' = ShiftFanoutState.shift_id state
      /\ ShiftFanoutState.started_at state' = ShiftFanoutState.started_at state
      /\ ShiftFanoutState.sms_notified_caregiver_ids state'
         = ShiftFanoutState.sms_notified_caregiver_ids state ++ sms_added
      /\ ShiftFanoutState.call_notified_caregiver_ids state'
         = ShiftFanoutState.call_notified_caregiver_ids state ++ call_added.
Proof.
  intros steps w key state Hf.
  destruct (run_fanout_evolves steps w key state Hf)
    as (state' & Hf' & [Hid Hst [a Ha] [b Hb] _ _]).
  exists state', a, b. auto.
Qed.

Lemma fanout_state_only_grows_witness :
  let w := step (Fanout "s1" (Fixture.at_time Fixture.t0)) Fixture.clean_db in
  let w' :=
    run [AddCaregiver (Caregiver.mk "c4" "Dan" "RN" "+15554444");
         Fanout "s1" (Fixture.at_time (Fixture.t0 + timedelta_minutes 10));
         Inbound (Fixture.yes "+15554444") (Fixture.at_time Fixture.t0)] w in
  exists state' sms_added call_added,
    DB.get (fanout_db w') "s1" = Some state'
    /\ ShiftFanoutState.shift_id state' = "s1"
    /\ ShiftFanoutState.started_at state' = Fixture.t0
    /\ ShiftFanoutState.sms_notified_caregiver_ids state'
       = ["c1"; "c3"] ++ sms_added
    /\ ShiftFanoutState.call_notified_caregiver_ids state'
       = [] ++ call_added.
Proof.
  intros w w'.
  exact (fanout_state_only_grows
           [AddCaregiver (Caregiver.mk "c4" "Dan" "RN" "+15554444");
            Fanout "s1" (Fixture.at_time (Fixture.t0 + timedelta_minutes 10));
            Inbound (Fixture.yes "+15554444") (Fixture.at_time Fixture.t0)]
           w "s1"
           (ShiftFanoutState.mk "s1" Fixture.t0 ["c1"; "c3"] [] None false)
           eq_refl).
Defined.

Lemma notify_round_NoDup message cs :
  forall notified,
    NoDup notified -> NoDup (fst (notify_round message cs notified)).
Proof.
  induction cs as [|c cs IH]; intros notified ND; cbn; [exact ND|].
  destruct (mem (Caregiver.id c) notified) eqn:E; [now apply IH|].
  assert (ND' : NoDup (notified ++ [Caregiver.id c])).
  { apply NoDup_app; [exact ND|repeat constructor; cbn; tauto|].
    intros x Hx [<-|[]]. apply mem_false in E. contradiction. }
  specialize (IH _ ND').
  destruct (notify_round message cs (notified ++ [Caregiver.id c])).
  exact IH.
Qed.

Lemma advance_NoDup shift pool env state :
  NoDup (ShiftFanoutState.sms_notified_caregiver_ids state) ->
  NoDup (ShiftFanoutState.call_notified_caregiver_ids state) ->
  NoDup (ShiftFanoutState.sms_notified_caregiver_ids
           (advance shift pool env state))
  /\ NoDup (ShiftFanoutState.call_notified_caregiver_ids
              (advance shift pool env state)).
Proof.
  intros Hs Hc. unfold advance, sms_round, call_round.
  destruct (truthy _); [auto|].
  destruct (all_complete _ _); [destruct (escalation_due _ _)|]; cbn;
    auto using notify_round_NoDup.
Qed.

Lemma current_state_ok key env w :
  fanout_store_ok w ->
  ShiftFanoutState.shift_id (current_state key env w) = key
  /\ NoDup (ShiftFanoutState.sms_notified_caregiver_ids
              (current_state key env w))
  /\ NoDup (ShiftFanoutState.call_notified_caregiver_ids
              (current_state key env w)).
Proof.
  intros Hok. unfold current_state.
  destruct (DB.get (fanout_db w) key) as [st|] eqn:Hf; [now apply Hok|].
  cbn. repeat split; constructor.
Qed.

Lemma step_fanout_store_ok s w :
  fanout_store_ok w -> fanout_store_ok (step s w).
Proof.
  intros Hok. destruct s as [k env|msg env|c]; cbn [step]; intros key state.
  - destruct (String.eqb_spec key k) as [->|Hne].
    + destruct (DB.get (shift_db w) k) as [sh|] eqn:Hs.
      * rewrite (trigger_fanout_state _ _ _ _ Hs). intros [= <-].
        destruct (current_state_ok k env w Hok) as (Hid & N1 & N2).
        split; [|now apply advance_NoDup].
        now rewrite (same_shift_id _ _ (advance_evolves sh
                       (DB.all (caregiver_db w)) env (current_state k env w))).
      * rewrite trigger_fanout_not_found by assumption. apply Hok.
    + rewrite trigger_fanout_other_states by assumption. apply Hok.
  - destruct (receive_message_effect msg env w)
      as [_ _ E _|cg sh _ Hs _ Hcl _ _ E]; rewrite E; [apply Hok|].
    destruct (String.eqb_spec (Shift.id sh) key) as [Hk|Hne].
    + rewrite Hk. rewrite get_put_same. intros [= <-]. cbn.
      rewrite <- Hk. now apply current_state_ok.
    + rewrite get_put_other by assumption. apply Hok.
  - apply Hok.
Qed.

(** X7.  Every operation keeps the fanout store in order: each state is
    stored under the shift id it carries, and neither notified list ever
    holds an id twice, however often the triggers are repeated and whoever
    joins the pool. *)
Theorem fanout_store_stays_ok :
  forall (steps : list Step) (w : World),
    fanout_store_ok w -> fanout_store_ok (run steps w).
Proof.
  induction steps as [|s steps IH]; intros w Hok; cbn [run]; auto.
  apply IH, step_fanout_store_ok, Hok.
Qed.

Lemma fanout_store_ok_empty w : fanout_db w = DB.empty -> fanout_store_ok w.
Proof. intros E key state. rewrite E. discriminate. Qed.

Lemma fanout_store_stays_ok_witness :
  let w :=
    run [Fanout "s1" (Fixture.at_time Fixture.t0);
         AddCaregiver (Caregiver.mk "c4" "Dan" "RN" "+15554444");
         Fanout "s1" (Fixture.at_time Fixture.t0);
         Fanout "s1" (Fixture.at_time (Fixture.t0 + timedelta_minutes 10));
         Fanout "s1" (Fixture.at_time (Fixture.t0 + timedelta_minutes 11))]
      Fixture.clean_db in
  exists state,
    DB.get (fanout_db w) "s1" = Some state
    /\ ShiftFanoutState.shift_id state = "s1"
    /\ NoDup (ShiftFanoutState.sms_notified_caregiver_ids state)
    /\ NoDup (ShiftFanoutState.call_notified_caregiver_ids state).
Proof.
  intros w. eexists. split; [reflexivity|].
  exact (fanout_store_stays_ok
           [Fanout "s1" (Fixture.at_time Fixture.t0);
            AddCaregiver (Caregiver.mk "c4" "Dan" "RN" "+15554444");
            Fanout "s1" (Fixture.at_time Fixture.t0);
            Fanout "s1" (Fixture.at_time (Fixture.t0 + timedelta_minutes 10));
            Fanout "s1" (Fixture.at_time (Fixture.t0 + timedelta_minutes 11))]
           Fixture.clean_db (fanout_store_ok_empty Fixture.clean_db eq_refl)
           "s1" _ eq_refl).
Defined.

(** ** Who is notified *)

Lemma fanout_events_dispatched key shift pool env created state :
  Forall (dispatched_by key shift pool state)
         (fanout_events key shift pool env created state).
Proof.
  assert (Hsms : Forall (dispatched_by key shift pool state)
                   (round_events SendSms (snd (sms_round shift pool state)))).
  { apply Forall_forall. intros e He. unfold round_events in He.
    apply in_map_iff in He. destruct He as (t & <- & Ht).
    apply notify_round_tasks_origin in Ht.
    destruct Ht as (c & Hc & Hn & ->). cbn. eauto. }
  assert (Hcall : Forall (dispatched_by key shift pool state)
                    (round_events PlacePhoneCall
                       (snd (call_round shift pool
                               (ShiftFanoutState.set_sms_notified_caregiver_ids
                                  state (fst (sms_round shift pool state))))))).
  { apply Forall_forall. intros e He. unfold round_events in He.
    apply in_map_iff in He. destruct He as (t & <- & Ht).
    apply notify_round_tasks_origin in Ht.
    destruct Ht as (c & Hc & Hn & ->). cbn in *. eauto. }
  assert (Hput : Forall (dispatched_by key shift pool state)
                   [Put FanoutDb key])
    by (repeat constructor).
  unfold fanout_events. cbv zeta. apply Forall_app. split.
  { destruct created; [exact Hput|constructor]. }
  destruct (truthy _); [constructor|].
  apply Forall_app. split.
  - destruct (is_empty _); [constructor|].
    apply Forall_app. split; [exact Hsms|].
    destruct (all_complete (send_sms env) _); [exact Hput|constructor].
  - destruct (_ && _); [|constructor].
    apply Forall_app. split; [exact Hcall|].
    destruct (all_complete (place_phone_call env) _); [exact Hput|constructor].
Qed.

(** X8.  Whatever a trigger adds to the trace is an SMS or a call to an
    eligible caregiver of the pool (one whose role is the role the shift
    requires) who was not yet marked for that channel when the rounds
    started, carrying the text with the id of the shift, or a put of the
    fanout state under the shift's key.  A trigger never notifies an
    ineligible or an already notified caregiver, never calls the classifier
    and never writes the shift or caregiver store. *)
Theorem trigger_fanout_dispatch :
  forall (key : string) (env : Env) (w : World) (shift : Shift.t),
    DB.get (shift_db w) key = Some shift ->
    exists new,
      trace (fst (trigger_fanout key env w)) = trace w ++ new
      /\ Forall (dispatched_by key shift (DB.all (caregiver_db w))
                   (current_state key env w)) new.
Proof.
  intros key env w shift Hs.
  rewrite (trigger_fanout_denotation _ _ _ _ Hs). cbn [fst trace].
  eexists. split; [reflexivity|]. apply fanout_events_dispatched.
Qed.

Lemma trigger_fanout_dispatch_witness :
  let env := Fixture.at_time Fixture.t0 in
  exists new,
    trace (fst (trigger_fanout "s1" env Fixture.clean_db))
    = trace Fixture.clean_db ++ new
    /\ Forall (dispatched_by "s1" Fixture.s1
                 (DB.all (caregiver_db Fixture.clean_db))
                 (current_state "s1" env Fixture.clean_db)) new.
Proof.
  intros env.
  exact (trigger_fanout_dispatch "s1" env Fixture.clean_db Fixture.s1 eq_refl).
Defined.

Lemma fanout_events_sms key shift pool env created state c :
  NoDup (map Caregiver.id pool) ->
  truthy (ShiftFanoutState.claimed_caregiver_id state) = false ->
  In c (eligible shift pool) ->
  ~ In (Caregiver.id c) (ShiftFanoutState.sms_notified_caregiver_ids state) ->
  In (SendSms (Caregiver.phone c) (sms_message shift))
     (fanout_events key shift pool env created state).
Proof.
  intros ND Ht Hc Hn. unfold fanout_events. rewrite Ht. cbv zeta.
  pose proof (notify_round_tasks (sms_message shift) (eligible shift pool)
                _ c (eligible_distinct shift pool ND) Hc Hn) as Htask.
  fold (sms_round shift pool state) in Htask.
  apply in_or_app. right. apply in_or_app. left.
  destruct (is_empty (snd (sms_round shift pool state))) eqn:E.
  { apply is_empty_nil in E. rewrite E in Htask. destruct Htask. }
  apply in_or_app. left. now apply in_round_events.
Qed.

(** X9.  A trigger on a shift that is not claimed marks every eligible
    caregiver of the pool in the SMS list of the stored state, and (ids being
    distinct) hands an SMS with the text of the shift to the notifier for
    each of them who was not marked before, whether the handler then returns
    or a send raises. *)
Theorem trigger_fanout_reaches_every_eligible :
  forall (key : string) (env : Env) (w : World) (shift : Shift.t)
         (c : Caregiver.t),
    DB.get (shift_db w) key = Some shift ->
    distinct_caregiver_ids w ->
    truthy (ShiftFanoutState.claimed_caregiver_id (current_state key env w))
    = false ->
    In c (eligible shift (DB.all (caregiver_db w))) ->
    let w' := fst (trigger_fanout key env w) in
    (exists state',
       DB.get (fanout_db w') key = Some state'
       /\ In (Caregiver.id c)
             (ShiftFanoutState.sms_notified_caregiver_ids state'))
    /\ (~ In (Caregiver.id c)
             (ShiftFanoutState.sms_notified_caregiver_ids
                (current_state key env w)) ->
        In (SendSms (Caregiver.phone c) (sms_message shift)) (trace w')).
Proof.
  intros key env w shift c Hs Hd Ht Hc w'. subst w'. split.
  - rewrite (trigger_fanout_state _ _ _ _ Hs). eexists. split; [reflexivity|].
    now apply advance_marks_sms.
  - intros Hn. rewrite (trigger_fanout_denotation _ _ _ _ Hs). cbn [fst trace].
    apply in_or_app. right. now apply fanout_events_sms.
Qed.

Lemma trigger_fanout_reaches_every_eligible_witness :
  let w := fst (trigger_fanout "s1" (Fixture.unreachable "+15551111" Fixture.t0)
                  Fixture.clean_db) in
  (exists state',
     DB.get (fanout_db w) "s1" = Some state'
     /\ In "c3" (ShiftFanoutState.sms_notified_caregiver_ids state'))
  /\ In (SendSms "+15553333" "New shift available! ID: s1") (trace w).
Proof.
  intros w.
  destruct (trigger_fanout_reaches_every_eligible "s1"
              (Fixture.unreachable "+15551111" Fixture.t0) Fixture.clean_db
              Fixture.s1 Fixture.c3 eq_refl distinct_caregiver_ids_clean_db
              eq_refl) as [A B].
  - vm_compute. tauto.
  - split; [exact A|]. apply B. vm_compute. tauto.
Defined.

Lemma escalation_due_at_boundary env state ids :
  ShiftFanoutState.escalated_to_call state = false ->
  now_at_escalation_check env - ShiftFanoutState.started_at state
  >= timedelta_minutes 10 ->
  escalation_due env
    (ShiftFanoutState.set_sms_notified_caregiver_ids state ids) = true.
Proof.
  intros He Hge. unfold escalation_due. cbn. rewrite He.
  rewrite Z.geb_leb. cbn. rewrite andb_true_r. apply Z.leb_le. lia.
Qed.

(** X10.  The escalation broadens the net: in the trigger that escalates
    (shift not claimed, flag down, ten minutes or more on the clock, no SMS
    of the call failing), every eligible caregiver of the pool ends up marked
    in the call list, and a call with the urgent text is handed to the
    notifier for each of them who was not called before, whether or not they
    had been sent an SMS. *)
Theorem escalation_calls_every_eligible :
  forall (key : string) (env : Env) (w : World) (shift : Shift.t)
         (c : Caregiver.t),
    DB.get (shift_db w) key = Some shift ->
    distinct_caregiver_ids w ->
    let state := current_state key env w in
    let pool := DB.all (caregiver_db w) in
    truthy (ShiftFanoutState.claimed_caregiver_id state) = false ->
    ShiftFanoutState.escalated_to_call state = false ->
    now_at_escalation_check env - ShiftFanoutState.started_at state
    >= timedelta_minutes 10 ->
    all_complete (send_sms env) (snd (sms_round shift pool state)) = true ->
    In c (eligible shift pool) ->
    let w' := fst (trigger_fanout key env w) in
    (exists state',
       DB.get (fanout_db w') key = Some state'
       /\ ShiftFanoutState.escalated_to_call state' = true
       /\ In (Caregiver.id c)
             (ShiftFanoutState.call_notified_caregiver_ids state'))
    /\ (~ In (Caregiver.id c)
             (ShiftFanoutState.call_notified_caregiver_ids state) ->
        In (PlacePhoneCall (Caregiver.phone c) (call_message shift))
           (trace w')).
Proof.
  intros key env w shift c Hs Hd state pool Ht He Hge Hok Hc w'. subst w'.
  pose proof (escalation_due_at_boundary env state
                (fst (sms_round shift pool state)) He Hge) as Hdue.
  split.
  - rewrite (trigger_fanout_state _ _ _ _ Hs). fold state pool.
    eexists. split; [reflexivity|].
    unfold advance. rewrite Ht, Hok, Hdue. cbn. split; [reflexivity|].
    now apply notify_round_marks.
  - intros Hn. rewrite (trigger_fanout_denotation _ _ _ _ Hs). cbn [fst trace].
    fold state pool. unfold fanout_events. rewrite Ht, Hok, Hdue.
    cbn [andb]. cbv zeta.
    apply in_or_app. right. apply in_or_app. right.
    apply in_or_app. right. apply in_or_app. left.
    apply in_round_events.
    apply notify_round_tasks; auto. now apply eligible_distinct.
Qed.

Lemma escalation_calls_every_eligible_witness :
  let w := step (Fanout "s1" (Fixture.at_time Fixture.t0)) Fixture.clean_db in
  let env := Fixture.at_time (Fixture.t0 + timedelta_minutes 10) in
  let w' := fst (trigger_fanout "s1" env w) in
  (exists state',
     DB.get (fanout_db w') "s1" = Some state'
     /\ ShiftFanoutState.escalated_to_call state' = true
     /\ In "c1" (ShiftFanoutState.call_notified_caregiver_ids state'))
  /\ In (PlacePhoneCall "+15551111" "Urgent: Shift available! ID: s1")
        (trace w').
Proof.
  intros w env w'.
  assert (Hge : now_at_escalation_check env
                - ShiftFanoutState.started_at (current_state "s1" env w)
                >= timedelta_minutes 10) by (vm_compute; discriminate).
  assert (Hc : In Fixture.c1 (eligible Fixture.s1 (DB.all (caregiver_db w))))
    by (vm_compute; tauto).
  destruct (escalation_calls_every_eligible "s1" env w Fixture.s1 Fixture.c1
              eq_refl distinct_caregiver_ids_clean_db eq_refl eq_refl Hge
              eq_refl Hc) as [A B].
  split; [exact A|]. apply B. vm_compute. tauto.
Defined.

(** ** No notification twice *)

Lemma append_inj_r (p a b : string) : (p ++ a = p ++ b)%string -> a = b.
Proof.
  induction p as [|ch p IH]; cbn; [auto|]. intros [= H]. auto.
Qed.

Lemma sms_message_inj s s' :
  sms_message s = sms_message s' -> Shift.id s = Shift.id s'.
Proof. apply append_inj_r. Qed.

Lemma call_message_inj s s' :
  call_message s = call_message s' -> Shift.id s = Shift.id s'.
Proof. apply append_inj_r. Qed.

Lemma NoDup_map_same {A B} (f : A -> B) l x y :
  NoDup (map f l) -> In x l -> In y l -> f x = f y -> x = y.
Proof.
  induction l as [|a l IH]; cbn; [tauto|].
  intros ND. inversion ND as [|? ? Hn ND']; subst.
  intros [->|Hx] [->|Hy] E; auto.
  - exfalso. apply Hn. rewrite E. now apply in_map.
  - exfalso. apply Hn. rewrite <- E. now apply in_map.
Qed.

Lemma NoDup_map_filter {A B} (f : A -> B) (keep : A -> bool) l :
  NoDup (map f l) -> NoDup (map f (filter keep l)).
Proof.
  induction l as [|a l IH]; cbn; intros ND; auto.
  inversion ND as [|? ? Hn ND']; subst.
  destruct (keep a); cbn; auto.
  constructor; auto. intros Hin. apply Hn.
  apply in_map_iff in Hin. destruct Hin as (x & E & Hx).
  apply filter_In in Hx. apply in_map_iff. exists x. tauto.
Qed.

Lemma notify_round_tasks_NoDup message cs :
  forall notified,
    NoDup (map Caregiver.phone cs) ->
    NoDup (snd (notify_round message cs notified)).
Proof.
  induction cs as [|c cs IH]; intros notified ND; cbn; [constructor|].
  inversion ND as [|? ? Hn ND']; subst.
  destruct (mem (Caregiver.id c) notified); [now apply IH|].
  pose proof (IH (notified ++ [Caregiver.id c]) ND') as K.
  pose proof (notify_round_tasks_origin message cs
                (notified ++ [Caregiver.id c])) as O.
  destruct (notify_round message cs (notified ++ [Caregiver.id c]))
    as [ids tasks].
  cbn [snd] in *. constructor; [|exact K].
  intros Hin. destruct (O _ Hin) as (c' & Hc' & _ & E).
  injection E as E. apply Hn. rewrite E. now apply in_map.
Qed.

Lemma round_events_NoDup send tasks :
  (forall p m p' m', send p m = send p' m' -> p = p' /\ m = m') ->
  NoDup tasks -> NoDup (round_events send tasks).
Proof.
  intros Hinj. unfold round_events.
  induction 1 as [|[p m] tasks Hn _ IH]; cbn; constructor; [|exact IH].
  intros Hin. apply in_map_iff in Hin. destruct Hin as ([p' m'] & E & H').
  cbn in E. apply Hinj in E. destruct E as [-> ->]. contradiction.
Qed.

Lemma fanout_events_notifications key shift pool env created state :
  filter is_notification (fanout_events key shift pool env created state)
  = if truthy (ShiftFanoutState.claimed_caregiver_id state) then []
    else
      let state1 :=
        ShiftFanoutState.set_sms_notified_caregiver_ids state
          (fst (sms_round shift pool state)) in
      round_events SendSms (snd (sms_round shift pool state))
      ++ if all_complete (send_sms env) (snd (sms_round shift pool state))
            && escalation_due env state1
         then round_events PlacePhoneCall (snd (call_round shift pool state1))
         else [].
Proof.
  assert (Fs : forall tasks,
             filter is_notification (round_events SendSms tasks)
             = round_events SendSms tasks).
  { unfold round_events. induction tasks as [|t tasks IH]; cbn; congruence. }
  assert (Fc : forall tasks,
             filter is_notification (round_events PlacePhoneCall tasks)
             = round_events PlacePhoneCall tasks).
  { unfold round_events. induction tasks as [|t tasks IH]; cbn; congruence. }
  unfold fanout_events. cbv zeta. rewrite filter_app.
  replace (filter is_notification (if created then [Put FanoutDb key] else []))
    with (@nil Event) by (destruct created; reflexivity).
  cbn [app]. destruct (truthy _); [reflexivity|].
  rewrite filter_app. f_equal.
  - destruct (is_empty (snd (sms_round shift pool state))) eqn:E.
    + apply is_empty_nil in E. now rewrite E.
    + rewrite filter_app, Fs.
      destruct (all_complete (send_sms env) _); cbn; now rewrite app_nil_r.
  - destruct (_ && _); [|reflexivity].
    rewrite filter_app, Fc.
    destruct (all_complete (place_phone_call env) _); cbn;
      now rewrite app_nil_r.
Qed.

Lemma step_keeps_shift s w key shift :
  shifts_keyed_by_id w ->
  DB.get (shift_db w) key = Some shift ->
  exists shift',
    DB.get (shift_db (step s w)) key = Some shift'
    /\ Shift.id shift' = Shift.id shift
    /\ Shift.role_required shift' = Shift.role_required shift.
Proof.
  intros Hw Hs. destruct s as [k env|msg env|c]; cbn [step].
  - destruct (trigger_fanout_stores k env w) as [_ ->]. eauto.
  - destruct (receive_message_effect msg env w)
      as [_ E _ _|cg sh0 _ Hs0 _ _ _ E _]; rewrite E; eauto.
    pose proof (Hw _ _ Hs0) as Hid. rewrite Hid, put_put.
    destruct (String.eqb_spec (InboundMessage.shift_id msg) key) as [Hk|Hne].
    + rewrite Hk in *. rewrite get_put_same.
      assert (sh0 = shift) by congruence. subst sh0. eauto.
    + rewrite get_put_other by assumption. eauto.
  - eauto.
Qed.

Lemma step_accounted s w e :
  is_request s = true ->
  shifts_keyed_by_id w ->
  accounted w e -> accounted (step s w) e.
Proof.
  intros Hr Hw.
  assert (keep : forall key shift state c,
             DB.get (shift_db w) key = Some shift ->
             DB.get (fanout_db w) key = Some state ->
             In c (DB.all (caregiver_db w)) ->
             exists shift' state',
               DB.get (shift_db (step s w)) key = Some shift'
               /\ DB.get (fanout_db (step s w)) key = Some state'
               /\ In c (DB.all (caregiver_db (step s w)))
               /\ Shift.id shift' = Shift.id shift
               /\ evolves state state').
  { intros key shift state c Hs Hf Hc.
    destruct (step_keeps_shift s w key shift Hw Hs) as (sh' & Hs' & Hid & _).
    destruct (step_fanout_evolves s w key state Hf) as (st' & Hf' & Ev).
    exists sh', st'. rewrite (step_request_pool s w Hr). auto. }
  destruct e as [p m|p m|b|db k]; cbn; auto.
  - intros (key & shift & state & c & Hs & Hf & Hc & -> & -> & Hin).
    destruct (keep key shift state c Hs Hf Hc)
      as (sh' & st' & Hs' & Hf' & Hc' & Hid & Ev).
    exists key, sh', st', c. repeat split; auto.
    + unfold sms_message. now rewrite Hid.
    + destruct (sms_grow _ _ Ev) as [a ->]. apply in_or_app. now left.
  - intros (key & shift & state & c & Hs & Hf & Hc & -> & -> & Hin).
    destruct (keep key shift state c Hs Hf Hc)
      as (sh' & st' & Hs' & Hf' & Hc' & Hid & Ev).
    exists key, sh', st', c. repeat split; auto.
    + unfold call_message. now rewrite Hid.
    + destruct (call_grow _ _ Ev) as [a ->]. apply in_or_app. now left.
Qed.

Lemma new_notifications key shift pool env created state e :
  In e (filter is_notification
          (fanout_events key shift pool env created state)) ->
  (exists c,
     In c (eligible shift pool)
     /\ e = SendSms (Caregiver.phone c) (sms_message shift)
     /\ ~ In (Caregiver.id c)
             (ShiftFanoutState.sms_notified_caregiver_ids state)
     /\ In (Caregiver.id c)
           (ShiftFanoutState.sms_notified_caregiver_ids
              (advance shift pool env state)))
  \/ (exists c,
        In c (eligible shift pool)
        /\ e = PlacePhoneCall (Caregiver.phone c) (call_message shift)
        /\ ~ In (Caregiver.id c)
                (ShiftFanoutState.call_notified_caregiver_ids state)
        /\ In (Caregiver.id c)
              (ShiftFanoutState.call_notified_caregiver_ids
                 (advance shift pool env state))).
Proof.
  rewrite fanout_events_notifications. cbv zeta.
  destruct (truthy (ShiftFanoutState.claimed_caregiver_id state)) eqn:Ht;
    [intros []|].
  intros He. apply in_app_or in He. destruct He as [He|He].
  - left. unfold round_events in He. apply in_map_iff in He.
    destruct He as (t & <- & Hin).
    apply notify_round_tasks_origin in Hin.
    destruct Hin as (c & Hc & Hn & ->). exists c. cbn [fst snd].
    repeat split; auto. now apply advance_marks_sms.
  - right.
    destruct (all_complete (send_sms env) _) eqn:Hok; [|destruct He].
    destruct (escalation_due env _) eqn:Hdue; [|destruct He].
    cbn [andb] in He. unfold round_events in He. apply in_map_iff in He.
    destruct He as (t & <- & Hin).
    apply notify_round_tasks_origin in Hin.
    destruct Hin as (c & Hc & Hn & ->). exists c. cbn [fst snd].
    repeat split; auto.
    unfold advance. rewrite Ht, Hok, Hdue. cbn.
    now apply notify_round_marks.
Qed.

Lemma new_notifications_NoDup key shift pool env created state :
  NoDup (map Caregiver.phone pool) ->
  NoDup (filter is_notification
           (fanout_events key shift pool env created state)).
Proof.
  intros ND. rewrite fanout_events_notifications. cbv zeta.
  assert (NDe : NoDup (map Caregiver.phone (eligible shift pool)))
    by (unfold eligible; now apply NoDup_map_filter).
  destruct (truthy _); [constructor|].
  apply NoDup_app.
  - apply round_events_NoDup; [intros p m p' m' [= -> ->]; auto|].
    now apply notify_round_tasks_NoDup.
  - destruct (_ && _); [|constructor].
    apply round_events_NoDup; [intros p m p' m' [= -> ->]; auto|].
    now apply notify_round_tasks_NoDup.
  - intros e He Hc. unfold round_events in He. apply in_map_iff in He.
    destruct He as (t & <- & _).
    destruct (_ && _); [|destruct Hc].
    unfold round_events in Hc. apply in_map_iff in Hc.
    destruct Hc as (t' & E & _). discriminate.
Qed.

Lemma trigger_fanout_notified_once key env w :
  shifts_keyed_by_id w ->
  distinct_phones w ->
  notified_once w ->
  notified_once (fst (trigger_fanout key env w)).
Proof.
  intros Hw Hp [Hacc Hnd].
  destruct (DB.get (shift_db w) key) as [shift|] eqn:Hs.
  2:{ rewrite trigger_fanout_not_found by assumption. now split. }
  pose proof (trigger_fanout_state key env w shift Hs) as Hf'.
  destruct (trigger_fanout_stores key env w) as [Hc' Hs'].
  assert (Hold : Forall (accounted (fst (trigger_fanout key env w))) (trace w)).
  { eapply Forall_impl; [|exact Hacc]. intros e.
    now apply (step_accounted (Fanout key env) w e eq_refl Hw). }
  set (pool := DB.all (caregiver_db w)) in *.
  set (cur := current_state key env w) in *.
  set (new := fanout_events key shift pool env (is_created key w) cur).
  assert (Htrace : trace (fst (trigger_fanout key env w)) = trace w ++ new)
    by now rewrite (trigger_fanout_denotation _ _ _ _ Hs).
  assert (Hnew : forall e,
             In e (filter is_notification new) ->
             accounted (fst (trigger_fanout key env w)) e
             /\ ~ In e (trace w)).
  { intros e He.
    destruct (new_notifications _ _ _ _ _ _ _ He)
      as [(c & Hc & -> & Hn & Hm)|(c & Hc & -> & Hn & Hm)];
      apply eligible_In in Hc; destruct Hc as [Hc _]; split.
    - exists key, shift, (advance shift pool env cur), c.
      rewrite Hs', Hc'. auto 7.
    - intros Hin. apply (proj1 (Forall_forall _ _) Hacc) in Hin.
      destruct Hin as (k0 & sh0 & st0 & c0 & Hs0 & Hf0 & Hc0 & Ep & Em & Hm0).
      assert (c0 = c)
        by (apply (NoDup_map_same Caregiver.phone _ _ _ Hp Hc0 Hc); auto).
      subst c0. apply sms_message_inj in Em.
      rewrite (Hw _ _ Hs), (Hw _ _ Hs0) in Em. subst k0.
      apply Hn. unfold cur, current_state. now rewrite Hf0.
    - exists key, shift, (advance shift pool env cur), c.
      rewrite Hs', Hc'. auto 7.
    - intros Hin. apply (proj1 (Forall_forall _ _) Hacc) in Hin.
      destruct Hin as (k0 & sh0 & st0 & c0 & Hs0 & Hf0 & Hc0 & Ep & Em & Hm0).
      assert (c0 = c)
        by (apply (NoDup_map_same Caregiver.phone _ _ _ Hp Hc0 Hc); auto).
      subst c0. apply call_message_inj in Em.
      rewrite (Hw _ _ Hs), (Hw _ _ Hs0) in Em. subst k0.
      apply Hn. unfold cur, current_state. now rewrite Hf0. }
  unfold notified_once. rewrite Htrace. split.
  - apply Forall_app. split; [exact Hold|].
    apply Forall_forall. intros e He.
    destruct (is_notification e) eqn:N.
    + apply Hnew. apply filter_In. auto.
    + destruct e; try discriminate; exact I.
  - rewrite filter_app. apply NoDup_app; [exact Hnd| |].
    + now apply new_notifications_NoDup.
    + intros e He Hin. apply (Hnew e Hin).
      apply filter_In in He. tauto.
Qed.

Lemma receive_message_notified_once msg env w :
  shifts_keyed_by_id w ->
  notified_once w ->
  notified_once (fst (receive_message msg env w)).
Proof.
  intros Hw [Hacc Hnd].
  destruct (receive_message_trace msg env w) as (new & Ht & Hn).
  unfold notified_once. rewrite Ht. split.
  - apply Forall_app. split.
    + eapply Forall_impl; [|exact Hacc]. intros e.
      now apply (step_accounted (Inbound msg env) w e eq_refl Hw).
    + apply Forall_forall. intros e He.
      destruct (is_notification e) eqn:N.
      * assert (Hin : In e (filter is_notification new))
          by (apply filter_In; auto).
        rewrite Hn in Hin. destruct Hin.
      * destruct e; try discriminate; exact I.
  - rewrite filter_app, Hn, app_nil_r. exact Hnd.
Qed.

Lemma step_request_phones s w :
  is_request s = true -> distinct_phones w -> distinct_phones (step s w).
Proof.
  intros Hr. unfold distinct_phones. now rewrite (step_request_pool s w Hr).
Qed.

(** X11.  Each notification goes out once.  With shifts stored under their
    ids and caregivers of distinct phones, from a trace that holds no
    notification yet, however often and in whatever order triggers and
    inbound messages are served, no SMS and no call (a phone with the text
    of a shift) is handed to the notifier twice. *)
Theorem no_notification_twice :
  forall (steps : list Step) (w : World),
    forallb is_request steps = true ->
    shifts_keyed_by_id w ->
    distinct_phones w ->
    filter is_notification (trace w) = [] ->
    NoDup (filter is_notification (trace (run steps w))).
Proof.
  intros steps w Hr Hw Hp He.
  assert (H0 : notified_once w).
  { split; [|rewrite He; constructor].
    apply Forall_forall. intros e Hin.
    destruct (is_notification e) eqn:N.
    - assert (H : In e (filter is_notification (trace w)))
        by (apply filter_In; auto).
      rewrite He in H. destruct H.
    - destruct e; try discriminate; exact I. }
  clear He. revert w Hr Hw Hp H0.
  induction steps as [|s steps IH]; intros w Hr Hw Hp H0; cbn [run];
    [apply H0|].
  cbn in Hr. apply andb_prop in Hr. destruct Hr as [Hs Hr].
  apply IH; auto.
  - now apply step_shifts_keyed.
  - now apply step_request_phones.
  - destruct s as [k env|msg env|c]; [| |discriminate]; cbn [step].
    + now apply trigger_fanout_notified_once.
    + now apply receive_message_notified_once.
Qed.

Lemma distinct_phones_clean_db : distinct_phones Fixture.clean_db.
Proof.
  unfold distinct_phones. cbn.
  repeat constructor; cbn; intuition discriminate.
Qed.

Lemma no_notification_twice_witness :
  NoDup
    (filter is_notification
       (trace
          (run [Fanout "s1" (Fixture.at_time Fixture.t0);
                Fanout "s1" (Fixture.unreachable "+15551111" Fixture.t0);
                Fanout "s1" (Fixture.at_time (Fixture.t0 + timedelta_minutes 10));
                Inbound (Fixture.yes "+15552222") (Fixture.at_time Fixture.t0);
                Fanout "s1" (Fixture.at_time (Fixture.t0 + timedelta_minutes 11));
                Inbound (Fixture.yes "+15551111") (Fixture.at_time Fixture.t0);
                Fanout "s1" (Fixture.at_time (Fixture.t0 + timedelta_minutes 12))]
             Fixture.clean_db))).
Proof.
  exact (no_notification_twice
           [Fanout "s1" (Fixture.at_time Fixture.t0);
            Fanout "s1" (Fixture.unreachable "+15551111" Fixture.t0);
            Fanout "s1" (Fixture.at_time (Fixture.t0 + timedelta_minutes 10));
            Inbound (Fixture.yes "+15552222") (Fixture.at_time Fixture.t0);
            Fanout "s1" (Fixture.at_time (Fixture.t0 + timedelta_minutes 11));
            Inbound (Fixture.yes "+15551111") (Fixture.at_time Fixture.t0);
            Fanout "s1" (Fixture.at_time (Fixture.t0 + timedelta_minutes 12))]
           Fixture.clean_db eq_refl
           (load_sample_data_keyed _ _) distinct_phones_clean_db eq_refl).
Defined.

(** ** The two claim pointers *)

Lemma trigger_fanout_keeps_claim key env w k :
  fanout_claim (fst (trigger_fanout key env w)) k = fanout_claim w k.
Proof.
  unfold fanout_claim. destruct (String.eqb_spec k key) as [->|Hne].
  - destruct (DB.get (shift_db w) key) as [shift|] eqn:Hsh.
    + rewrite (trigger_fanout_state _ _ _ _ Hsh), advance_claimed.
      unfold current_state. destruct (DB.get (fanout_db w) key); reflexivity.
    + now rewrite trigger_fanout_not_found.
  - now rewrite trigger_fanout_other_states.
Qed.

Lemma step_pointers_agree s w :
  shifts_keyed_by_id w -> pointers_agree w -> pointers_agree (step s w).
Proof.
  intros Hw Hp. destruct s as [k env|msg env|c]; cbn [step]; intros key sh.
  - destruct (trigger_fanout_stores k env w) as [_ ->].
    rewrite trigger_fanout_keeps_claim. apply Hp.
  - unfold fanout_claim.
    destruct (receive_message_effect msg env w)
      as [_ -> -> _|cg sh0 _ Hs0 _ _ _ -> ->]; [apply Hp|].
    pose proof (Hw _ _ Hs0) as Hid. rewrite Hid, put_put.
    destruct (String.eqb_spec (InboundMessage.shift_id msg) key) as [<-|Hne].
    + rewrite !get_put_same. now intros [= <-].
    + rewrite !get_put_other by assumption. apply Hp.
  - apply Hp.
Qed.

(** X12.  The two claim pointers never part.  With shifts stored under their
    ids, if the claimant on every [Shift] is the claimant of its fanout state
    (none when it has no fanout state), this is still so after any sequence
    of triggers, inbound messages and additions to the pool. *)
Theorem claim_pointers_agree :
  forall (steps : list Step) (w : World),
    shifts_keyed_by_id w -> pointers_agree w -> pointers_agree (run steps w).
Proof.
  induction steps as [|s steps IH]; intros w Hw Hp; cbn [run]; auto.
  apply IH; [now apply step_shifts_keyed|now apply step_pointers_agree].
Qed.

Lemma pointers_agree_clean_db : pointers_agree Fixture.clean_db.
Proof.
  intros key sh. unfold fanout_claim. cbn -[String.eqb].
  destruct (String.eqb "s1" key); [|discriminate]. now intros [= <-].
Qed.

Lemma claim_pointers_agree_witness :
  let w :=
    run [Inbound (InboundMessage.mk "+15551111" "s1" "No thank you")
           (Fixture.at_time Fixture.t0);
         Fanout "s1" (Fixture.at_time Fixture.t0);
         Inbound (Fixture.yes "+15553333") (Fixture.at_time Fixture.t0);
         Inbound (Fixture.yes "+15551111") (Fixture.at_time Fixture.t0)]
      Fixture.clean_db in
  exists shift,
    DB.get (shift_db w) "s1" = Some shift
    /\ Shift.claimed_by_caregiver_id shift = fanout_claim w "s1".
Proof.
  intros w. eexists. split; [reflexivity|].
  exact (claim_pointers_agree
           [Inbound (InboundMessage.mk "+15551111" "s1" "No thank you")
              (Fixture.at_time Fixture.t0);
            Fanout "s1" (Fixture.at_time Fixture.t0);
            Inbound (Fixture.yes "+15553333") (Fixture.at_time Fixture.t0);
            Inbound (Fixture.yes "+15551111") (Fixture.at_time Fixture.t0)]
           Fixture.clean_db (load_sample_data_keyed _ _)
           pointers_agree_clean_db "s1" _ eq_refl).
Defined.

(** X13.  A success is never a false promise.  With shifts stored under
    their ids, if [receive_message] answers with [success], then the sender
    is a known caregiver, the shift was unclaimed when the message came, the
    answer carries the shift id and the sender's id as claimant, and when the
    handler returns both claim pointers of the shift name the sender. *)
Theorem success_means_claimed :
  forall (msg : InboundMessage.t) (env : Env) (w w' : World)
         (r : ShiftClaimResponse.t),
    shifts_keyed_by_id w ->
    receive_message msg env w = (w', Return r) ->
    ShiftClaimResponse.success r = true ->
    exists caregiver,
      sender w msg = Some caregiver
      /\ unclaimed (InboundMessage.shift_id msg) w
      /\ r = ShiftClaimResponse.mk true "Shift successfully claimed!"
               (InboundMessage.shift_id msg) (Some (Caregiver.id caregiver))
      /\ claimed_by (InboundMessage.shift_id msg) (Caregiver.id caregiver) w'.
Proof.
  intros msg env w w' r Hw H Hsucc.
  destruct (receive_message_effect msg env w)
    as [_ _ _ Hno|cg sh Hc Hs He Hcl _ _ _].
  { rewrite H in Hno. specialize (Hno r eq_refl). congruence. }
  assert (Hi : parse_shift_request_message_intent env (InboundMessage.body msg)
               = ACCEPT).
  { destruct (parse_shift_request_message_intent env
                (InboundMessage.body msg)) eqn:Hi; [reflexivity| |].
    - rewrite (receive_message_decline _ _ _ _ Hc _ Hs He Hi) in H.
      injection H as _ <-. discriminate.
    - rewrite (receive_message_unknown _ _ _ _ Hc _ Hs He Hi) in H.
      injection H as _ <-. discriminate. }
  pose proof (Hw _ _ Hs) as Hid.
  rewrite (receive_message_wins _ _ _ _ Hc _ Hs He Hi Hcl) in H.
  injection H as <- <-. rewrite Hid in *.
  exists cg. split; [exact Hc|]. split.
  - unfold unclaimed, current_state in *.
    destruct (DB.get (fanout_db w) (InboundMessage.shift_id msg)); auto.
  - split; [reflexivity|].
    do 2 eexists. cbn [fanout_db shift_db].
    rewrite put_put, !get_put_same. repeat split; reflexivity.
Qed.

Lemma success_means_claimed_witness :
  exists caregiver,
    sender Fixture.clean_db (Fixture.yes "+15553333") = Some caregiver
    /\ unclaimed "s1" Fixture.clean_db
    /\ ShiftClaimResponse.mk true "Shift successfully claimed!" "s1" (Some "c3")
       = ShiftClaimResponse.mk true "Shift successfully claimed!" "s1"
           (Some (Caregiver.id caregiver))
    /\ claimed_by "s1" (Caregiver.id caregiver)
         (fst (receive_message (Fixture.yes "+15553333")
                 (Fixture.at_time Fixture.t0) Fixture.clean_db)).
Proof.
  exact (success_means_claimed (Fixture.yes "+15553333")
           (Fixture.at_time Fixture.t0) Fixture.clean_db _ _
           (load_sample_data_keyed _ _) eq_refl eq_refl).
Defined.

(** ** A claimed shift is settled *)

Lemma step_claimed_state s w key state c :
  DB.get (fanout_db w) key = Some state ->
  ShiftFanoutState.claimed_caregiver_id state = Some c ->
  c <> "" ->
  DB.get (fanout_db (step s w)) key = Some state.
Proof.
  intros Hf Hc Hne. destruct s as [k env|msg env|c0]; cbn [step].
  - destruct (String.eqb_spec key k) as [<-|Hk].
    + destruct (DB.get (shift_db w) key) as [shift|] eqn:Hs.
      * now rewrite (trigger_fanout_claimed_by _ env _ _ _ _ Hs Hf Hc Hne).
      * now rewrite trigger_fanout_not_found.
    + now rewrite trigger_fanout_other_states.
  - destruct (receive_message_effect msg env w)
      as [_ _ -> _|cg sh _ _ _ Hcl _ _ ->]; [assumption|].
    destruct (String.eqb_spec (Shift.id sh) key) as [Hk|Hk].
    + unfold current_state in Hcl. rewrite Hk, Hf in Hcl. congruence.
    + now rewrite get_put_other.
  - assumption.
Qed.

(** Requests served one after the other leave a claimed state as it is. *)
Lemma claimed_state_is_terminal_in_sequence :
  forall (steps : list Step) (w : World) (key c : string)
         (state : ShiftFanoutState.t),
    DB.get (fanout_db w) key = Some state ->
    ShiftFanoutState.claimed_caregiver_id state = Some c ->
    c <> "" ->
    DB.get (fanout_db (run steps w)) key = Some state.
Proof.
  induction steps as [|s steps IH]; intros w key c state Hf Hc Hne;
    cbn [run]; [assumption|].
  apply (IH _ _ c); auto. now apply (step_claimed_state _ _ _ _ c).
Qed.

(** *** With requests in flight *)

Ltac split_trigger :=
  repeat
    (cbn [fst snd caregiver_db shift_db fanout_db trace record fanout_write
          ShiftFanoutState.started_at ShiftFanoutState.escalated_to_call
          ShiftFanoutState.claimed_caregiver_id
          ShiftFanoutState.sms_notified_caregiver_ids
          ShiftFanoutState.call_notified_caregiver_ids
          ShiftFanoutState.set_sms_notified_caregiver_ids
          ShiftFanoutState.set_call_notified_caregiver_ids
          ShiftFanoutState.set_escalated_to_call
          resume_trigger andb orb negb app];
     rewrite ?get_put_same;
     try discriminate;
     match goal with
     | H : notify_round ?m ?cs ?n = _ |- context [notify_round ?m ?cs ?n] =>
         rewrite H
     | H : forallb ?f ?l = _ |- context [forallb ?f ?l] => rewrite H
     | H : (?a >=? ?b) = _ |- context [?a >=? ?b] => rewrite H
     | H : ShiftFanoutState.escalated_to_call ?s = _
       |- context [ShiftFanoutState.escalated_to_call ?s] => rewrite H
     | |- context [notify_round ?m ?cs ?n] =>
         let ids := fresh "ids" in
         let tasks := fresh "tasks" in
         destruct (notify_round m cs n) as [ids tasks] eqn:?
     | |- context [is_empty ?l] =>
         let E := fresh "E" in
         destruct (is_empty l) eqn:E;
         [apply is_empty_nil in E; subst l|]
     | |- context [forallb ?f ?l] => destruct (forallb f l) eqn:?
     | |- context [(?a >=? ?b)] => destruct (a >=? b) eqn:?
     | |- context [ShiftFanoutState.escalated_to_call ?s] =>
         destruct (ShiftFanoutState.escalated_to_call s) eqn:?
     | |- (_, _) = (_, _) -> _ => intros [= <- <-]
     | |- context [trigger_fanout_after_sms] =>
         unfold trigger_fanout_after_sms, state_object
     | |- context [trigger_fanout_after_calls] =>
         unfold trigger_fanout_after_calls, state_object
     | |- context [escalation_check] => unfold escalation_check
     end).

(** The handler served alone is its parts one after the other: what
    [trigger_fanout] does to the world and what it answers is what the
    trigger resumed three times in a row does and answers. *)
Lemma trigger_fanout_split shift_id env w w1 t1 w2 t2 :
  resume_trigger (Triggered shift_id env) w = (w1, t1) ->
  resume_trigger t1 w1 = (w2, t2) ->
  resume_trigger t2 w2
  = (fst (trigger_fanout shift_id env w),
     Responded (snd (trigger_fanout shift_id env w))).
Proof.
  cbn [resume_trigger]. unfold trigger_fanout_before_await.
  destruct (DB.get (shift_db w) shift_id) as [shift|] eqn:Hs.
  2:{ rewrite trigger_fanout_not_found by assumption.
      intros [= <- <-] [= <- <-]. reflexivity. }
  rewrite (trigger_fanout_denotation _ _ _ _ Hs). cbn [fst snd].
  unfold is_created, current_state, fanout_events, fanout_result, advance,
    escalation_due, sms_round, call_round, all_complete, round_events.
  destruct (DB.get (fanout_db w) shift_id) as [st|] eqn:Hf.
  - destruct (truthy (ShiftFanoutState.claimed_caregiver_id st)) eqn:Ht.
    + intros [= <- <-] [= <- <-]. cbn. rewrite app_nil_r. now destruct w.
    + split_trigger; same_world.
  - cbn [truthy ShiftFanoutState.create ShiftFanoutState.claimed_caregiver_id].
    split_trigger; same_world.
Qed.

Lemma put_keeps_key {V} (db : DB.t V) k v key :
  DB.get db key <> None -> DB.get (DB.put db k v) key <> None.
Proof.
  intros H. destruct (String.eqb_spec k key) as [->|Hne].
  - now rewrite get_put_same.
  - now rewrite get_put_other.
Qed.

(** A part of a trigger on another shift writes nothing under [key], and
    no part of a trigger writes the shift store. *)
Lemma resume_trigger_frame t w key :
  match t with
  | Triggered shift_id _ | AwaitingSms shift_id _ _ _ _ _
  | AwaitingCalls shift_id _ _ _ => shift_id <> key
  | Responded _ => True
  end ->
  shift_db (fst (resume_trigger t w)) = shift_db w
  /\ DB.get (fanout_db (fst (resume_trigger t w))) key
     = DB.get (fanout_db w) key
  /\ in_sms_round key (FanoutJob (snd (resume_trigger t w))) = false.
Proof.
  assert (E : forall k, k <> key -> String.eqb k key = false)
    by (intros k Hk; now destruct (String.eqb_spec k key)).
  destruct t as [k env|k env shift pool st tasks|k env st tasks|r];
    intros Hk; cbn [resume_trigger].
  - unfold trigger_fanout_before_await.
    destruct (DB.get (shift_db w) k) as [shift|]; [|cbn; auto].
    destruct (DB.get (fanout_db w) k) as [st|].
    + destruct (truthy (ShiftFanoutState.claimed_caregiver_id st));
        [cbn; auto|].
      split_trigger; cbn; rewrite ?get_put_other by assumption; auto.
    + cbn [truthy ShiftFanoutState.create
             ShiftFanoutState.claimed_caregiver_id].
      split_trigger; cbn; rewrite ?get_put_other by assumption; auto.
  - split_trigger;
      destruct (DB.get (fanout_db w) k);
      split_trigger; cbn; rewrite ?get_put_other by assumption; auto.
  - split_trigger; cbn; rewrite ?get_put_other by assumption; auto.
  - cbn. auto.
Qed.

Section Claimed.
Variables (key c : string) (state : ShiftFanoutState.t).
Hypothesis claimed :
  ShiftFanoutState.claimed_caregiver_id state = Some c.
Hypothesis named : c <> "".

Lemma resolve_intent_claimed_state intent msg env caregiver shift w :
  DB.get (shift_db w) key <> None ->
  DB.get (fanout_db w) key = Some state ->
  let w' := fst (resolve_intent intent msg env caregiver shift w) in
  DB.get (shift_db w') key <> None /\ DB.get (fanout_db w') key = Some state.
Proof.
  intros Hs Hf. destruct intent; [|cbn; auto..].
  destruct (ShiftFanoutState.claimed_caregiver_id
              (current_state (Shift.id shift) env w)) as [c'|] eqn:Hcl.
  - unfold current_state in Hcl.
    destruct (DB.get (fanout_db w) (Shift.id shift)) as [st|] eqn:Hf';
      [|discriminate].
    rewrite (resolve_accept_claimed _ _ _ _ _ _ _ Hf' Hcl). cbn. auto.
  - destruct (String.eqb_spec (Shift.id shift) key) as [Hk|Hk].
    { unfold current_state in Hcl. rewrite Hk, Hf in Hcl. congruence. }
    cbv zeta. rewrite (resolve_accept_wins _ _ _ _ _ Hcl).
    cbn [fst shift_db fanout_db]. split.
    + now apply put_keeps_key, put_keeps_key.
    + now rewrite get_put_other.
Qed.

Lemma resume_claimed_state t w :
  DB.get (shift_db w) key <> None ->
  DB.get (fanout_db w) key = Some state ->
  DB.get (shift_db (fst (resume t w))) key <> None
  /\ DB.get (fanout_db (fst (resume t w))) key = Some state.
Proof.
  intros Hs Hf. destruct t as [msg env|msg env cg sh|r]; cbn [resume].
  - destruct (receive_message_before_await msg w) as [r|[cg sh]]; cbn; auto.
  - unfold receive_message_after_await, bind, read. cbn [fst snd].
    match goal with
    | |- context [resolve_intent ?i ?m ?e ?a ?s ?v] =>
        pose proof (resolve_intent_claimed_state i m e a s v Hs Hf) as K;
        destruct (resolve_intent i m e a s v) as [w' r]
    end.
    exact K.
  - cbn. auto.
Qed.

Lemma resume_trigger_claimed_state t w :
  DB.get (shift_db w) key <> None ->
  DB.get (fanout_db w) key = Some state ->
  in_sms_round key (FanoutJob t) = false ->
  (DB.get (shift_db (fst (resume_trigger t w))) key <> None
   /\ DB.get (fanout_db (fst (resume_trigger t w))) key = Some state)
  /\ in_sms_round key (FanoutJob (snd (resume_trigger t w))) = false
  /\ forall env,
       t = Triggered key env ->
       resume_trigger t w = (w, Responded (Return state)).
Proof.
  intros Hs Hf Hin.
  assert (Ht : truthy (ShiftFanoutState.claimed_caregiver_id state) = true).
  { rewrite claimed. cbn. now destruct (String.eqb_spec c ""). }
  assert (frame :
            match t with
            | Triggered shift_id _ | AwaitingSms shift_id _ _ _ _ _
            | AwaitingCalls shift_id _ _ _ => shift_id <> key
            | Responded _ => True
            end ->
            (DB.get (shift_db (fst (resume_trigger t w))) key <> None
             /\ DB.get (fanout_db (fst (resume_trigger t w))) key = Some state)
            /\ in_sms_round key (FanoutJob (snd (resume_trigger t w)))
               = false).
  { intros Hk. destruct (resume_trigger_frame t w key Hk) as (-> & -> & ->).
    auto. }
  destruct t as [k env|k env shift pool st tasks|k env st tasks|r].
  - destruct (String.eqb_spec k key) as [->|Hk].
    + assert (E : resume_trigger (Triggered key env) w
                  = (w, Responded (Return state))).
      { cbn [resume_trigger]. unfold trigger_fanout_before_await.
        destruct (DB.get (shift_db w) key); [|contradiction].
        now rewrite Hf, Ht. }
      rewrite E. cbn. auto.
    + destruct (frame Hk) as [A B]. repeat split; try apply A; auto.
      intros env' [= -> _]. contradiction.
  - cbn in Hin. destruct (String.eqb_spec k key) as [|Hk]; [discriminate|].
    destruct (frame Hk) as [A B]. repeat split; try apply A; auto.
    discriminate.
  - destruct (String.eqb_spec k key) as [->|Hk].
    + cbn [resume_trigger]. unfold trigger_fanout_after_calls, state_object.
      rewrite Hf. destruct (forallb _ tasks); cbn.
      * rewrite get_put_same. repeat split; auto. discriminate.
      * repeat split; auto. discriminate.
    + destruct (frame Hk) as [A B]. repeat split; try apply A; auto.
      discriminate.
  - cbn. repeat split; auto. discriminate.
Qed.

Lemma resume_job_claimed_state j w :
  DB.get (shift_db w) key <> None ->
  DB.get (fanout_db w) key = Some state ->
  in_sms_round key j = false ->
  (DB.get (shift_db (fst (resume_job j w))) key <> None
   /\ DB.get (fanout_db (fst (resume_job j w))) key = Some state)
  /\ in_sms_round key (snd (resume_job j w)) = false
  /\ (forall env,
        j = FanoutJob (Triggered key env) ->
        snd (resume_job j w) = FanoutJob (Responded (Return state)))
  /\ (forall r,
        j = FanoutJob (Responded r) ->
        snd (resume_job j w) = FanoutJob (Responded r)).
Proof.
  intros Hs Hf Hin. destruct j as [t|t]; cbn [resume_job].
  - pose proof (resume_claimed_state t w Hs Hf) as K.
    destruct (resume t w) as [w' t']. cbn in *.
    repeat split; try apply K; auto; discriminate.
  - destruct (resume_trigger_claimed_state t w Hs Hf Hin) as (A & B & C).
    destruct (resume_trigger t w) as [w' t'] eqn:E. cbn [fst snd] in *.
    repeat split; try apply A; auto.
    + intros env [= ->]. specialize (C env eq_refl). congruence.
    + intros r [= ->]. cbn in E. congruence.
Qed.

Lemma resume_job_nth_claimed_state i :
  forall jobs w,
    DB.get (shift_db w) key <> None ->
    DB.get (fanout_db w) key = Some state ->
    forallb (fun j => negb (in_sms_round key j)) jobs = true ->
    (DB.get (shift_db (fst (resume_job_nth i jobs w))) key <> None
     /\ DB.get (fanout_db (fst (resume_job_nth i jobs w))) key = Some state)
    /\ forallb (fun j => negb (in_sms_round key j))
         (snd (resume_job_nth i jobs w)) = true
    /\ forall n,
         (forall env,
            nth_error jobs n = Some (FanoutJob (Triggered key env)) ->
            nth_error (snd (resume_job_nth i jobs w)) n
            = Some (FanoutJob (if Nat.eqb n i
                               then Responded (Return state)
                               else Triggered key env)))
         /\ (forall r,
               nth_error jobs n = Some (FanoutJob (Responded r)) ->
               nth_error (snd (resume_job_nth i jobs w)) n
               = Some (FanoutJob (Responded r))).
Proof.
  induction i as [|i IH]; intros [|j jobs] w Hs Hf Hjobs;
    cbn [resume_job_nth].
  - cbn. repeat split; auto; intros ?; destruct n; discriminate.
  - cbn [forallb] in Hjobs. apply andb_prop in Hjobs.
    destruct Hjobs as [Hj Hjobs]. apply negb_true_iff in Hj.
    destruct (resume_job_claimed_state j w Hs Hf Hj) as (A & B & C & D).
    destruct (resume_job j w) as [w' j']. cbn [fst snd] in *.
    split; [exact A|]. split; [cbn [forallb]; rewrite B; exact Hjobs|].
    intros [|n]; cbn [nth_error Nat.eqb]; split.
    + intros env [= ->]. now rewrite (C env eq_refl).
    + intros r [= ->]. now rewrite (D r eq_refl).
    + auto.
    + auto.
  - cbn. repeat split; auto; intros ?; destruct n; discriminate.
  - cbn [forallb] in Hjobs. apply andb_prop in Hjobs.
    destruct Hjobs as [Hj Hjobs].
    destruct (IH jobs w Hs Hf Hjobs) as (A & B & C).
    destruct (resume_job_nth i jobs w) as [w' jobs']. cbn [fst snd] in *.
    split; [exact A|]. split; [cbn [forallb]; now rewrite Hj, B|].
    intros [|n]; cbn [nth_error Nat.eqb]; [split; auto|apply C].
Qed.

Lemma scheduler_claimed_state order :
  forall jobs w,
    DB.get (shift_db w) key <> None ->
    DB.get (fanout_db w) key = Some state ->
    forallb (fun j => negb (in_sms_round key j)) jobs = true ->
    DB.get (fanout_db (fst (scheduler order jobs w))) key = Some state
    /\ forall n,
         (forall env,
            nth_error jobs n = Some (FanoutJob (Triggered key env)) ->
            nth_error (snd (scheduler order jobs w)) n
            = Some (FanoutJob (if existsb (Nat.eqb n) order
                               then Responded (Return state)
                               else Triggered key env)))
         /\ (forall r,
               nth_error jobs n = Some (FanoutJob (Responded r)) ->
               nth_error (snd (scheduler order jobs w)) n
               = Some (FanoutJob (Responded r))).
Proof.
  induction order as [|i order IH]; intros jobs w Hs Hf Hjobs;
    cbn [scheduler existsb].
  - cbn. auto.
  - destruct (resume_job_nth_claimed_state i jobs w Hs Hf Hjobs)
      as ([Hs1 Hf1] & Hjobs1 & K).
    destruct (resume_job_nth i jobs w) as [w1 jobs1]. cbn [fst snd] in *.
    destruct (IH jobs1 w1 Hs1 Hf1 Hjobs1) as [F N].
    split; [exact F|]. intros n. destruct (K n) as [K1 K2].
    destruct (N n) as [N1 N2]. split.
    + intros env Hn. specialize (K1 env Hn).
      destruct (Nat.eqb n i); cbn [orb]; auto.
    + intros r Hn. auto.
Qed.
End Claimed.

(** X14.  A claim is final for every trigger that comes after it.  The
    fanout state of a stored shift names a claimant whose id is not empty,
    and no trigger on the shift is suspended at its SMS [gather].  Then,
    whatever requests are being handled (inbound messages and triggers, new
    or suspended at an await) and in whatever order the event loop resumes
    them, the state is never changed in any field, and every trigger on the
    shift that the loop starts is answered at once with that state. *)
Theorem claimed_state_is_terminal :
  forall (order : list nat) (jobs : list Job) (w : World) (key c : string)
         (shift : Shift.t) (state : ShiftFanoutState.t),
    DB.get (shift_db w) key = Some shift ->
    DB.get (fanout_db w) key = Some state ->
    ShiftFanoutState.claimed_caregiver_id state = Some c ->
    c <> "" ->
    forallb (fun j => negb (in_sms_round key j)) jobs = true ->
    DB.get (fanout_db (fst (scheduler order jobs w))) key = Some state
    /\ forall n env,
         nth_error jobs n = Some (FanoutJob (Triggered key env)) ->
         nth_error (snd (scheduler order jobs w)) n
         = Some (FanoutJob (if existsb (Nat.eqb n) order
                            then Responded (Return state)
                            else Triggered key env)).
Proof.
  intros order jobs w key c shift state Hs Hf Hc Hne Hjobs.
  destruct (scheduler_claimed_state key c state Hc Hne order jobs w)
    as [F N]; auto.
  - rewrite Hs. discriminate.
  - split; [exact F|]. intros n env. now apply N.
Qed.

Lemma claimed_state_is_terminal_witness :
  let w :=
    run [Fanout "s1" (Fixture.at_time Fixture.t0);
         Inbound (Fixture.yes "+15551111") (Fixture.at_time Fixture.t0)]
      Fixture.clean_db in
  let late := Fixture.at_time (Fixture.t0 + timedelta_minutes 30) in
  let jobs :=
    [FanoutJob (Triggered "s1" late);
     InboundJob (Arrived (Fixture.yes "+15553333") late);
     FanoutJob (Triggered "s1" (Fixture.at_time Fixture.t0));
     FanoutJob (Triggered "s1" late)] in
  let order := [1; 0; 1; 3; 0]%nat in
  let state :=
    ShiftFanoutState.mk "s1" Fixture.t0 ["c1"; "c3"] [] (Some "c1") false in
  DB.get (fanout_db (fst (scheduler order jobs w))) "s1" = Some state
  /\ nth_error (snd (scheduler order jobs w)) 0
     = Some (FanoutJob (Responded (Return state)))
  /\ nth_error (snd (scheduler order jobs w)) 2
     = Some (FanoutJob (Triggered "s1" (Fixture.at_time Fixture.t0))).
Proof.
  intros w late jobs order state.
  assert (Hne : "c1" <> "") by discriminate.
  pose proof (claimed_state_is_terminal order jobs w "s1" "c1"
                (Shift.set_claimed_by_caregiver_id Fixture.s1 (Some "c1"))
                state eq_refl eq_refl eq_refl Hne eq_refl) as [F N].
  split; [exact F|]. split.
  - exact (N 0%nat late eq_refl).
  - exact (N 2%nat (Fixture.at_time Fixture.t0) eq_refl).
Defined.

(** The condition on the triggers in flight is needed.  The first trigger
    is suspended at the SMS to Dan, who joined the pool after the first
    round, when Alice accepts the shift; resumed ten minutes after the start
    of the fanout it does not look at the claimant again: it raises the flag
    and calls Alice, Carol and Dan about a shift that is taken. *)
Example claim_during_the_sms_round :
  let dan := Caregiver.mk "c4" "Dan" "RN" "+15554444" in
  let w :=
    run [Fanout "s1" (Fixture.at_time Fixture.t0); AddCaregiver dan]
      Fixture.clean_db in
  let at_boundary := Fixture.at_time (Fixture.t0 + timedelta_minutes 10) in
  let jobs :=
    [FanoutJob (Triggered "s1" at_boundary);
     InboundJob (Arrived (Fixture.yes "+15551111") at_boundary)] in
  let claimed := scheduler [0; 1; 1]%nat jobs w in
  let finished := scheduler [0; 0]%nat (snd claimed) (fst claimed) in
  nth_error (snd claimed) 1
  = Some (InboundJob (won Fixture.s1 "c1"))
  /\ DB.get (fanout_db (fst claimed)) "s1"
     = Some (ShiftFanoutState.mk "s1" Fixture.t0 ["c1"; "c3"; "c4"] []
               (Some "c1") false)
  /\ DB.get (fanout_db (fst finished)) "s1"
     = Some (ShiftFanoutState.mk "s1" Fixture.t0 ["c1"; "c3"; "c4"]
               ["c1"; "c3"; "c4"] (Some "c1") true)
  /\ nth_error (snd finished) 0
     = Some (FanoutJob
               (Responded
                  (Return (ShiftFanoutState.mk "s1" Fixture.t0
                             ["c1"; "c3"; "c4"] ["c1"; "c3"; "c4"]
                             (Some "c1") true))))
  /\ filter is_call (trace (fst finished))
     = [PlacePhoneCall "+15551111" (call_message Fixture.s1);
        PlacePhoneCall "+15553333" (call_message Fixture.s1);
        PlacePhoneCall "+15554444" (call_message Fixture.s1)].
Proof.
  repeat split; reflexivity.
Qed.



(** ** Shifts do not interfere *)

Lemma step_other_shift s w key :
  shifts_keyed_by_id w ->
  addressed_to s <> Some key ->
  DB.get (fanout_db (step s w)) key = DB.get (fanout_db w) key
  /\ DB.get (shift_db (step s w)) key = DB.get (shift_db w) key.
Proof.
  intros Hw Hk. destruct s as [k env|msg env|c]; cbn [step addressed_to] in *.
  - destruct (trigger_fanout_stores k env w) as [_ ->].
    split; [|reflexivity]. apply trigger_fanout_other_states. congruence.
  - destruct (receive_message_effect msg env w)
      as [_ -> -> _|cg sh _ Hs _ _ _ -> ->]; [auto|].
    pose proof (Hw _ _ Hs) as Hid. rewrite Hid, put_put.
    rewrite !get_put_other by congruence. auto.
  - auto.
Qed.

(** X16.  Shifts do not interfere.  With shifts stored under their ids, a
    sequence of triggers and inbound messages that are all about other
    shifts, and of additions to the pool, leaves the fanout state and the
    [Shift] stored under [key] exactly as they were. *)
Theorem other_shifts_are_untouched :
  forall (steps : list Step) (w : World) (key : string),
    shifts_keyed_by_id w ->
    (forall s, In s steps -> addressed_to s <> Some key) ->
    DB.get (fanout_db (run steps w)) key = DB.get (fanout_db w) key
    /\ DB.get (shift_db (run steps w)) key = DB.get (shift_db w) key.
Proof.
  induction steps as [|s steps IH]; intros w key Hw Hk; cbn [run]; auto.
  destruct (step_other_shift s w key Hw) as [E1 E2];
    [apply Hk; now left|].
  destruct (IH (step s w) key) as [F1 F2];
    [now apply step_shifts_keyed|intros; apply Hk; now right|].
  split; congruence.
Qed.

Lemma other_shifts_are_untouched_witness :
  let w :=
    load_sample_data [Fixture.c1; Fixture.c2; Fixture.c3]
      [Fixture.s1;
       Shift.mk "s2" "org1" "RN" 0 (timedelta_minutes 480) None]
      empty_world in
  let steps :=
    [Fanout "s1" (Fixture.at_time Fixture.t0);
     Inbound (Fixture.yes "+15551111") (Fixture.at_time Fixture.t0);
     Fanout "s3" (Fixture.at_time Fixture.t0)] in
  DB.get (fanout_db (run steps w)) "s2" = DB.get (fanout_db w) "s2"
  /\ DB.get (shift_db (run steps w)) "s2" = DB.get (shift_db w) "s2".
Proof.
  intros w steps.
  refine (other_shifts_are_untouched steps w "s2"
            (load_sample_data_keyed _ _) _).
  intros s [<-|[<-|[<-|[]]]]; discriminate.
Defined.

(** ** What an answer says about the claim *)

(** X17.  The claimant in an answer is the stored one.  With shifts stored
    under their ids and the two claim pointers in agreement, whatever
    [receive_message] answers (not eligible, declined, unknown, already
    claimed or claimed) names the shift of the message, and its [claimed_by]
    is the claimant on the stored [Shift] when the handler returns. *)
Theorem response_reports_claimant :
  forall (msg : InboundMessage.t) (env : Env) (w w' : World)
         (r : ShiftClaimResponse.t),
    shifts_keyed_by_id w ->
    pointers_agree w ->
    receive_message msg env w = (w', Return r) ->
    ShiftClaimResponse.shift_id r = InboundMessage.shift_id msg
    /\ exists shift,
         DB.get (shift_db w') (InboundMessage.shift_id msg) = Some shift
         /\ ShiftClaimResponse.claimed_by r
            = Shift.claimed_by_caregiver_id shift.
Proof.
  intros msg env w w' r Hw Hp H.
  destruct (sender w msg) as [cg|] eqn:Hc.
  2:{ rewrite receive_message_unknown_caregiver in H by assumption.
      discriminate. }
  destruct (DB.get (shift_db w) (InboundMessage.shift_id msg)) as [sh|] eqn:Hs.
  2:{ rewrite (receive_message_shift_not_found _ _ _ _ Hc Hs) in H.
      discriminate. }
  pose proof (Hw _ _ Hs) as Hid.
  destruct (String.eqb_spec (Shift.role_required sh) (Caregiver.role cg))
    as [He|He].
  2:{ rewrite (receive_message_ineligible _ _ _ _ Hc _ Hs He) in H.
      injection H as <- <-. split; [exact Hid|]. now exists sh. }
  destruct (parse_shift_request_message_intent env (InboundMessage.body msg))
    eqn:Hi.
  - destruct (ShiftFanoutState.claimed_caregiver_id
                (current_state (Shift.id sh) env w)) as [c|] eqn:Hcl.
    + unfold current_state in Hcl.
      destruct (DB.get (fanout_db w) (Shift.id sh)) as [st|] eqn:Hf;
        [|discriminate].
      rewrite (receive_message_already_claimed _ _ _ _ Hc _ Hs He Hi _ _ Hf Hcl)
        in H.
      injection H as <- <-. split; [exact Hid|]. exists sh.
      split; [exact Hs|]. cbn.
      rewrite (Hp _ _ Hs). unfold fanout_claim. rewrite <- Hid, Hf.
      now rewrite Hcl.
    + rewrite (receive_message_wins _ _ _ _ Hc _ Hs He Hi Hcl) in H.
      injection H as <- <-. split; [exact Hid|].
      eexists. cbn [shift_db]. rewrite Hid, put_put, get_put_same.
      split; reflexivity.
  - rewrite (receive_message_decline _ _ _ _ Hc _ Hs He Hi) in H.
    injection H as <- <-. split; [exact Hid|]. now exists sh.
  - rewrite (receive_message_unknown _ _ _ _ Hc _ Hs He Hi) in H.
    injection H as <- <-. split; [exact Hid|]. now exists sh.
Qed.

Lemma response_reports_claimant_witness :
  let w :=
    fst (receive_message (Fixture.yes "+15551111")
           (Fixture.at_time Fixture.t0) Fixture.clean_db) in
  let r := ShiftClaimResponse.mk false "Shift already claimed" "s1"
             (Some "c1") in
  ShiftClaimResponse.shift_id r = "s1"
  /\ exists shift,
       DB.get (shift_db
                 (fst (receive_message (Fixture.yes "+15553333")
                         (Fixture.at_time Fixture.t0) w))) "s1" = Some shift
       /\ ShiftClaimResponse.claimed_by r
          = Shift.claimed_by_caregiver_id shift.
Proof.
  intros w r.
  refine (response_reports_claimant (Fixture.yes "+15553333")
            (Fixture.at_time Fixture.t0) w _ r _ _ eq_refl).
  - exact (step_shifts_keyed
             (Inbound (Fixture.yes "+15551111") (Fixture.at_time Fixture.t0))
             Fixture.clean_db (load_sample_data_keyed _ _)).
  - exact (step_pointers_agree
             (Inbound (Fixture.yes "+15551111") (Fixture.at_time Fixture.t0))
             Fixture.clean_db (load_sample_data_keyed _ _)
             pointers_agree_clean_db).
Defined.

(** ** Loading the sample data *)

Section Loading.
Context {V : Type} (ident : V -> string).

Lemma find_last (f : V -> bool) l v :
  find f (l ++ [v])
  = match find f l with
    | Some x => Some x
    | None => if f v then Some v else None
    end.
Proof.
  induction l as [|x l IH]; cbn; [reflexivity|]. now destruct (f x).
Qed.

Lemma get_store vs : forall db key,
  DB.get (fold_left (fun db v => DB.put db (ident v) v) vs db) key
  = match find (fun v => String.eqb (ident v) key) (rev vs) with
    | Some v => Some v
    | None => DB.get db key
    end.
Proof.
  induction vs as [|v vs IH]; intros db key; cbn; [reflexivity|].
  rewrite IH, find_last.
  destruct (find _ (rev vs)); [reflexivity|].
  destruct (String.eqb_spec (ident v) key) as [<-|Hne].
  - apply get_put_same.
  - now apply get_put_other.
Qed.

Lemma put_fresh (db : DB.t V) k v :
  ~ In k (DB.keys db) -> DB.put db k v = db ++ [(k, v)].
Proof.
  induction db as [|[k0 v0] db IH]; cbn; intros Hk; [reflexivity|].
  destruct (String.eqb_spec k0 k) as [->|Hne]; [tauto|].
  rewrite IH; [reflexivity|tauto].
Qed.

Lemma store_fresh vs : forall db,
  NoDup (map ident vs) ->
  (forall v, In v vs -> ~ In (ident v) (DB.keys db)) ->
  fold_left (fun db v => DB.put db (ident v) v) vs db
  = db ++ map (fun v => (ident v, v)) vs.
Proof.
  induction vs as [|v vs IH]; intros db Hnd Hk; cbn.
  - now rewrite app_nil_r.
  - inversion Hnd as [|? ? Hv Hvs]; subst.
    rewrite put_fresh by (apply Hk; now left).
    rewrite IH; [now rewrite <- app_assoc|assumption|].
    intros x Hx. unfold DB.keys. rewrite map_app, in_app_iff. cbn.
    intros [H|[H|[]]].
    + apply (Hk x); [now right|exact H].
    + apply Hv. rewrite H. now apply in_map.
Qed.
End Loading.

Lemma load_sample_data_stores caregivers shifts w :
  let w' := load_sample_data caregivers shifts w in
  caregiver_db w'
  = fold_left (fun db c => DB.put db (Caregiver.id c) c) caregivers
      (caregiver_db w)
  /\ shift_db w'
     = fold_left (fun db s => DB.put db (Shift.id s) s) shifts (shift_db w)
  /\ fanout_db w' = fanout_db w
  /\ trace w' = trace w.
Proof.
  unfold load_sample_data. revert w.
  induction caregivers as [|c cs IHc]; cbn [fold_left].
  - induction shifts as [|s ss IHs]; intros w; cbn [fold_left]; [auto|].
    destruct (IHs (shift_write (Shift.id s) s w)) as (-> & -> & -> & ->).
    auto.
  - intros w.
    destruct (IHc (caregiver_write (Caregiver.id c) c w))
      as (-> & -> & -> & ->).
    auto.
Qed.

(** X18.  What the start-up load leaves in the stores.  Starting from empty
    stores, looking an id up in the caregiver store or in the shift store
    gives the last entry of the sample data with that id (none if there is
    none), so every stored object sits under its own id and a repeated id
    keeps only its last entry; the fanout store is empty and nothing has been
    sent. *)
Theorem load_sample_data_lookup :
  forall (caregivers : list Caregiver.t) (shifts : list Shift.t),
    let w := load_sample_data caregivers shifts empty_world in
    (forall key,
        DB.get (caregiver_db w) key
        = find (fun c => String.eqb (Caregiver.id c) key) (rev caregivers))
    /\ (forall key,
           DB.get (shift_db w) key
           = find (fun s => String.eqb (Shift.id s) key) (rev shifts))
    /\ fanout_db w = DB.empty
    /\ trace w = [].
Proof.
  intros caregivers shifts w.
  destruct (load_sample_data_stores caregivers shifts empty_world)
    as (Ec & Es & Ef & Et).
  fold w in Ec, Es, Ef, Et. rewrite Ec, Es, Ef, Et.
  repeat split; intros key.
  - rewrite (get_store Caregiver.id). now destruct (find _ _).
  - rewrite (get_store Shift.id). now destruct (find _ _).
Qed.

(** X19.  The pool keeps the order of the sample data.  When no two
    caregivers of the data share an id, the caregiver store lists them in the
    order of the file, which is the order in which a fanout round sends and
    in which a phone number is resolved to a sender; likewise the shift store
    when no two shifts share an id. *)
Theorem load_sample_data_keeps_order :
  forall (caregivers : list Caregiver.t) (shifts : list Shift.t),
    NoDup (map Caregiver.id caregivers) ->
    NoDup (map Shift.id shifts) ->
    let w := load_sample_data caregivers shifts empty_world in
    DB.all (caregiver_db w) = caregivers /\ DB.all (shift_db w) = shifts.
Proof.
  intros caregivers shifts Hc Hs w.
  destruct (load_sample_data_stores caregivers shifts empty_world)
    as (Ec & Es & _).
  fold w in Ec, Es. rewrite Ec, Es. unfold DB.all.
  rewrite (store_fresh Caregiver.id), (store_fresh Shift.id); auto.
  cbn. rewrite !map_map. cbn. now rewrite !map_id.
Qed.

Lemma load_sample_data_keeps_order_witness :
  DB.all (caregiver_db Fixture.clean_db)
  = [Fixture.c1; Fixture.c2; Fixture.c3]
  /\ DB.all (shift_db Fixture.clean_db) = [Fixture.s1].
Proof.
  refine (load_sample_data_keeps_order [Fixture.c1; Fixture.c2; Fixture.c3]
            [Fixture.s1] _ _);
    repeat constructor; cbn; intuition discriminate.
Defined.

(** ** The escalation happens once *)

Lemma step_places_no_call s w key shift state phone :
  shifts_keyed_by_id w ->
  DB.get (shift_db w) key = Some shift ->
  DB.get (fanout_db w) key = Some state ->
  ShiftFanoutState.escalated_to_call state = true ->
  In (PlacePhoneCall phone (call_message shift)) (trace (step s w)) ->
  In (PlacePhoneCall phone (call_message shift)) (trace w).
Proof.
  intros Hw Hs Hf He. destruct s as [k env|msg env|c]; cbn [step].
  - destruct (DB.get (shift_db w) k) as [sh|] eqn:Hk.
    2:{ now rewrite trigger_fanout_not_found. }
    rewrite (trigger_fanout_denotation _ _ _ _ Hk). cbn [fst trace].
    rewrite in_app_iff. intros [H|H]; [exact H|exfalso].
    assert (Hc : In (PlacePhoneCall phone (call_message shift))
                    (filter is_call
                       (fanout_events k sh (DB.all (caregiver_db w)) env
                          (is_created k w) (current_state k env w))))
      by (apply filter_In; auto).
    rewrite fanout_events_calls in Hc. cbv zeta in Hc.
    destruct (_ && _) eqn:B; [|exact Hc].
    unfold round_events in Hc. apply in_map_iff in Hc.
    destruct Hc as (t & Et & Ht).
    apply notify_round_tasks_origin in Ht. destruct Ht as (c & _ & _ & ->).
    cbn [fst snd] in Et.
    assert (Em : call_message sh = call_message shift) by congruence.
    apply call_message_inj in Em.
    rewrite (Hw _ _ Hk), (Hw _ _ Hs) in Em. subst k.
    unfold current_state, escalation_due in B. rewrite Hf in B. cbn in B.
    rewrite He, !andb_false_r in B. discriminate.
  - destruct (receive_message_trace msg env w) as (new & -> & Hn).
    rewrite in_app_iff. intros [H|H]; [exact H|exfalso].
    assert (Hc : In (PlacePhoneCall phone (call_message shift))
                    (filter is_notification new))
      by (apply filter_In; auto).
    now rewrite Hn in Hc.
  - auto.
Qed.

(** X20.  A shift escalates once.  When the fanout state of a stored shift
    has its escalation flag up, no later trigger or inbound message, at any
    time on the clock, hands a call about this shift to the notifier: not to
    a caregiver who joined the pool after the escalation, and not again to
    one whose call failed.  Every call about the shift in the trace was there
    before. *)
Theorem escalation_is_one_off :
  forall (steps : list Step) (w : World) (key phone : string)
         (shift : Shift.t) (state : ShiftFanoutState.t),
    shifts_keyed_by_id w ->
    DB.get (shift_db w) key = Some shift ->
    DB.get (fanout_db w) key = Some state ->
    ShiftFanoutState.escalated_to_call state = true ->
    In (PlacePhoneCall phone (call_message shift)) (trace (run steps w)) ->
    In (PlacePhoneCall phone (call_message shift)) (trace w).
Proof.
  induction steps as [|s steps IH];
    intros w key phone shift state Hw Hs Hf He; cbn [run]; [auto|].
  intros H.
  destruct (step_keeps_shift s w key shift Hw Hs) as (shift' & Hs' & Hid & _).
  destruct (step_fanout_evolves s w key state Hf) as (state' & Hf' & Ev).
  assert (Em : call_message shift' = call_message shift)
    by (unfold call_message; now rewrite Hid).
  apply (step_places_no_call s w key shift state phone Hw Hs Hf He).
  rewrite <- Em in H |- *.
  apply (IH (step s w) key phone shift' state'); auto using step_shifts_keyed.
  now apply (escalation_stays _ _ Ev).
Qed.

Lemma escalation_is_one_off_witness :
  let w :=
    fst (trigger_fanout "s1"
           (Fixture.unreachable "+15553333"
              (Fixture.t0 + timedelta_minutes 10))
           (fst (trigger_fanout "s1" (Fixture.at_time Fixture.t0)
                   Fixture.clean_db))) in
  In (PlacePhoneCall "+15553333" (call_message Fixture.s1)) (trace w).
Proof.
  intros w.
  refine (escalation_is_one_off
            [AddCaregiver (Caregiver.mk "c4" "Dan" "RN" "+15554444");
             Fanout "s1" (Fixture.at_time (Fixture.t0 + timedelta_minutes 20));
             Inbound (InboundMessage.mk "+15554444" "s1" "No thank you")
               (Fixture.at_time Fixture.t0);
             Fanout "s1" (Fixture.at_time (Fixture.t0 + timedelta_minutes 30))]
            w "s1" "+15553333" Fixture.s1
            (ShiftFanoutState.mk "s1" Fixture.t0 ["c1"; "c3"] ["c1"; "c3"]
               None true)
            _ eq_refl eq_refl eq_refl _).
  - exact (run_shifts_keyed
             [Fanout "s1" (Fixture.at_time Fixture.t0);
              Fanout "s1"
                (Fixture.unreachable "+15553333"
                   (Fixture.t0 + timedelta_minutes 10))]
             Fixture.clean_db (load_sample_data_keyed _ _)).
  - vm_compute. tauto.
Defined.
